(** * traktarr: the Sonarr and Trakt clients (media/sonarr.py, media/trakt.py)

    A shallow embedding of the two client classes and of the properties
    their specification states about them: the retry decorator, the
    page-walking loops, the device-authorization flow and the shared header
    dictionary.

    Python values are JSON trees, the effects of the code (network, clock,
    the header dictionary, the configuration, process exit, exceptions) are
    threaded through an explicit world by a state-and-outcome monad. *)

From stdpp Require Import gmap strings list.
From Stdlib Require Import ZArith Lia.

Set Warnings "-register-all".

Local Open Scope string_scope.
Local Open Scope list_scope.
Local Open Scope Z_scope.

(** ** Python values *)

(** What [json.loads] produces.  Objects keep their keys in document order;
    the decoder never yields the same key twice.  Floating-point numbers are
    left out of the model. *)
Inductive json : Type :=
| JNull
| JBool (b : bool)
| JInt (n : Z)
| JStr (s : string)
| JList (l : list json)
| JDict (d : list (string * json)).

Definition bool_to_Z (b : bool) : Z := if b then 1 else 0.

(** [d.get(k)] on the association list of an object. *)
Fixpoint dict_get (d : list (string * json)) (k : string) : option json :=
  match d with
  | [] => None
  | (k', v) :: d' => if String.eqb k k' then Some v else dict_get d' k
  end.

(** Python's [==] on decoded JSON: [True == 1], lists compare pointwise,
    dictionaries compare as maps, whatever the order of their keys. *)
Fixpoint py_eq (a b : json) {struct a} : bool :=
  match a, b with
  | JNull, JNull => true
  | JBool x, JBool y => Bool.eqb x y
  | JBool x, JInt n => bool_to_Z x =? n
  | JInt n, JBool x => n =? bool_to_Z x
  | JInt m, JInt n => m =? n
  | JStr s, JStr t => String.eqb s t
  | JList xs, JList ys =>
      (fix pointwise (xs ys : list json) {struct xs} : bool :=
         match xs, ys with
         | [], [] => true
         | x :: xs', y :: ys' => py_eq x y && pointwise xs' ys'
         | _, _ => false
         end) xs ys
  | JDict d, JDict e =>
      (length d =? length e)%nat &&
      (fix every (d : list (string * json)) {struct d} : bool :=
         match d with
         | [] => true
         | (k, v) :: d' =>
             match dict_get e k with
             | Some v' => py_eq v v'
             | None => false
             end && every d'
         end) d
  | _, _ => false
  end.

(** [x in l] for a list [l]: some element equals [x]. *)
Definition py_in (x : json) (l : list json) : bool := existsb (py_eq x) l.

(** The exceptions the clients can meet; all are subclasses of [Exception]. *)
Inductive exn : Type :=
| KeyError | TypeError | ValueError | IndexError | ConnectionError | JSONDecodeError
| AttributeError.

(** [v[k]] with a string key: only a dictionary holding [k] answers. *)
Definition py_getitem (v : json) (k : string) : exn + json :=
  match v with
  | JDict d => match dict_get d k with Some x => inr x | None => inl KeyError end
  | _ => inl TypeError
  end.

(** [k in v] with a string [k]: a key of a dictionary, an element of a
    list, a substring of a string; other values are not containers. *)
Fixpoint is_prefix (p s : string) : bool :=
  match p, s with
  | EmptyString, _ => true
  | String a p', String b s' => Ascii.eqb a b && is_prefix p' s'
  | String _ _, EmptyString => false
  end.

Fixpoint is_substring (p s : string) : bool :=
  is_prefix p s ||
  match s with
  | EmptyString => false
  | String _ s' => is_substring p s'
  end.

Definition py_contains (k : string) (v : json) : exn + bool :=
  match v with
  | JDict d => inr (bool_decide (is_Some (dict_get d k)))
  | JList l => inr (py_in (JStr k) l)
  | JStr s => inr (is_substring k s)
  | _ => inl TypeError
  end.

(** [for x in v]: the elements of a list, the keys of a dictionary, the
    characters of a string. *)
Definition py_iter (v : json) : exn + list json :=
  match v with
  | JList l => inr l
  | JDict d => inr (map (fun kv => JStr (fst kv)) d)
  | JStr s => inr (map (fun c => JStr (String c EmptyString)) (String.list_ascii_of_string s))
  | _ => inl TypeError
  end.

(** A value used as a number: integers, and booleans as 0 and 1. *)
Definition py_number (v : json) : exn + Z :=
  match v with
  | JInt n => inr n
  | JBool b => inr (bool_to_Z b)
  | _ => inl TypeError
  end.

(** A value used as a dictionary key must be hashable. *)
Definition py_hashable (v : json) : bool :=
  match v with
  | JList _ | JDict _ => false
  | _ => true
  end.

(** [len(v)] *)
Definition py_len (v : json) : exn + Z :=
  match v with
  | JList l => inr (Z.of_nat (length l))
  | JDict d => inr (Z.of_nat (length d))
  | JStr s => inr (Z.of_nat (String.length s))
  | _ => inl TypeError
  end.

(** ** The world the clients run in *)

Inductive verb : Type := GET | POST.

(** A request URL: a literal, or [urljoin(base, rel)] kept unresolved. *)
Inductive target : Type :=
| Absolute (u : string)
| Joined (base rel : string).

(** What [requests.get] and [requests.post] are called with; [rq_headers]
    is the content of the header dictionary at the moment of the call. *)
Record request : Type := Request {
  rq_method : verb;
  rq_url : target;
  rq_params : list (string * json);
  rq_headers : gmap string string;
  rq_json : option json
}.

(** The [X-Pagination-Page-Count] response header: missing, a string that
    [int] accepts, or a string on which [int] raises [ValueError]. *)
Inductive page_count : Type :=
| NoHeader
| Count (n : Z)
| NotANumber.

(** A response object: [status_code], the pagination header, [text], and
    what [json()] returns ([None] when the body does not decode and
    [json()] raises). *)
Record response : Type := Response {
  status_code : Z;
  x_pagination_page_count : page_count;
  text : string;
  decoded : option json
}.

(** What the network does with one call: it takes [latency] seconds and
    then either hands back a response or raises a [requests] exception. *)
Record reply : Type := Reply {
  latency : Z;
  answer : option response
}.

(** Dictionaries live in a heap and are passed around by reference. *)
Abbreviation ref := positive.

Inductive event : Type :=
| Sent (at_time : Z) (rq : request) (rp : reply)
| Slept (seconds : Z)
| Warned (wait : Z) (tries : nat).

(** The state threaded through every call.
    - [clock]: what [time.time()] reads, in whole seconds;
    - [inbox]: the replies the network will give, in order; once it is
      empty every further call raises a connection error;
    - [entropy]: the numbers [random.uniform] will draw;
    - [heap]: the header dictionaries, by reference;
    - [cfg_trakt]: the dictionary [cfg['trakt']], in key order;
    - [credentials]: what has been handed to the configuration store;
    - [log]: what the process did, oldest first. *)
Record world : Type := World {
  clock : Z;
  inbox : list reply;
  entropy : list Z;
  heap : gmap ref (gmap string string);
  cfg_trakt : list (string * json);
  credentials : list (json * json);
  log : list event
}.

Inductive outcome (A : Type) : Type :=
| Returned (a : A)
| Raised (e : exn)
| SystemExit
| Diverged.

Arguments Returned {A} a.
Arguments Raised {A} e.
Arguments SystemExit {A}.
Arguments Diverged {A}.

(** A computation: from a world to an outcome and the world it leaves.
    State changes made before an exception stay made. *)
Definition M (A : Type) : Type := world -> outcome A * world.

Definition ret {A} (a : A) : M A := fun w => (Returned a, w).

Definition bind {A B} (m : M A) (k : A -> M B) : M B :=
  fun w =>
    match m w with
    | (Returned a, w') => k a w'
    | (Raised e, w') => (Raised e, w')
    | (SystemExit, w') => (SystemExit, w')
    | (Diverged, w') => (Diverged, w')
    end.

Declare Scope M_scope.
Delimit Scope M_scope with M.
Notation "x ← y ; z" := (bind y (fun x => z))
  (at level 20, y at level 100, z at level 200, only parsing) : M_scope.
Notation "' x ← y ; z" := (bind y (fun x => z))
  (at level 20, x pattern, y at level 100, z at level 200, only parsing) : M_scope.
Notation "x ;; z" := (bind x (fun _ => z))
  (at level 100, z at level 200, only parsing, right associativity) : M_scope.
Local Open Scope M_scope.

Definition raise {A} (e : exn) : M A := fun w => (Raised e, w).

(** [exit()]: raises [SystemExit], which is not an [Exception]. *)
Definition exit {A} : M A := fun w => (SystemExit, w).

Definition diverge {A} : M A := fun w => (Diverged, w).

(** [try: m except Exception: h] *)
Definition try_except {A} (m : M A) (h : exn -> M A) : M A :=
  fun w =>
    match m w with
    | (Raised e, w') => h e w'
    | r => r
    end.

(** A Python operation that yields a value or raises. *)
Definition lift {A} (r : exn + A) : M A :=
  match r with
  | inl e => raise e
  | inr a => ret a
  end.

Definition set_clock (t : Z) (w : world) : world :=
  World t (inbox w) (entropy w) (heap w) (cfg_trakt w) (credentials w) (log w).
Definition set_inbox (i : list reply) (w : world) : world :=
  World (clock w) i (entropy w) (heap w) (cfg_trakt w) (credentials w) (log w).
Definition set_entropy (e : list Z) (w : world) : world :=
  World (clock w) (inbox w) e (heap w) (cfg_trakt w) (credentials w) (log w).
Definition set_heap (h : gmap ref (gmap string string)) (w : world) : world :=
  World (clock w) (inbox w) (entropy w) h (cfg_trakt w) (credentials w) (log w).
Definition set_cfg_trakt (c : list (string * json)) (w : world) : world :=
  World (clock w) (inbox w) (entropy w) (heap w) c (credentials w) (log w).
Definition set_credentials (c : list (json * json)) (w : world) : world :=
  World (clock w) (inbox w) (entropy w) (heap w) (cfg_trakt w) c (log w).
Definition emit (e : event) (w : world) : world :=
  World (clock w) (inbox w) (entropy w) (heap w) (cfg_trakt w) (credentials w) (log w ++ [e]).

(** [time.time()] *)
Definition time_time : M Z := fun w => (Returned (clock w), w).

(** [time.sleep(d)]: a negative length is a [ValueError]. *)
Definition time_sleep (d : Z) : M unit :=
  fun w =>
    if d <? 0 then (Raised ValueError, w)
    else (Returned tt, emit (Slept d) (set_clock (clock w + d) w)).

(** [random.uniform(a, b)], from the next number of [entropy]. *)
Definition random_uniform (a b : Z) : M Z :=
  fun w =>
    match entropy w with
    | [] => (Returned a, w)
    | d :: rest => (Returned (Z.max a (Z.min b d)), set_entropy rest w)
    end.

(** The content of the dictionary behind a reference. *)
Definition deref (h : ref) (w : world) : gmap string string :=
  default ∅ (heap w !! h).

(** [d[k] = v] on the dictionary behind [h]: every holder of the reference
    sees the new entry. *)
Definition dict_setitem (h : ref) (k v : string) : M unit :=
  fun w => (Returned tt, set_heap (<[h := <[k := v]> (deref h w)]> (heap w)) w).

(** [{...}]: a new dictionary, behind a reference that nothing holds yet. *)
Definition dict_new (d : gmap string string) : M ref :=
  fun w =>
    let h := fresh (dom (heap w)) in
    (Returned h, set_heap (<[h := d]> (heap w)) w).

(** [requests.get] and [requests.post].  The headers are read through the
    reference when the call is made. *)
Definition next_reply (w : world) : reply * list reply :=
  match inbox w with
  | [] => (Reply 0 None, [])
  | r :: rest => (r, rest)
  end.

Definition requests_send (m : verb) (u : target) (ps : list (string * json))
    (h : ref) (js : option json) : M response :=
  fun w =>
    let rq := Request m u ps (deref h w) js in
    let rp := fst (next_reply w) in
    let w' := emit (Sent (clock w) rq rp)
                (set_clock (clock w + Z.max 0 (latency rp))
                   (set_inbox (snd (next_reply w)) w)) in
    match answer rp with
    | Some r => (Returned r, w')
    | None => (Raised ConnectionError, w')
    end.

(** [req.json()] *)
Definition response_json (r : response) : M json :=
  match decoded r with
  | Some v => ret v
  | None => raise JSONDecodeError
  end.

(** ** The [backoff] decorator *)

Module backoff.

(** The [details] a handler is called with: the number of tries so far, the
    value the wait generator gave, and the seconds about to be slept. *)
Record details : Type := Details {
  tries : nat;
  value : Z;
  wait : Z
}.

(** [backoff.expo()]: the n-th value is [factor * base ** n], with the
    defaults [base = 2] and [factor = 1]. *)
Definition expo (n : nat) : Z := 1 * 2 ^ Z.of_nat n.

(** [backoff.full_jitter], the default [jitter] of [on_predicate]. *)
Definition full_jitter (value : Z) : M Z := random_uniform 0 value.

Section on_predicate.
Context {A : Type}.
Variable wait_gen : nat -> Z.
Variable predicate : A -> bool.
Variable on_backoff : details -> M unit.
Variable call : M A.

(** The retry loop, with [left] the tries that remain after this one
    ([tries == max_tries] when it is 0).  Beside the value it returns the
    number of tries made and the details given to [on_backoff]. *)
Fixpoint retry (left : nat) (tries : nat) (seen : list details)
    : M (A * nat * list details) :=
  let tries := S tries in
  r ← call;
  if predicate r then
    match left with
    | O => ret (r, tries, seen)
    | S left' =>
        let value := wait_gen (tries - 1)%nat in
        seconds ← full_jitter value;
        let d := Details tries value seconds in
        on_backoff d;;
        time_sleep seconds;;
        retry left' tries (seen ++ [d])
    end
  else ret (r, tries, seen).

Definition on_predicate_run (max_tries : nat) : M (A * nat * list details) :=
  retry (max_tries - 1)%nat 0%nat [].

Definition on_predicate (max_tries : nat) : M A :=
  x ← on_predicate_run max_tries; ret (fst (fst x)).
End on_predicate.

End backoff.

(** [lambda x: x is None] *)
Definition is_None {A} (x : option A) : bool :=
  match x with
  | None => true
  | Some _ => false
  end.

(** [x is None] for a decoded value. *)
Definition json_is_None (x : json) : bool :=
  match x with
  | JNull => true
  | _ => false
  end.

(** [v.lower()]: only a string has the method.  What [str.lower] does to
    the characters is left open: [lower] is a parameter. *)
Definition py_lower (lower : string -> string) (v : json) : exn + string :=
  match v with
  | JStr s => inr (lower s)
  | _ => inl AttributeError
  end.

(** ** media/sonarr.py *)

Module Sonarr.

(** [log.warning] of the wait and the number of tries. *)
Definition backoff_handler (d : backoff.details) : M unit :=
  fun w => (Returned tt, emit (Warned (backoff.wait d) (backoff.tries d)) w).

Record t : Type := Self {
  server_url : string;
  api_key : string;
  headers : ref
}.

Definition __init__ (server_url api_key : string) : M t :=
  headers ← dict_new (<["Content-Type" := "application/json"]>
                        (<["X-Api-Key" := api_key]> ∅));
  ret (Self server_url api_key headers).

Definition validate_api_key (self : t) : M bool :=
  try_except
    (req ← requests_send GET (Joined (server_url self) "api/system/status") []
             (headers self) None;
     if status_code req =? 200 then
       body ← response_json req;
       found ← lift (py_contains "version" body);
       if found : bool then ret true else ret false
     else ret false)
    (fun _ => ret false).

(** The body of [get_series], one try. *)
Definition get_series_try (self : t) : M (option json) :=
  try_except
    (req ← requests_send GET (Joined (server_url self) "api/series") []
             (headers self) None;
     if status_code req =? 200 then
       resp_json ← response_json req;
       _ ← lift (py_len resp_json);
       ret (Some resp_json)
     else ret None)
    (fun _ => ret None).

Definition get_series (self : t) : M (option json) :=
  backoff.on_predicate backoff.expo is_None backoff_handler (get_series_try self) 4.

Section get_profile_id.
Variable lower : string -> string.

(** The [for profile in resp_json] loop: the id of the first profile whose
    name matches, [None] when the list is exhausted.  Both [log.debug]
    lines evaluate [profile['id']]. *)
Fixpoint for_profile (profile_name : string) (resp_json : list json) : M json :=
  match resp_json with
  | [] => ret JNull
  | profile :: rest =>
      name ← lift (py_getitem profile "name");
      name ← lift (py_lower lower name);
      if String.eqb name (lower profile_name) then
        _ ← lift (py_getitem profile "id");
        id ← lift (py_getitem profile "id");
        ret id
      else
        _ ← lift (py_getitem profile "name");
        _ ← lift (py_getitem profile "id");
        for_profile profile_name rest
  end.

(** The body of [get_profile_id], one try; the value is [profile['id']] as
    decoded, or [None]. *)
Definition get_profile_id_try (self : t) (profile_name : string) : M json :=
  try_except
    (req ← requests_send GET (Joined (server_url self) "api/profile") []
             (headers self) None;
     if status_code req =? 200 then
       resp_json ← response_json req;
       profiles ← lift (py_iter resp_json);
       for_profile profile_name profiles
     else ret JNull)
    (fun _ => ret JNull).

Definition get_profile_id (self : t) (profile_name : string) : M json :=
  backoff.on_predicate backoff.expo json_is_None backoff_handler
    (get_profile_id_try self profile_name) 4.
End get_profile_id.

Definition add_series_payload (series_tvdbid : Z) (series_title series_title_slug : string)
    (profile_id : Z) (root_folder : string) (search_missing : bool) : json :=
  JDict [("tvdbId", JInt series_tvdbid); ("title", JStr series_title);
         ("titleSlug", JStr series_title_slug);
         ("qualityProfileId", JInt profile_id); ("images", JList []);
         ("seasons", JList []); ("seasonFolder", JBool true);
         ("monitored", JBool true); ("rootFolderPath", JStr root_folder);
         ("addOptions", JDict [("ignoreEpisodesWithFiles", JBool false);
                               ("ignoreEpisodesWithoutFiles", JBool false);
                               ("searchForMissingEpisodes", JBool search_missing)])].

(** The body of [add_series], one try: [Some true], [Some false] or [None]. *)
Definition add_series_try (self : t) (series_tvdbid : Z)
    (series_title series_title_slug : string) (profile_id : Z)
    (root_folder : string) (search_missing : bool) : M (option bool) :=
  try_except
    (let payload := add_series_payload series_tvdbid series_title series_title_slug
                      profile_id root_folder search_missing in
     req ← requests_send POST (Joined (server_url self) "api/series") []
             (headers self) (Some payload);
     added ← (if status_code req =? 201 then
                body ← response_json req;
                v ← lift (py_getitem body "tvdbId");
                ret (py_eq v (JInt series_tvdbid))
              else ret false);
     if added : bool then ret (Some true)
     else if (status_code req =? 401) && is_substring "errorMessage" (text req) then
       body ← response_json req;
       _ ← lift (py_getitem body "errorMessage");
       ret (Some false)
     else ret (Some false))
    (fun _ => ret None).

Definition add_series (self : t) (series_tvdbid : Z)
    (series_title series_title_slug : string) (profile_id : Z)
    (root_folder : string) (search_missing : bool) : M (option bool) :=
  backoff.on_predicate backoff.expo is_None backoff_handler
    (add_series_try self series_tvdbid series_title series_title_slug
       profile_id root_folder search_missing) 4.

(** [add_series] with the number of tries and the backoffs it made. *)
Definition add_series_run (self : t) (series_tvdbid : Z)
    (series_title series_title_slug : string) (profile_id : Z)
    (root_folder : string) (search_missing : bool)
    : M (option bool * nat * list backoff.details) :=
  backoff.on_predicate_run backoff.expo is_None backoff_handler
    (add_series_try self series_tvdbid series_title series_title_slug
       profile_id root_folder search_missing) 4.

End Sonarr.

(** ** media/trakt.py *)

(** [s + v] for a string [s]: only a string can be appended. *)
Definition py_concat (s : string) (v : json) : exn + string :=
  match v with
  | JStr t => inr (s +:+ t)
  | _ => inl TypeError
  end.

(** [d.pop(k)] for a key that is present, on the association list: the
    entry of [k] goes (a dictionary has at most one). *)
Fixpoint dict_remove (d : list (string * json)) (k : string) : list (string * json) :=
  match d with
  | [] => []
  | (k', v) :: d' =>
      if String.eqb k k' then dict_remove d' k else (k', v) :: dict_remove d' k
  end.

Definition dict_has (d : list (string * json)) (k : string) : bool :=
  match dict_get d k with
  | Some _ => true
  | None => false
  end.

Definition dict_pop_if_present (d : list (string * json)) (k : string) : list (string * json) :=
  if dict_has d k then dict_remove d k else d.

Module Trakt.

Definition backoff_handler (d : backoff.details) : M unit :=
  fun w => (Returned tt, emit (Warned (backoff.wait d) (backoff.tries d)) w).

(** The client object; [self.cfg['trakt']] is [cfg_trakt] of the world. *)
Record t : Type := Self {
  api_key : string;
  api_secret : string;
  headers : ref
}.

Definition validate_api_key (self : t) : M bool :=
  try_except
    (let payload := [("extended", JStr "full"); ("limit", JInt 1000)] in
     req ← requests_send GET (Absolute "https://api.trakt.tv/shows/anticipated")
             payload (headers self) None;
     if status_code req =? 200 then ret true else ret false)
    (fun _ => ret false).

Definition __oauth_request_device_code (self : t) : M json :=
  let payload := [("client_id", JStr (api_key self))] in
  req ← requests_send POST (Absolute "https://api.trakt.tv/oauth/device/code")
          payload (headers self) None;
  device_code_response ← response_json req;
  _ ← lift (py_getitem device_code_response "verification_url");
  _ ← lift (py_getitem device_code_response "user_code");
  _ ← lift (py_getitem device_code_response "interval");
  ret device_code_response.

(** Modelled from the spec: [Config().merge_settings] of misc/config.py,
    which is not among the sources.  The specification gives the store the
    operation [store_credential(owner, Credential)]; here it appends the
    pair to [credentials]. *)
Definition merge_settings (owner credential : json) : M unit :=
  fun w => (Returned tt, set_credentials (credentials w ++ [(owner, credential)]) w).

(** Returns [(success, req.status_code)]; on the 200 path [req] has been
    rebound to the answer of [users/me]. *)
Definition __oauth_process_token_request (self : t) (req : response) : M (bool * Z) :=
  if status_code req =? 200 then
    access_token_response ← response_json req;
    access_token ← lift (py_getitem access_token_response "access_token");
    let temp_headers := headers self in
    bearer ← lift (py_concat "Bearer " access_token);
    dict_setitem temp_headers "Authorization" bearer;;
    req' ← requests_send GET (Absolute "https://api.trakt.tv/users/me") []
             temp_headers None;
    me ← response_json req';
    username ← lift (py_getitem me "username");
    (if py_hashable username then ret tt else raise TypeError);;
    merge_settings username access_token_response;;
    ret (true, status_code req')
  else ret (false, status_code req).

(** The [while] loop of [__oauth_poll_for_access_token]; [fuel] bounds the
    number of iterations. *)
Fixpoint poll_loop (fuel : nat) (self : t) (device_code : json)
    (polling_start polling_interval polling_expire : Z) : M bool :=
  now ← time_time;
  if now - polling_start <? polling_expire then
    match fuel with
    | O => diverge
    | S fuel' =>
        let payload := [("code", device_code); ("client_id", JStr (api_key self));
                        ("client_secret", JStr (api_secret self));
                        ("grant_type", JStr "authorization_code")] in
        req ← requests_send POST (Absolute "https://api.trakt.tv/oauth/device/token")
                payload (headers self) None;
        '(success, status_code) ← __oauth_process_token_request self req;
        if success : bool then ret false
        else
          let polling_interval :=
            if status_code =? 426 then polling_interval + 1 else polling_interval in
          time_sleep polling_interval;;
          poll_loop fuel' self device_code polling_start polling_interval polling_expire
    end
  else ret false.

(** Every iteration either takes a reply from the inbox or ends the loop
    with an exception, so one more than the length of the inbox is fuel
    enough. *)
Definition __oauth_poll_for_access_token (self : t)
    (device_code polling_interval polling_expire : json) : M bool :=
  polling_start ← time_time;
  interval ← lift (py_number polling_interval);
  time_sleep interval;;
  expire ← lift (py_number polling_expire);
  fun w => poll_loop (S (length (inbox w))) self device_code polling_start interval expire w.

Definition __oauth_refresh_access_token (self : t) (refresh_token : json) : M bool :=
  let payload := [("refresh_token", refresh_token); ("client_id", JStr (api_key self));
                  ("client_secret", JStr (api_secret self));
                  ("grant_type", JStr "refresh_token")] in
  req ← requests_send POST (Absolute "https://api.trakt.tv/oauth/token")
          payload (headers self) None;
  '(success, status_code) ← __oauth_process_token_request self req;
  ret success.

Definition oauth_authentication (self : t) : M bool :=
  try_except
    (device_code_response ← __oauth_request_device_code self;
     device_code ← lift (py_getitem device_code_response "device_code");
     interval ← lift (py_getitem device_code_response "interval");
     expires_in ← lift (py_getitem device_code_response "expires_in");
     ok ← __oauth_poll_for_access_token self device_code interval expires_in;
     if ok : bool then ret true else ret false)
    (fun _ => ret false).

(** The user whose token is used: the one asked for when the configuration
    knows it, else the first key left once [api_key] and [api_secret] have
    been popped from [cfg['trakt']] itself. *)
Definition resolve_user (user : option string) : M string :=
  fun w =>
    let known := match user with
                 | Some u => dict_has (cfg_trakt w) u
                 | None => false
                 end in
    match user, known with
    | Some u, true => (Returned u, w)
    | _, _ =>
        let users := dict_pop_if_present
                       (dict_pop_if_present (cfg_trakt w) "api_key") "api_secret" in
        let w' := set_cfg_trakt users w in
        match users with
        | [] => (Raised IndexError, w')
        | (k, _) :: _ => (Returned k, w')
        end
    end.

Definition cfg_trakt_getitem (user : string) : M json :=
  fun w =>
    match dict_get (cfg_trakt w) user with
    | Some v => (Returned v, w)
    | None => (Raised KeyError, w)
    end.

(** Returns the reference held in [self.headers], not a copy. *)
Definition oauth_headers (self : t) (user : option string) : M ref :=
  let headers := headers self in
  user ← resolve_user user;
  token_information ← cfg_trakt_getitem user;
  created_at ← lift (py_getitem token_information "created_at");
  expires_in ← lift (py_getitem token_information "expires_in");
  created_at ← lift (py_number created_at);
  expires_in ← lift (py_number expires_in);
  let expires_at := created_at + expires_in in
  now ← time_time;
  (if expires_at <? now then
     refresh_token ← lift (py_getitem token_information "refresh_token");
     _ ← __oauth_refresh_access_token self refresh_token;
     ret tt
   else ret tt);;
  access_token ← lift (py_getitem token_information "access_token");
  bearer ← lift (py_concat "Bearer " access_token);
  dict_setitem headers "Authorization" bearer;;
  ret headers.

(** *** The paginated operations

    The eleven [get_*] methods repeat one loop; they differ in the URL, in
    whether the headers come from [oauth_headers] (and a 401 ends the
    process), and in whether a record is wrapped before it is appended. *)
Inductive endpoint : Type :=
| anticipated_shows | watchlist_shows | user_list_shows | trending_shows
| popular_shows
| anticipated_movies | trending_movies | popular_movies | boxoffice_movies
| watchlist_movies | user_list_movies.

Definition authenticated (ep : endpoint) : bool :=
  match ep with
  | watchlist_shows | user_list_shows | watchlist_movies | user_list_movies => true
  | _ => false
  end.

(** [{'show': show}] and [{'movie': movie}] of the two popular lists. *)
Definition envelope (ep : endpoint) : option string :=
  match ep with
  | popular_shows => Some "show"
  | popular_movies => Some "movie"
  | _ => None
  end.

(** The URL expression; for the user lists [user] is concatenated and
    [None + str] is a [TypeError]. *)
Definition endpoint_url (ep : endpoint) (user : option string) (list_id : string)
    : exn + string :=
  match ep with
  | anticipated_shows => inr "https://api.trakt.tv/shows/anticipated"
  | watchlist_shows => inr "https://api.trakt.tv/sync/watchlist/shows"
  | trending_shows => inr "https://api.trakt.tv/shows/trending"
  | popular_shows => inr "https://api.trakt.tv/shows/popular"
  | anticipated_movies => inr "https://api.trakt.tv/movies/anticipated"
  | trending_movies => inr "https://api.trakt.tv/movies/trending"
  | popular_movies => inr "https://api.trakt.tv/movies/popular"
  | boxoffice_movies => inr "https://api.trakt.tv/movies/boxoffice"
  | watchlist_movies => inr "https://api.trakt.tv/sync/watchlist/movies"
  | user_list_shows =>
      match user with
      | Some u => inr ("https://api.trakt.tv/users/" +:+ u +:+ "/lists/" +:+ list_id
                       +:+ "/items/shows")
      | None => inl TypeError
      end
  | user_list_movies =>
      match user with
      | Some u => inr ("https://api.trakt.tv/users/" +:+ u +:+ "/lists/" +:+ list_id
                       +:+ "/items/movies")
      | None => inl TypeError
      end
  end.

(** [payload] with its current [page]. *)
Definition page_payload (limit page : Z) (languages : option string)
    : list (string * json) :=
  [("extended", JStr "full"); ("limit", JInt limit); ("page", JInt page)]
  ++ match languages with
     | Some l => [("languages", JStr l)]
     | None => []
     end.

(** [int(req.headers['X-Pagination-Page-Count'])] when the header is there,
    as the debug line of every iteration evaluates it. *)
Definition logged_page_count (req : response) : exn + Z :=
  match x_pagination_page_count req with
  | NoHeader => inr 0
  | Count n => inr n
  | NotANumber => inl ValueError
  end.

(** [for show in resp_json: if show not in processed: processed.append(..)];
    the membership test is on the record as received, the append on the
    record as wrapped. *)
Definition append_new (wrap : option string) (processed : list json) (show : json)
    : list json :=
  if py_in show processed then processed
  else processed ++ [match wrap with
                     | Some category => JDict [(category, show)]
                     | None => show
                     end].

Definition aggregate (wrap : option string) (resp_json processed : list json)
    : list json :=
  fold_left (append_new wrap) resp_json processed.

(** The [while True] loop; it returns [processed] when it breaks. *)
Fixpoint page_loop (fuel : nat) (self : t) (ep : endpoint) (user : option string)
    (list_id : string) (limit : Z) (languages : option string)
    (page : Z) (processed : list json) : M (list json) :=
  match fuel with
  | O => diverge
  | S fuel' =>
      u ← lift (endpoint_url ep user list_id);
      h ← (if authenticated ep then oauth_headers self user else ret (headers self));
      req ← requests_send GET (Absolute u) (page_payload limit page languages) h None;
      _ ← lift (logged_page_count req);
      if status_code req =? 200 then
        resp_json ← response_json req;
        shows ← lift (py_iter resp_json);
        let processed := aggregate (envelope ep) shows processed in
        match x_pagination_page_count req with
        | NoHeader => ret processed
        | NotANumber => raise ValueError
        | Count n =>
            if n =? 0 then ret processed
            else if page >=? n then ret processed
            else
              time_sleep 5;;
              page_loop fuel' self ep user list_id limit languages (page + 1) processed
        end
      else if authenticated ep && (status_code req =? 401) then exit
      else ret processed
  end.

(** [languages] defaults to [['en']]; a list that is not empty is joined
    with commas into the [languages] parameter. *)
Definition join_languages (languages : option (list string)) : option string :=
  match default ["en"] languages with
  | [] => None
  | l => Some (String.concat "," l)
  end.

(** The body of a [get_*] method, one try.  Every iteration of its loop
    either takes a reply from the inbox or ends the loop, so one more than
    the length of the inbox is fuel enough. *)
Definition fetch_try (self : t) (ep : endpoint) (user : option string)
    (list_id : string) (limit : Z) (languages : option (list string))
    : M (option (list json)) :=
  try_except
    (processed ← (fun w => page_loop (S (length (inbox w))) self ep user list_id
                             limit (join_languages languages) 1 [] w);
     match processed with
     | [] => ret None
     | _ => ret (Some processed)
     end)
    (fun _ => ret None).

(** The decorated method, with the tries and backoffs it made. *)
Definition fetch_run (self : t) (ep : endpoint) (user : option string)
    (list_id : string) (limit : Z) (languages : option (list string))
    : M (option (list json) * nat * list backoff.details) :=
  backoff.on_predicate_run backoff.expo is_None backoff_handler
    (fetch_try self ep user list_id limit languages) 4.

Definition fetch (self : t) (ep : endpoint) (user : option string)
    (list_id : string) (limit : Z) (languages : option (list string))
    : M (option (list json)) :=
  backoff.on_predicate backoff.expo is_None backoff_handler
    (fetch_try self ep user list_id limit languages) 4.

Definition get_anticipated_shows (self : t) limit languages :=
  fetch self anticipated_shows None "" limit languages.
Definition get_watchlist_shows (self : t) user limit languages :=
  fetch self watchlist_shows user "" limit languages.
Definition get_user_list_shows (self : t) list_id user limit languages :=
  fetch self user_list_shows user list_id limit languages.
Definition get_trending_shows (self : t) limit languages :=
  fetch self trending_shows None "" limit languages.
Definition get_popular_shows (self : t) limit languages :=
  fetch self popular_shows None "" limit languages.
Definition get_anticipated_movies (self : t) limit languages :=
  fetch self anticipated_movies None "" limit languages.
Definition get_trending_movies (self : t) limit languages :=
  fetch self trending_movies None "" limit languages.
Definition get_popular_movies (self : t) limit languages :=
  fetch self popular_movies None "" limit languages.
Definition get_boxoffice_movies (self : t) limit languages :=
  fetch self boxoffice_movies None "" limit languages.
Definition get_watchlist_movies (self : t) user limit languages :=
  fetch self watchlist_movies user "" limit languages.
Definition get_user_list_movies (self : t) list_id user limit languages :=
  fetch self user_list_movies user list_id limit languages.

End Trakt.

(** ** Observing a run *)

(** The outcome of a computation and the world it leaves. *)
Definition result {A} (m : M A) (w : world) : outcome A := fst (m w).
Definition final {A} (m : M A) (w : world) : world := snd (m w).

(** What a computation adds to the log. *)
Definition events_of {A} (m : M A) (w : world) : list event :=
  drop (length (log w)) (log (final m w)).

(** The reply the next network call will get, when it is a response. *)
Definition next_response (w : world) : option response :=
  answer (fst (next_reply w)).

(** The header dictionary behind [h] holds a bearer token. *)
Definition bearer (h : ref) (w : world) : Prop :=
  exists token, deref h w !! "Authorization" = Some ("Bearer " +:+ token).

(** A request that was sent with a bearer token. *)
Definition carries_bearer (e : event) : Prop :=
  match e with
  | Sent _ rq _ => exists token, rq_headers rq !! "Authorization" = Some ("Bearer " +:+ token)
  | _ => True
  end.

(** A request that was sent with the given [Authorization] header. *)
Definition sent_authorization (v : string) (e : event) : Prop :=
  match e with
  | Sent _ rq _ => rq_headers rq !! "Authorization" = Some v
  | _ => True
  end.

(** A request for a page of a list: its parameters name the page. *)
Definition page_request (rq : request) : bool := dict_has (rq_params rq) "page".

(** A page request answered with a 401 (whose pagination header, if any,
    reads as a number). *)
Definition revoked (e : event) : Prop :=
  match e with
  | Sent _ rq (Reply _ (Some r)) =>
      page_request rq = true /\ status_code r = 401 /\
      x_pagination_page_count r <> NotANumber
  | _ => False
  end.

(** An event that is not a page request, and one that is. *)
Definition no_page_request (e : event) : Prop :=
  match e with
  | Sent _ rq _ => page_request rq = false
  | _ => True
  end.

Definition page_sent (e : event) : Prop :=
  match e with
  | Sent _ rq _ => page_request rq = true
  | _ => False
  end.

(** The log has grown by events that are not page requests. *)
Definition oauth_traffic (w w' : world) : Prop :=
  exists evs, log w' = log w ++ evs /\ Forall no_page_request evs.

(** [w'] can follow [w] in a run of a client whose header dictionary is
    [h]: the log has grown, the inbox is a suffix of what it was, the clock
    has not gone back, a bearer token once in the headers is still there
    and was sent with every request made in between. *)
Record extends (h : ref) (w w' : world) : Prop := Extends {
  ext_log : exists evs, log w' = log w ++ evs /\ (bearer h w -> Forall carries_bearer evs);
  ext_inbox : exists k, inbox w' = drop k (inbox w);
  ext_clock : clock w <= clock w';
  ext_bearer : bearer h w -> bearer h w'
}.

(** A request that was sent with the given headers. *)
Definition sent_with (hs : gmap string string) (e : event) : Prop :=
  match e with
  | Sent _ rq _ => rq_headers rq = hs
  | _ => True
  end.

(** The headers behind [h] are what they were, and every request made in
    between was sent with them. *)
Record same_headers (h : ref) (w w' : world) : Prop := SameHeaders {
  same_heap : heap w' = heap w;
  same_log : exists evs, log w' = log w ++ evs /\ Forall (sent_with (deref h w)) evs
}.

(** A reflexive and transitive relation between worlds, and a computation
    all of whose runs are steps of it. *)
Record frame : Type := Frame {
  rel :> world -> world -> Prop;
  rel_refl : forall w, rel w w;
  rel_trans : forall a b c, rel a b -> rel b c -> rel a c
}.

Definition steps (F : frame) {A} (m : M A) : Prop :=
  forall w, F w (final m w).

(** A computation that returns or raises an exception: it neither leaves
    the process nor runs out of fuel. *)
Definition plain {A} (m : M A) : Prop :=
  forall w, match result m w with
            | Returned _ | Raised _ => True
            | SystemExit | Diverged => False
            end.

(** The page numbers asked for, in the order of the requests. *)
Definition requested_pages (evs : list event) : list json :=
  omap (fun e => match e with
                 | Sent _ rq _ => dict_get (rq_params rq) "page"
                 | _ => None
                 end) evs.

(** A reply that is a page of a list of [n] pages: status 200, the count
    [n] in the pagination header, a body that decodes to something the loop
    can iterate over. *)
Definition full_page (n : Z) (rp : reply) : Prop :=
  exists lat r body items,
    rp = Reply lat (Some r) /\ status_code r = 200 /\
    x_pagination_page_count r = Count n /\
    decoded r = Some body /\ py_iter body = inr items.

(** An upper bound on the time it takes to walk the given pages: each
    takes its latency and is followed by a pause of at most 5 seconds. *)
Definition duration (pages : list reply) : Z :=
  fold_right (fun rp t => Z.max 0 (latency rp) + 5 + t) 0 pages.

(** A token entry of [cfg['trakt']] that [oauth_headers] can use without
    refreshing it as long as the clock has not passed [deadline]. *)
Definition valid_token (deadline : Z) (info : json) : Prop :=
  exists created expires token,
    (exists v, py_getitem info "created_at" = inr v /\ py_number v = inr created) /\
    (exists v, py_getitem info "expires_in" = inr v /\ py_number v = inr expires) /\
    py_getitem info "access_token" = inr (JStr token) /\
    deadline <= created + expires.

(** The configuration resolves [user] to such an entry. *)
Definition signed_in (user : option string) (deadline : Z) (w : world) : Prop :=
  exists u info,
    result (Trakt.resolve_user user) w = Returned u /\
    dict_get (cfg_trakt (final (Trakt.resolve_user user) w)) u = Some info /\
    valid_token deadline info.

(** What a paginated operation needs to get as far as its page requests:
    a URL (the user lists need a user name), and for the operations that
    send the user's token, a token that is valid until [deadline]. *)
Definition ready (ep : Trakt.endpoint) (user : option string) (list_id : string)
    (deadline : Z) (w : world) : Prop :=
  (exists u, Trakt.endpoint_url ep user list_id = inr u) /\
  (Trakt.authenticated ep = true -> signed_in user deadline w).

(** A reply that is a response, with a status other than 200. *)
Definition not_granted (rp : reply) : Prop :=
  exists r, answer rp = Some r /\ status_code r <> 200.

(** A request that was sent before the given time. *)
Definition sent_before (deadline : Z) (e : event) : Prop :=
  match e with
  | Sent t _ _ => t < deadline
  | _ => True
  end.

(** No element of the list equals an earlier one. *)
Definition distinct (l : list json) : Prop :=
  forall i j x y, (i < j)%nat -> l !! i = Some x -> l !! j = Some y -> py_eq y x = false.

(** The lengths of the sleeps, and the requests with the time they were
    sent at and the status they were answered with. *)
Definition sleeps (evs : list event) : list Z :=
  omap (fun e => match e with Slept d => Some d | _ => None end) evs.

Definition exchanges (evs : list event) : list (Z * target * option Z) :=
  omap (fun e => match e with
                 | Sent t rq rp => Some (t, rq_url rq, status_code <$> answer rp)
                 | _ => None
                 end) evs.

(** A call of one of the public methods of the Trakt client. *)
Inductive call : Type :=
| call_validate_api_key
| call_oauth_authentication
| call_oauth_headers (user : option string)
| call_fetch (ep : Trakt.endpoint) (user : option string) (list_id : string)
    (limit : Z) (languages : option (list string)).

Definition run_call (self : Trakt.t) (c : call) : M unit :=
  match c with
  | call_validate_api_key => _ ← Trakt.validate_api_key self; ret tt
  | call_oauth_authentication => _ ← Trakt.oauth_authentication self; ret tt
  | call_oauth_headers user => _ ← Trakt.oauth_headers self user; ret tt
  | call_fetch ep user list_id limit languages =>
      _ ← Trakt.fetch self ep user list_id limit languages; ret tt
  end.

(** Calls made one after the other on one client.  An exception is the
    caller's to handle and the session goes on; [SystemExit] ends it. *)
Fixpoint session (self : Trakt.t) (cs : list call) : M unit :=
  match cs with
  | [] => ret tt
  | c :: cs' =>
      fun w =>
        match run_call self c w with
        | (SystemExit, w') => (SystemExit, w')
        | (Diverged, w') => (Diverged, w')
        | (_, w') => session self cs' w'
        end
  end.

(** ** More to observe *)

(** The requests sent, in order. *)
Definition requests_of (evs : list event) : list request :=
  omap (fun e => match e with Sent _ rq _ => Some rq | _ => None end) evs.

Definition total (l : list Z) : Z := foldr Z.add 0 l.

(** The warnings of the backoff handler: the seconds about to be slept
    and the tries made so far. *)
Definition warnings (evs : list event) : list (Z * nat) :=
  omap (fun e => match e with Warned s t => Some (s, t) | _ => None end) evs.

(** The seconds slept after the try numbered [tries]: the jittered value
    of the wait generator. *)
Definition pause_length (tries : nat) (w : world) : Z :=
  match entropy w with
  | [] => 0
  | d :: _ => Z.max 0 (Z.min (backoff.expo (tries - 1)) d)
  end.

(** The world after the pause that follows the try numbered [tries]. *)
Definition after_pause (tries : nat) (w : world) : world :=
  let s := pause_length tries w in
  emit (Slept s)
    (set_clock (clock w + s)
       (emit (Warned s tries) (set_entropy (tail (entropy w)) w))).

(** A response [get_series] accepts, with the value it then returns:
    status 200 and a body that decodes to a value with a length. *)
Definition usable_series (r : response) : option json :=
  if status_code r =? 200 then
    match decoded r with
    | Some v => match py_len v with inr _ => Some v | inl _ => None end
    | None => None
    end
  else None.

(** What the scan of [get_profile_id] reads of a profile: its name, when
    it is a string, and its id. *)
Definition profile_entry (profile : json) : option (string * json) :=
  match py_getitem profile "name", py_getitem profile "id" with
  | inr (JStr n), inr id => Some (n, id)
  | _, _ => None
  end.

(** A profile that can be read and is named otherwise. *)
Definition other_profile (lower : string -> string) (name : string) (profile : json) : bool :=
  match profile_entry profile with
  | Some (n, _) => negb (String.eqb (lower n) (lower name))
  | None => false
  end.

(** A reply that lists profiles, none of them named [name]. *)
Definition lists_no_profile (lower : string -> string) (name : string) (rp : reply) : Prop :=
  exists r body profiles,
    answer rp = Some r /\ status_code r = 200 /\ decoded r = Some body /\
    py_iter body = inr profiles /\
    forallb (other_profile lower name) profiles = true.

(** A call of one of the methods of the Sonarr client. *)
Inductive sonarr_call : Type :=
| sonarr_validate_api_key
| sonarr_get_series
| sonarr_get_profile_id (profile_name : string)
| sonarr_add_series (series_tvdbid : Z) (series_title series_title_slug : string)
    (profile_id : Z) (root_folder : string) (search_missing : bool).

Definition sonarr_run (lower : string -> string) (self : Sonarr.t) (c : sonarr_call)
    : M unit :=
  match c with
  | sonarr_validate_api_key => _ ← Sonarr.validate_api_key self; ret tt
  | sonarr_get_series => _ ← Sonarr.get_series self; ret tt
  | sonarr_get_profile_id profile_name =>
      _ ← Sonarr.get_profile_id lower self profile_name; ret tt
  | sonarr_add_series series_tvdbid series_title series_title_slug profile_id
      root_folder search_missing =>
      _ ← Sonarr.add_series self series_tvdbid series_title series_title_slug
            profile_id root_folder search_missing; ret tt
  end.

(** Calls made one after the other on one client. *)
Fixpoint sonarr_session (lower : string -> string) (self : Sonarr.t)
    (cs : list sonarr_call) : M unit :=
  match cs with
  | [] => ret tt
  | c :: cs' => sonarr_run lower self c;; sonarr_session lower self cs'
  end.

(** What the decorator itself logs: every event but the requests. *)
Definition backoffs (evs : list event) : list event :=
  List.filter (fun e => match e with Sent _ _ _ => false | _ => true end) evs.

(** A run of a decorated method that made [n] tries, 1 to 4 of them: it
    returns, and a value that the predicate rejects only after 4 tries; it
    has sent the request [rq] [n] times and taken [n] replies; it paused
    [n - 1] times, the pause after try [k] lasting at most [2 ^ (k - 1)]
    seconds, so at most 7 seconds in all; before each pause the handler
    has logged its length and the number of tries made, and the run has
    logged nothing else. *)
Definition retried {A} (predicate : A -> bool) (m : M A) (rq : request) (w : world)
    (n : nat) : Prop :=
  (1 <= n <= 4)%nat /\
  (exists a, result m w = Returned a /\ (predicate a = true -> n = 4%nat)) /\
  requests_of (events_of m w) = replicate n rq /\
  inbox (final m w) = drop n (inbox w) /\
  length (sleeps (events_of m w)) = (n - 1)%nat /\
  (forall k s, sleeps (events_of m w) !! k = Some s -> 0 <= s <= 2 ^ Z.of_nat k) /\
  total (sleeps (events_of m w)) <= 7 /\
  warnings (events_of m w) = zip (sleeps (events_of m w)) (seq 1 (n - 1)) /\
  backoffs (events_of m w)
  = flat_map (fun '(s, tries) => [Warned s tries; Slept s])
      (zip (sleeps (events_of m w)) (seq 1 (n - 1))).

(** The header dictionary a Sonarr client is built with. *)
Definition sonarr_headers (api_key : string) : gmap string string :=
  <["Content-Type" := "application/json"]> (<["X-Api-Key" := api_key]> ∅).


(** The dictionaries are what they were: the headers, the configuration
    and what the configuration store was handed. *)
Definition untouched (w w' : world) : Prop :=
  heap w' = heap w /\ cfg_trakt w' = cfg_trakt w /\ credentials w' = credentials w.


(** The records of a reply that is a page. *)
Definition records_of (rp : reply) : list json :=
  match answer rp ≫= decoded with
  | Some body => match py_iter body with inr items => items | inl _ => [] end
  | None => []
  end.

(** What a try returns when its loop ends with [processed]. *)
Definition unless_empty (processed : list json) : option (list json) :=
  match processed with
  | [] => None
  | _ => Some processed
  end.

(** A reply that ends the loop without an exception and without leaving
    the process: a response with a status other than 200, and other than
    401 where a 401 is fatal, whose page count, if any, reads as a number. *)
Definition refusal (ep : Trakt.endpoint) (rp : reply) : Prop :=
  exists r, answer rp = Some r /\ status_code r <> 200 /\
    (Trakt.authenticated ep = true -> status_code r <> 401) /\
    x_pagination_page_count r <> NotANumber.

(** A reply that makes the loop raise: a response whose page count does
    not read as a number, or one with status 200 and a body that does not
    decode or that cannot be iterated over. *)
Definition unreadable (rp : reply) : Prop :=
  exists r, answer rp = Some r /\
    (x_pagination_page_count r = NotANumber \/
     (status_code r = 200 /\
      match decoded r with
      | Some body => exists e, py_iter body = inl e
      | None => True
      end)).

(** The times at which the requests were sent, in order. *)
Definition sent_times (evs : list event) : list Z :=
  omap (fun e => match e with Sent t _ _ => Some t | _ => None end) evs.

(** Times that are not before [earliest] and at least [gap] apart. *)
Fixpoint spaced (gap earliest : Z) (times : list Z) : Prop :=
  match times with
  | [] => True
  | t :: later => earliest <= t /\ spaced gap (t + gap) later
  end.

(** What [oauth_headers] reads of a token entry of the configuration:
    when it was created, for how long it is valid, and the token. *)
Definition token_fields (info : json) : option (Z * Z * string) :=
  match py_getitem info "created_at", py_getitem info "expires_in",
        py_getitem info "access_token" with
  | inr c, inr e, inr (JStr token) =>
      match py_number c, py_number e with
      | inr created, inr expires => Some (created, expires, token)
      | _, _ => None
      end
  | _, _, _ => None
  end.

(** The world after [headers['Authorization'] = 'Bearer ' + token]. *)
Definition with_bearer (h : ref) (token : string) (w : world) : world :=
  set_heap (<[h := <["Authorization" := "Bearer " +:+ token]> (deref h w)]> (heap w)) w.

(** [cfg['trakt']] once [api_key] and [api_secret] have been popped. *)
Definition users_of (cfg : list (string * json)) : list (string * json) :=
  dict_remove (dict_remove cfg "api_key") "api_secret".

(** Nothing was sent: the inbox, the headers and the configuration store
    are what they were, and the log has grown by no request. *)
Definition silent (w w' : world) : Prop :=
  inbox w' = inbox w /\ heap w' = heap w /\ credentials w' = credentials w /\
  exists evs, log w' = log w ++ evs /\ requests_of evs = [].

(** A request that polls for the token. *)
Definition is_token_poll (rq : request) : bool :=
  match rq_url rq with
  | Absolute u => String.eqb u "https://api.trakt.tv/oauth/device/token"
  | Joined _ _ => false
  end.

(** The statuses of the answers to the token polls, in order. *)
Definition poll_statuses (evs : list event) : list Z :=
  omap (fun e => match e with
                 | Sent _ rq rp =>
                     if is_token_poll rq then status_code <$> answer rp else None
                 | _ => None
                 end) evs.

(** The pauses that follow polls answered with the given statuses, from
    the interval in force: a 426 adds one second to it, any other status
    leaves it alone, and after a 200 there is no pause. *)
Fixpoint pauses (interval : Z) (statuses : list Z) : list Z :=
  match statuses with
  | [] => []
  | status :: later =>
      if status =? 200 then []
      else
        let interval := if status =? 426 then interval + 1 else interval in
        interval :: pauses interval later
  end.

(** What the flow reads of the answer to the device-code request: the
    device code and the polling interval, when the five fields are there
    and the interval is a number that is not negative. *)
Definition device_code_fields (body : json) : option (json * Z) :=
  match py_getitem body "verification_url", py_getitem body "user_code",
        py_getitem body "interval", py_getitem body "device_code",
        py_getitem body "expires_in" with
  | inr _, inr _, inr i, inr d, inr _ =>
      match py_number i with
      | inr n => if n <? 0 then None else Some (d, n)
      | inl _ => None
      end
  | _, _, _, _, _ => None
  end.

(** A token poll that was answered with a token: status 200 and a body
    that holds a string [access_token]. *)
Definition granted (e : event) : Prop :=
  match e with
  | Sent _ rq rp =>
      is_token_poll rq = true /\
      exists r body token,
        answer rp = Some r /\ status_code r = 200 /\ decoded r = Some body /\
        py_getitem body "access_token" = inr (JStr token)
  | _ => False
  end.

(** ** Sample clients and worlds *)

Module Sample.

Definition sonarr : Sonarr.t := Sonarr.Self "http://localhost:8989/" "0123" 1%positive.
Definition trakt : Trakt.t := Trakt.Self "id" "secret" 2%positive.

Definition sonarr_headers : gmap string string :=
  <["Content-Type" := "application/json"]> (<["X-Api-Key" := "0123"]> ∅).
Definition trakt_headers : gmap string string :=
  <["Content-Type" := "application/json"]>
    (<["trakt-api-version" := "2"]> (<["trakt-api-key" := "id"]> ∅)).

(** A world at time 0 with both header dictionaries allocated, the given
    replies waiting, the given random draws and configuration. *)
Definition world_with (replies : list reply) (draws : list Z)
    (cfg : list (string * json)) : world :=
  World 0 replies draws
    (<[1%positive := sonarr_headers]> (<[2%positive := trakt_headers]> ∅))
    cfg [] [].

(** A reply that arrives at once with the given status, pagination header,
    text and decoded body. *)
Definition respond (status : Z) (pages : page_count) (text : string)
    (body : option json) : reply :=
  Reply 0 (Some (Response status pages text body)).

(** A page of records. *)
Definition page (pages : page_count) (records : list json) : reply :=
  respond 200 pages "" (Some (JList records)).

Definition show (title : string) : json := JDict [("title", JStr title)].

(** What the device-code and token endpoints answer. *)
Definition device_code_response : json :=
  JDict [("device_code", JStr "d3v1c3"); ("user_code", JStr "5055CC52");
         ("verification_url", JStr "https://trakt.tv/activate");
         ("expires_in", JInt 600); ("interval", JInt 5)].

Definition access_token_response : json :=
  JDict [("access_token", JStr "t0k3n"); ("token_type", JStr "bearer");
         ("expires_in", JInt 7776000); ("refresh_token", JStr "r3fr3sh");
         ("scope", JStr "public"); ("created_at", JInt 1487889741)].

(** A device authorization that is granted at the third poll: 429, 426,
    then 200, and the answer of [users/me]. *)
Definition granted_at_third_poll : world :=
  world_with
    [respond 200 NoHeader "" (Some device_code_response);
     respond 429 NoHeader "" None;
     respond 426 NoHeader "" None;
     respond 200 NoHeader "" (Some access_token_response);
     respond 200 NoHeader "" (Some (JDict [("username", JStr "alice")]))]
    [] [].

(** [str.lower] on ASCII letters, for the examples. *)
Definition lower_ascii (c : Ascii.ascii) : Ascii.ascii :=
  let n := Ascii.nat_of_ascii c in
  if ((65 <=? n) && (n <=? 90))%nat then Ascii.ascii_of_nat (n + 32) else c.

Fixpoint ascii_lower (s : string) : string :=
  match s with
  | EmptyString => EmptyString
  | String c s' => String (lower_ascii c) (ascii_lower s')
  end.

(** A quality profile as Sonarr lists it. *)
Definition profile (name : string) (id : Z) : json :=
  JDict [("name", JStr name); ("cutoff", JDict []); ("id", JInt id)].

End Sample.

(** * Properties *)

(** ** The monad *)

Lemma bind_run {A B} (m : M A) (k : A -> M B) (w : world) :
  bind m k w =
  match m w with
  | (Returned a, w') => k a w'
  | (Raised e, w') => (Raised e, w')
  | (SystemExit, w') => (SystemExit, w')
  | (Diverged, w') => (Diverged, w')
  end.
Proof. reflexivity. Qed.

Lemma bind_returned {A B} (m : M A) (k : A -> M B) w a w' :
  m w = (Returned a, w') -> bind m k w = k a w'.
Proof. intros E. rewrite bind_run, E. reflexivity. Qed.

Lemma bind_lift_inr {A B} (r : exn + A) (k : A -> M B) w a :
  r = inr a -> bind (lift r) k w = k a w.
Proof. intros ->. reflexivity. Qed.

Lemma bind_lift_inl {A B} (r : exn + A) (k : A -> M B) w e :
  r = inl e -> bind (lift r) k w = (Raised e, w).
Proof. intros ->. reflexivity. Qed.

Lemma try_except_run {A} (m : M A) (h : exn -> M A) w :
  try_except m h w =
  match m w with
  | (Raised e, w') => h e w'
  | r => r
  end.
Proof. reflexivity. Qed.

(** Case analysis on the first computation of a [bind] or [try_except]. *)
Ltac run_head :=
  match goal with
  | |- context [bind ?m ?k ?w] =>
      rewrite (bind_run m k w);
      let E := fresh "E" in
      destruct (m w) as [[?|?| |] ?] eqn:E
  end.

(** ** The network *)

Lemma requests_send_spec m u ps h js w :
  requests_send m u ps h js w =
  (match next_response w with
   | Some r => Returned r
   | None => Raised ConnectionError
   end,
   emit (Sent (clock w) (Request m u ps (deref h w) js) (fst (next_reply w)))
     (set_clock (clock w + Z.max 0 (latency (fst (next_reply w))))
        (set_inbox (snd (next_reply w)) w))).
Proof.
  unfold requests_send, next_response.
  destruct (answer (fst (next_reply w))); reflexivity.
Qed.

Lemma requests_send_returned m u ps h js w r w' :
  requests_send m u ps h js w = (Returned r, w') ->
  exists lat rest, inbox w = Reply lat (Some r) :: rest /\ inbox w' = rest /\
    log w' = log w ++ [Sent (clock w) (Request m u ps (deref h w) js) (Reply lat (Some r))] /\
    heap w' = heap w /\ cfg_trakt w' = cfg_trakt w /\
    credentials w' = credentials w /\ entropy w' = entropy w /\
    clock w' = clock w + Z.max 0 lat.
Proof.
  rewrite requests_send_spec. unfold next_response, next_reply.
  destruct (inbox w) as [|[lat [r0|]] rest] eqn:Ei; simpl; intros H; inversion H; subst.
  exists lat, rest. simpl. auto 10.
Qed.

Lemma requests_send_on_response m u ps h js w lat r rest :
  inbox w = Reply lat (Some r) :: rest ->
  requests_send m u ps h js w =
  (Returned r,
   emit (Sent (clock w) (Request m u ps (deref h w) js) (Reply lat (Some r)))
     (set_clock (clock w + Z.max 0 lat) (set_inbox rest w))).
Proof.
  intros Ei. rewrite requests_send_spec. unfold next_response, next_reply.
  rewrite Ei. reflexivity.
Qed.

Lemma requests_send_never_exits m u ps h js w :
  result (requests_send m u ps h js) w <> SystemExit /\
  result (requests_send m u ps h js) w <> Diverged.
Proof.
  unfold result. rewrite requests_send_spec. simpl.
  destruct (next_response w); split; discriminate.
Qed.

(** Unfold the monad's operations and reduce what they expose. *)
Ltac mred :=
  repeat (progress (unfold result, final, bind, try_except, lift, ret, raise, exit,
                    diverge, response_json; cbn beta iota zeta)).

(** ** The retry decorator *)

Lemma random_uniform_spec a b w :
  a <= b ->
  exists s w', random_uniform a b w = (Returned s, w') /\ a <= s <= b /\
    clock w' = clock w /\ inbox w' = inbox w /\ heap w' = heap w /\
    cfg_trakt w' = cfg_trakt w /\ credentials w' = credentials w /\ log w' = log w.
Proof.
  intros Hab. unfold random_uniform.
  destruct (entropy w) as [|d rest].
  - exists a, w. repeat split; auto; lia.
  - exists (Z.max a (Z.min b d)), (set_entropy rest w). repeat split; auto; lia.
Qed.

Lemma expo_nonneg n : 0 <= backoff.expo n.
Proof. unfold backoff.expo. lia. Qed.

Lemma time_sleep_spec d w :
  0 <= d ->
  time_sleep d w = (Returned tt, emit (Slept d) (set_clock (clock w + d) w)).
Proof.
  intros Hd. unfold time_sleep.
  destruct (d <? 0) eqn:E; [apply Z.ltb_lt in E; lia | reflexivity].
Qed.

(** One backoff between two tries: draw the wait, warn, sleep.  It always
    returns, and touches nothing but the clock, the entropy and the log. *)
Lemma backoff_pause (handler : backoff.details -> M unit) n t w :
  handler = Sonarr.backoff_handler \/ handler = Trakt.backoff_handler ->
  exists s w3,
    bind (backoff.full_jitter (backoff.expo n))
      (fun seconds =>
         bind (handler (backoff.Details t (backoff.expo n) seconds))
           (fun _ => bind (time_sleep seconds) (fun _ => ret seconds))) w
    = (Returned s, w3) /\
    0 <= s <= backoff.expo n /\
    inbox w3 = inbox w /\ heap w3 = heap w /\ cfg_trakt w3 = cfg_trakt w /\
    credentials w3 = credentials w.
Proof.
  intros Hh.
  destruct (random_uniform_spec 0 (backoff.expo n) w (expo_nonneg n))
    as (s & w1 & E1 & Hs & Hc & Hi & Hhp & Hcf & Hcr & Hl).
  exists s. unfold backoff.full_jitter. rewrite (bind_returned _ _ _ _ _ E1).
  destruct Hh as [-> | ->]; unfold Sonarr.backoff_handler, Trakt.backoff_handler;
    rewrite bind_run; cbv beta iota; rewrite bind_run, time_sleep_spec by lia;
    eexists; (split; [reflexivity|]); simpl; auto.
Qed.

Section retry_facts.
Context {A : Type}.
Variable call : M (option A).
Variable handler : backoff.details -> M unit.
Hypothesis handler_is : handler = Sonarr.backoff_handler \/ handler = Trakt.backoff_handler.

(** A try that gives a value ends the loop at once. *)
Lemma retry_some left t seen w a w' :
  call w = (Returned (Some a), w') ->
  backoff.retry backoff.expo is_None handler call left t seen w
  = (Returned (Some a, S t, seen), w').
Proof.
  intros E. destruct left; simpl; rewrite (bind_returned _ _ _ _ _ E); reflexivity.
Qed.

(** A try that leaves the process does so through the decorator. *)
Lemma retry_exit left t seen w w' :
  call w = (SystemExit, w') ->
  backoff.retry backoff.expo is_None handler call left t seen w = (SystemExit, w').
Proof.
  intros E. destruct left; simpl; rewrite bind_run, E; reflexivity.
Qed.

(** A try that gives [None] with tries left is followed by a pause and
    another try. *)
Lemma retry_none left t seen w w1 :
  call w = (Returned None, w1) ->
  exists s w3,
    0 <= s <= backoff.expo t /\
    inbox w3 = inbox w1 /\ heap w3 = heap w1 /\ cfg_trakt w3 = cfg_trakt w1 /\
    credentials w3 = credentials w1 /\
    backoff.retry backoff.expo is_None handler call (S left) t seen w
    = backoff.retry backoff.expo is_None handler call left (S t)
        (seen ++ [backoff.Details (S t) (backoff.expo t) s]) w3.
Proof.
  intros E.
  destruct (backoff_pause handler t (S t) w1 handler_is)
    as (s & w3 & E3 & Hs & Hi & Hh & Hc & Hcr).
  exists s, w3. repeat (split; [assumption|]).
  simpl. rewrite (bind_returned _ _ _ _ _ E). simpl.
  replace (t - 0)%nat with t by lia.
  revert E3. rewrite !bind_run.
  destruct (backoff.full_jitter (backoff.expo t) w1) as [[x| | |] wa]; try discriminate.
  rewrite !bind_run.
  destruct (handler _ wa) as [[[]| | |] wb]; try discriminate.
  rewrite !bind_run.
  destruct (time_sleep x wb) as [[[]| | |] wc]; try discriminate.
  intros H; inversion H; subst. reflexivity.
Qed.

Lemma retry_none_last t seen w w1 :
  call w = (Returned None, w1) ->
  backoff.retry backoff.expo is_None handler call 0 t seen w
  = (Returned (None, S t, seen), w1).
Proof. intros E. simpl. rewrite (bind_returned _ _ _ _ _ E). reflexivity. Qed.

(** When every try returns, so does the decorated call, after at least
    one try more than were counted before. *)
Lemma retry_returns left :
  (forall w, exists r w', call w = (Returned r, w')) ->
  forall t seen w,
  exists r n ds w',
    backoff.retry backoff.expo is_None handler call left t seen w
    = (Returned (r, n, ds), w') /\ (t < n)%nat /\
    (r = None -> n = (t + S left)%nat).
Proof.
  intros Hcall. induction left as [|left IH]; intros t seen w.
  - destruct (Hcall w) as ([a|] & w1 & E).
    + rewrite (retry_some _ _ _ _ _ _ E). eexists _, _, _, _. split; [reflexivity|].
      split; [lia | discriminate].
    + rewrite (retry_none_last _ _ _ _ E). eexists _, _, _, _. split; [reflexivity|].
      split; lia.
  - destruct (Hcall w) as ([a|] & w1 & E).
    + rewrite (retry_some _ _ _ _ _ _ E). eexists _, _, _, _. split; [reflexivity|].
      split; [lia | discriminate].
    + destruct (retry_none left t seen w w1 E) as (s & w3 & _ & _ & _ & _ & _ & ->).
      destruct (IH (S t) (seen ++ [backoff.Details (S t) (backoff.expo t) s]) w3)
        as (r & n & ds & w' & -> & Hn & Hr).
      eexists _, _, _, _. split; [reflexivity|]. split; [lia|].
      intros Hnone. rewrite (Hr Hnone). lia.
Qed.
End retry_facts.

(** C4, as stated, fails on the waits: with the draws 0, 1 and 3 the three
    pauses of an exhausted [get_series] last 0, 1 and 3 seconds, not 1, 2
    and 4. *)
Lemma retry_wait_is_jittered :
  result (backoff.on_predicate_run backoff.expo is_None Sonarr.backoff_handler
            (Sonarr.get_series_try Sample.sonarr) 4)
         (Sample.world_with [] [0; 1; 3] [])
  = Returned (None, 4%nat,
              [backoff.Details 1 1 0; backoff.Details 2 2 1; backoff.Details 3 4 3]) /\
  List.filter (fun e => match e with Slept _ => true | _ => false end)
    (log (final (Sonarr.get_series Sample.sonarr) (Sample.world_with [] [0; 1; 3] [])))
  = [Slept 0; Slept 1; Slept 3].
Proof. split; vm_compute; reflexivity. Qed.

(** ** Validation probes *)

Lemma sonarr_validate_api_key_spec self w :
  exists b, result (Sonarr.validate_api_key self) w = Returned b /\
    (b = true <->
     exists r body, next_response w = Some r /\ status_code r = 200 /\
       decoded r = Some body /\ py_contains "version" body = inr true).
Proof.
  unfold Sonarr.validate_api_key. mred.
  rewrite requests_send_spec.
  destruct (next_response w) as [r|] eqn:En.
  2:{ exists false. split; [reflexivity|]. split; [discriminate|].
      intros (r & body & H & _). discriminate. }
  destruct (status_code r =? 200) eqn:Es.
  2:{ exists false. split; [reflexivity|]. split; [discriminate|].
      intros (r' & body & H & Hs & _). inversion H; subst. apply Z.eqb_neq in Es. lia. }
  apply Z.eqb_eq in Es. 
  destruct (decoded r) as [body|] eqn:Ed; mred.
  2:{ exists false. split; [reflexivity|]. split; [discriminate|].
      intros (r' & body & H & _ & Hd & _). inversion H; subst. congruence. }
  destruct (py_contains "version" body) as [e|[|]] eqn:Ec.
  - exists false. split; [reflexivity|]. split; [discriminate|].
    intros (r' & body' & H & _ & Hd & Hc). inversion H; subst.
    rewrite Ed in Hd. inversion Hd; subst. congruence.
  - exists true. split; [reflexivity|]. split; [|reflexivity].
    intros _. exists r, body. auto.
  - exists false. split; [reflexivity|]. split; [discriminate|].
    intros (r' & body' & H & _ & Hd & Hc). inversion H; subst.
    rewrite Ed in Hd. inversion Hd; subst. congruence.
Qed.

Lemma trakt_validate_api_key_spec self w :
  exists b, result (Trakt.validate_api_key self) w = Returned b /\
    (b = true <-> exists r, next_response w = Some r /\ status_code r = 200).
Proof.
  unfold Trakt.validate_api_key. mred. rewrite requests_send_spec.
  destruct (next_response w) as [r|] eqn:En.
  2:{ exists false. split; [reflexivity|]. split; [discriminate|].
      intros (r & H & _). discriminate. }
  destruct (status_code r =? 200) eqn:Es.
  - exists true. split; [reflexivity|]. split; [|reflexivity].
    intros _. exists r. split; [reflexivity|]. apply Z.eqb_eq. exact Es.
  - exists false. split; [reflexivity|]. split; [discriminate|].
    intros (r' & H & Hs). inversion H; subst. apply Z.eqb_neq in Es. lia.
Qed.

(** C9, as amended.  Both [validate_api_key] methods return a boolean in
    every world: they never raise, never leave the process.  Sonarr's
    returns [True] exactly when the call is answered with status 200 and a
    body that decodes to a value containing ["version"]; Trakt's returns
    [True] exactly when the call is answered with status 200, whatever the
    body. *)
Theorem validate_api_key_boolean (w : world) :
  (forall self, exists b,
      result (Sonarr.validate_api_key self) w = Returned b /\
      (b = true <->
       exists r body, next_response w = Some r /\ status_code r = 200 /\
         decoded r = Some body /\ py_contains "version" body = inr true)) /\
  (forall self, exists b,
      result (Trakt.validate_api_key self) w = Returned b /\
      (b = true <-> exists r, next_response w = Some r /\ status_code r = 200)).
Proof.
  split; intros self.
  - apply sonarr_validate_api_key_spec.
  - apply trakt_validate_api_key_spec.
Qed.

(** C9, as stated, fails for Trakt: there is no field whose presence in
    the body decides the answer together with the status, since a 200 with
    a body that does not even decode is accepted. *)
Lemma trakt_validate_api_key_ignores_body :
  ~ exists field : string,
      forall self w,
        result (Trakt.validate_api_key self) w = Returned true <->
        exists r body, next_response w = Some r /\ status_code r = 200 /\
          decoded r = Some body /\ py_contains field body = inr true.
Proof.
  intros (field & H).
  pose (w := Sample.world_with [Sample.respond 200 NoHeader "" None] [] []).
  destruct (H Sample.trakt w) as [H1 _].
  destruct (H1 eq_refl) as (r & body & Hn & _ & Hd & _).
  vm_compute in Hn. inversion Hn; subst. discriminate.
Qed.

(** ** [add_series] *)

Section add_series.
Variables (self : Sonarr.t) (series_tvdbid : Z) (series_title series_title_slug : string)
  (profile_id : Z) (root_folder : string) (search_missing : bool).

Let try : M (option bool) :=
  Sonarr.add_series_try self series_tvdbid series_title series_title_slug
    profile_id root_folder search_missing.

(** What one try returns, by the reply it gets. *)
Lemma add_series_try_cases w :
  match next_response w with
  | None => result try w = Returned None
  | Some r =>
      if status_code r =? 201 then
        match decoded r with
        | None => result try w = Returned None
        | Some body =>
            match py_getitem body "tvdbId" with
            | inl _ => result try w = Returned None
            | inr v => result try w = Returned (Some (py_eq v (JInt series_tvdbid)))
            end
        end
      else if (status_code r =? 401) && is_substring "errorMessage" (text r) then
        match decoded r with
        | None => result try w = Returned None
        | Some body =>
            match py_getitem body "errorMessage" with
            | inl _ => result try w = Returned None
            | inr _ => result try w = Returned (Some false)
            end
        end
      else result try w = Returned (Some false)
  end.
Proof.
  unfold try, Sonarr.add_series_try. mred. rewrite requests_send_spec.
  destruct (next_response w) as [r|] eqn:En; [|reflexivity].
  destruct (status_code r =? 201) eqn:E201; mred.
  - assert (E401 : (status_code r =? 401) = false) by lia.
    destruct (decoded r) as [body|]; mred; [|reflexivity].
    destruct (py_getitem body "tvdbId") as [e|v]; mred; [reflexivity|].
    destruct (py_eq v (JInt series_tvdbid)); mred; [reflexivity|].
    rewrite E401. reflexivity.
  - destruct ((status_code r =? 401) && is_substring "errorMessage" (text r)); mred;
      [|reflexivity].
    destruct (decoded r) as [body|]; mred; [|reflexivity].
    destruct (py_getitem body "errorMessage") as [e|v]; reflexivity.
Qed.

Lemma add_series_try_returns w : exists r w', try w = (Returned r, w').
Proof.
  pose proof (add_series_try_cases w) as H. unfold result in H.
  destruct (try w) as [o w'] eqn:E. simpl in H.
  assert (exists r, o = Returned r) as [r ->]; [|eauto].
  repeat match type of H with
         | match ?x with _ => _ end => destruct x
         | if ?x then _ else _ => destruct x
         end; eauto.
Qed.

End add_series.

(** C5, as stated, fails: a 500 is answered with [False] after a single
    try; it is neither turned into [None] nor retried. *)
Lemma add_series_unexpected_status_not_retried :
  let w := Sample.world_with
             [Sample.respond 500 NoHeader "Internal Server Error" None] [] [] in
  result (Sonarr.add_series_run Sample.sonarr 121361 "Game of Thrones"
            "game-of-thrones" 1 "/tv" false) w
  = Returned (Some false, 1%nat, []) /\
  result (Sonarr.add_series Sample.sonarr 121361 "Game of Thrones"
            "game-of-thrones" 1 "/tv" false) w
  <> Returned None.
Proof. split; [vm_compute; reflexivity | vm_compute; discriminate]. Qed.


(** ** Steps of a run *)

Lemma bearer_heap h w w' : heap w' = heap w -> bearer h w -> bearer h w'.
Proof. unfold bearer, deref. intros ->. auto. Qed.

Lemma extends_refl h w : extends h w w.
Proof.
  split.
  - exists []. rewrite app_nil_r. split; [reflexivity | constructor].
  - exists 0%nat. reflexivity.
  - lia.
  - auto.
Qed.

Lemma extends_trans h w1 w2 w3 :
  extends h w1 w2 -> extends h w2 w3 -> extends h w1 w3.
Proof.
  intros [(e1 & L1 & B1) (k1 & I1) C1 A1] [(e2 & L2 & B2) (k2 & I2) C2 A2].
  split.
  - exists (e1 ++ e2). rewrite L2, L1, app_assoc. split; [reflexivity|].
    intros Hb. apply Forall_app. auto.
  - exists (k1 + k2)%nat. rewrite I2, I1. rewrite drop_drop. reflexivity.
  - lia.
  - auto.
Qed.

(** A step that leaves the log, the inbox and the heap alone. *)
Lemma extends_quiet h w w' :
  log w' = log w -> inbox w' = inbox w -> heap w' = heap w -> clock w <= clock w' ->
  extends h w w'.
Proof.
  intros L I H C. split.
  - exists []. rewrite app_nil_r. split; [assumption | constructor].
  - exists 0%nat. assumption.
  - assumption.
  - apply bearer_heap. assumption.
Qed.

Lemma extends_inbox_length h w w' :
  extends h w w' -> (length (inbox w') <= length (inbox w))%nat.
Proof. intros [_ (k & ->) _ _]. rewrite length_drop. lia. Qed.

Lemma extends_log h w w' :
  extends h w w' -> log w' = log w ++ drop (length (log w)) (log w').
Proof.
  intros [(evs & -> & _) _ _ _]. rewrite drop_app_length. reflexivity.
Qed.

Section steps_rules.
Variable F : frame.

Lemma steps_ret {A} (a : A) : steps F (ret a).
Proof. intros w. apply rel_refl. Qed.

Lemma steps_raise {A} (e : exn) : steps F (@raise A e).
Proof. intros w. apply rel_refl. Qed.

Lemma steps_exit {A} : steps F (@exit A).
Proof. intros w. apply rel_refl. Qed.

Lemma steps_diverge {A} : steps F (@diverge A).
Proof. intros w. apply rel_refl. Qed.

Lemma steps_lift {A} (r : exn + A) : steps F (lift r).
Proof. destruct r; simpl; [apply steps_raise | apply steps_ret]. Qed.

Lemma steps_response_json r : steps F (response_json r).
Proof. unfold response_json. destruct (decoded r); [apply steps_ret | apply steps_raise]. Qed.

Lemma steps_bind {A B} (m : M A) (k : A -> M B) :
  steps F m -> (forall a, steps F (k a)) -> steps F (bind m k).
Proof.
  intros Hm Hk w. unfold final. rewrite bind_run.
  specialize (Hm w). unfold final in Hm.
  destruct (m w) as [[a|e| |] w1]; simpl in *; try assumption.
  eapply rel_trans; [exact Hm | apply Hk].
Qed.

Lemma steps_bind_lift {A B} (r : exn + A) (k : A -> M B) :
  (forall a, r = inr a -> steps F (k a)) -> steps F (bind (lift r) k).
Proof.
  intros Hk. destruct r as [e|a]; [apply steps_raise|].
  intros w. apply (Hk a eq_refl).
Qed.

Lemma steps_bind_val {A B} (m : M A) (k : A -> M B) (Q : A -> Prop) :
  steps F m -> (forall w a w', m w = (Returned a, w') -> Q a) ->
  (forall a, Q a -> steps F (k a)) -> steps F (bind m k).
Proof.
  intros Hm HQ Hk w. unfold final. rewrite bind_run.
  specialize (Hm w). unfold final in Hm. specialize (HQ w).
  destruct (m w) as [[a|e| |] w1]; simpl in *; try assumption.
  eapply rel_trans; [exact Hm | apply Hk; eapply HQ; reflexivity].
Qed.

Lemma steps_try {A} (m : M A) (hd : exn -> M A) :
  steps F m -> (forall e, steps F (hd e)) -> steps F (try_except m hd).
Proof.
  intros Hm Hh w. unfold final. rewrite try_except_run.
  specialize (Hm w). unfold final in Hm.
  destruct (m w) as [[a|e| |] w1]; simpl in *; try assumption.
  eapply rel_trans; [exact Hm | apply Hh].
Qed.
End steps_rules.

Definition extends_frame (h : ref) : frame :=
  Frame (extends h) (extends_refl h) (extends_trans h).

Abbreviation keeps h := (steps (extends_frame h)).

Lemma keeps_time_time h : keeps h time_time.
Proof. intros w. apply extends_refl. Qed.

Lemma keeps_time_sleep h d : keeps h (time_sleep d).
Proof.
  intros w. unfold final, time_sleep. destruct (d <? 0) eqn:E; simpl.
  - apply extends_refl.
  - split; simpl.
    + exists [Slept d]. split; [reflexivity|]. intros _. repeat constructor.
    + exists 0%nat. reflexivity.
    + lia.
    + apply bearer_heap. reflexivity.
Qed.

Lemma keeps_random_uniform h a b : keeps h (random_uniform a b).
Proof.
  intros w. unfold final, random_uniform. destruct (entropy w); simpl.
  - apply extends_refl.
  - apply extends_quiet; simpl; auto; lia.
Qed.

Lemma keeps_requests_send h m u ps js : keeps h (requests_send m u ps h js).
Proof.
  intros w. unfold final. rewrite requests_send_spec. simpl. split; simpl.
  - eexists. split; [reflexivity|]. intros Hb. constructor; [|constructor].
    simpl. exact Hb.
  - unfold next_reply. destruct (inbox w) as [|r rest]; simpl.
    + exists 0%nat. reflexivity.
    + exists 1%nat. reflexivity.
  - lia.
  - apply bearer_heap. reflexivity.
Qed.

(** Writing a bearer token into the dictionary keeps one there. *)
Lemma keeps_set_bearer h token : keeps h (dict_setitem h "Authorization" ("Bearer " +:+ token)).
Proof.
  intros w. unfold final, dict_setitem. simpl. split; simpl.
  - exists []. rewrite app_nil_r. split; [reflexivity | constructor].
  - exists 0%nat. reflexivity.
  - lia.
  - intros _. exists token. unfold deref at 1. simpl.
    rewrite lookup_insert_eq. simpl. apply lookup_insert_eq.
Qed.

Lemma set_bearer_spec h token w :
  bearer h (final (dict_setitem h "Authorization" ("Bearer " +:+ token)) w) /\
  deref h (final (dict_setitem h "Authorization" ("Bearer " +:+ token)) w)
    !! "Authorization" = Some ("Bearer " +:+ token).
Proof.
  assert (H : deref h (final (dict_setitem h "Authorization" ("Bearer " +:+ token)) w)
              !! "Authorization" = Some ("Bearer " +:+ token)).
  { unfold final, dict_setitem, deref. simpl. rewrite lookup_insert_eq. simpl.
    apply lookup_insert_eq. }
  split; [exists token|]; exact H.
Qed.

Lemma py_concat_inr s v b : py_concat s v = inr b -> exists t, v = JStr t /\ b = s +:+ t.
Proof. destruct v; simpl; intros H; inversion H; eauto. Qed.

Lemma keeps_handler h d : keeps h (Trakt.backoff_handler d).
Proof.
  intros w. unfold final, Trakt.backoff_handler. simpl. split; simpl.
  - eexists. split; [reflexivity|]. intros _. repeat constructor.
  - exists 0%nat. reflexivity.
  - lia.
  - apply bearer_heap. reflexivity.
Qed.

Lemma keeps_merge_settings h o c : keeps h (Trakt.merge_settings o c).
Proof. intros w. apply extends_quiet; simpl; auto; lia. Qed.

Lemma keeps_resolve_user h u : keeps h (Trakt.resolve_user u).
Proof.
  intros w. unfold final, Trakt.resolve_user.
  destruct u as [u|]; [destruct (dict_has (cfg_trakt w) u)|]; simpl;
    try apply extends_refl;
    match goal with
    | |- context [match ?d with [] => _ | _ :: _ => _ end] => destruct d as [|[k v] d']
    end; simpl; apply extends_quiet; simpl; auto; lia.
Qed.

Lemma keeps_cfg_trakt_getitem h u : keeps h (Trakt.cfg_trakt_getitem u).
Proof.
  intros w. unfold final, Trakt.cfg_trakt_getitem.
  destruct (dict_get (cfg_trakt w) u); apply extends_refl.
Qed.

Create HintDb keeps.
#[export] Hint Resolve steps_ret steps_raise steps_exit steps_diverge steps_lift
  keeps_time_time keeps_time_sleep keeps_random_uniform keeps_requests_send
  steps_response_json keeps_handler keeps_merge_settings keeps_resolve_user
  keeps_cfg_trakt_getitem : keeps.

(** Break a goal [keeps h m] along the structure of [m]. *)
Ltac keeps_step :=
  match goal with
  | |- steps _ (bind (lift _) _) => apply steps_bind_lift; intros
  | |- steps _ (bind _ _) => apply steps_bind; [|intros]
  | |- steps _ (try_except _ _) => apply steps_try; [|intros]
  | |- steps _ (if ?b then _ else _) => destruct b
  | |- steps _ (match ?x with _ => _ end) => destruct x
  | |- steps _ (let '(_, _) := ?x in _) => destruct x
  | |- steps _ _ => solve [eauto with keeps]
  end.

Lemma keeps_process_token_request self req :
  keeps (Trakt.headers self) (Trakt.__oauth_process_token_request self req).
Proof.
  unfold Trakt.__oauth_process_token_request.
  destruct (status_code req =? 200); [|apply steps_ret].
  do 3 keeps_step.
  match goal with H : py_concat _ _ = inr _ |- _ =>
    apply py_concat_inr in H; destruct H as (t & -> & ->) end.
  apply steps_bind; [apply keeps_set_bearer|]. intros _.
  repeat keeps_step.
Qed.

Lemma keeps_poll_loop self device_code start expire fuel :
  forall interval,
    keeps (Trakt.headers self)
      (Trakt.poll_loop fuel self device_code start interval expire).
Proof.
  induction fuel as [|fuel IH]; intros interval; simpl.
  - repeat keeps_step.
  - apply steps_bind; [apply keeps_time_time|]. intros now.
    destruct (now - start <? expire); [|apply steps_ret].
    apply steps_bind; [apply keeps_requests_send|]. intros req.
    apply steps_bind; [apply keeps_process_token_request|]. intros [success status].
    destruct success; [apply steps_ret|].
    apply steps_bind; [apply keeps_time_sleep|]. intros _. apply IH.
Qed.

Lemma keeps_poll self device_code interval expire :
  keeps (Trakt.headers self)
    (Trakt.__oauth_poll_for_access_token self device_code interval expire).
Proof.
  unfold Trakt.__oauth_poll_for_access_token.
  do 4 keeps_step. intros w. apply keeps_poll_loop.
Qed.

Lemma keeps_refresh self token :
  keeps (Trakt.headers self) (Trakt.__oauth_refresh_access_token self token).
Proof.
  unfold Trakt.__oauth_refresh_access_token.
  apply steps_bind; [apply keeps_requests_send|]. intros req.
  apply steps_bind; [apply keeps_process_token_request|]. intros [success status].
  apply steps_ret.
Qed.

Lemma keeps_request_device_code self :
  keeps (Trakt.headers self) (Trakt.__oauth_request_device_code self).
Proof. unfold Trakt.__oauth_request_device_code. repeat keeps_step. Qed.

Lemma keeps_oauth_authentication self :
  keeps (Trakt.headers self) (Trakt.oauth_authentication self).
Proof.
  unfold Trakt.oauth_authentication.
  apply steps_try; [|intros; apply steps_ret].
  apply steps_bind; [apply keeps_request_device_code|]. intros r.
  do 3 keeps_step.
  apply steps_bind; [apply keeps_poll|]. intros [|]; apply steps_ret.
Qed.

Lemma keeps_validate_api_key self :
  keeps (Trakt.headers self) (Trakt.validate_api_key self).
Proof. unfold Trakt.validate_api_key. repeat keeps_step. Qed.

Lemma bind_returned_inv {A B} (m : M A) (k : A -> M B) w b w' :
  bind m k w = (Returned b, w') ->
  exists a w1, m w = (Returned a, w1) /\ k a w1 = (Returned b, w').
Proof.
  rewrite bind_run. destruct (m w) as [[a|e| |] w1]; try discriminate. eauto.
Qed.

(** Take the first computation of a returning [bind] apart. *)
Ltac bind_inv H :=
  let a := fresh "a" in
  let w := fresh "w" in
  let E := fresh "E" in
  apply bind_returned_inv in H; destruct H as (a & w & E & H).

Lemma keeps_oauth_headers self user :
  keeps (Trakt.headers self) (Trakt.oauth_headers self user).
Proof.
  unfold Trakt.oauth_headers.
  apply steps_bind; [apply keeps_resolve_user|]. intros u.
  apply steps_bind; [apply keeps_cfg_trakt_getitem|]. intros ti.
  apply steps_bind; [apply steps_lift|]. intros c.
  apply steps_bind; [apply steps_lift|]. intros e.
  apply steps_bind; [apply steps_lift|]. intros c'.
  apply steps_bind; [apply steps_lift|]. intros e'.
  apply steps_bind; [apply keeps_time_time|]. intros now.
  apply steps_bind.
  { destruct (_ <? _); [|apply steps_ret].
    apply steps_bind; [apply steps_lift|]. intros rt.
    apply steps_bind; [apply keeps_refresh|]. intros _. apply steps_ret. }
  intros _. apply steps_bind; [apply steps_lift|]. intros tok.
  apply steps_bind_lift. intros b Hb.
  apply py_concat_inr in Hb. destruct Hb as (t & -> & ->).
  apply steps_bind; [apply keeps_set_bearer|]. intros _. apply steps_ret.
Qed.

(** [oauth_headers] hands out [self.headers] itself. *)
Lemma oauth_headers_alias self user w h w' :
  Trakt.oauth_headers self user w = (Returned h, w') -> h = Trakt.headers self.
Proof.
  unfold Trakt.oauth_headers. intros H.
  do 11 bind_inv H. inversion H. reflexivity.
Qed.

(** The page loop, a try and the decorated call make steps of any relation
    of which sleeping, drawing, warning, sending with [self.headers] and
    getting the headers are steps. *)
Section fetch_steps.
Variable F : frame.
Variable self : Trakt.t.
Variables (ep : Trakt.endpoint) (user : option string) (list_id : string)
  (limit : Z).
Hypothesis F_sleep : forall d, steps F (time_sleep d).
Hypothesis F_uniform : forall a b, steps F (random_uniform a b).
Hypothesis F_handler : forall d, steps F (Trakt.backoff_handler d).
Hypothesis F_send :
  forall m u ps js, steps F (requests_send m u ps (Trakt.headers self) js).
Hypothesis F_headers :
  steps F (if Trakt.authenticated ep then Trakt.oauth_headers self user
           else ret (Trakt.headers self)).

Lemma steps_page_loop languages fuel :
  forall page processed,
    steps F (Trakt.page_loop fuel self ep user list_id limit languages page processed).
Proof.
  induction fuel as [|fuel IH]; intros page processed; simpl.
  - apply steps_diverge.
  - apply steps_bind; [apply steps_lift|]. intros u.
    apply steps_bind_val with (Q := fun h => h = Trakt.headers self).
    { exact F_headers. }
    { intros w h w'. destruct (Trakt.authenticated ep).
      - apply oauth_headers_alias.
      - intros H. inversion H. reflexivity. }
    intros h ->.
    apply steps_bind; [apply F_send|]. intros req.
    apply steps_bind; [apply steps_lift|]. intros _.
    destruct (status_code req =? 200).
    + apply steps_bind; [apply steps_response_json|]. intros resp_json.
      apply steps_bind; [apply steps_lift|]. intros shows.
      destruct (x_pagination_page_count req) as [|n|];
        [apply steps_ret | | apply steps_raise].
      destruct (n =? 0); [apply steps_ret|].
      destruct (page >=? n); [apply steps_ret|].
      apply steps_bind; [apply F_sleep|]. intros _. apply IH.
    + destruct (Trakt.authenticated ep && (status_code req =? 401));
        [apply steps_exit | apply steps_ret].
Qed.

Lemma steps_fetch_try languages :
  steps F (Trakt.fetch_try self ep user list_id limit languages).
Proof.
  unfold Trakt.fetch_try.
  apply steps_try; [|intros; apply steps_ret].
  apply steps_bind.
  - intros w. apply steps_page_loop.
  - intros [|x l]; apply steps_ret.
Qed.

Lemma steps_retry {A} (call : M (option A)) left :
  steps F call ->
  forall t seen,
    steps F (backoff.retry backoff.expo is_None Trakt.backoff_handler call left t seen).
Proof.
  intros Hc. induction left as [|left IH]; intros t seen; simpl.
  - apply steps_bind; [exact Hc|]. intros [a|]; apply steps_ret.
  - apply steps_bind; [exact Hc|]. intros [a|]; simpl; [apply steps_ret|].
    apply steps_bind; [apply F_uniform|]. intros s.
    apply steps_bind; [apply F_handler|]. intros _.
    apply steps_bind; [apply F_sleep|]. intros _. apply IH.
Qed.

Lemma steps_fetch_run languages :
  steps F (Trakt.fetch_run self ep user list_id limit languages).
Proof.
  unfold Trakt.fetch_run, backoff.on_predicate_run.
  apply steps_retry, steps_fetch_try.
Qed.

Lemma steps_fetch languages :
  steps F (Trakt.fetch self ep user list_id limit languages).
Proof.
  unfold Trakt.fetch, backoff.on_predicate, backoff.on_predicate_run.
  apply steps_bind; [apply steps_retry, steps_fetch_try|]. intros x. apply steps_ret.
Qed.
End fetch_steps.

Lemma keeps_page_loop self ep user list_id limit languages fuel page processed :
  keeps (Trakt.headers self)
    (Trakt.page_loop fuel self ep user list_id limit languages page processed).
Proof.
  apply steps_page_loop; auto with keeps.
  destruct (Trakt.authenticated ep); [apply keeps_oauth_headers | apply steps_ret].
Qed.

Lemma keeps_retry {A} h (call : M (option A)) left :
  keeps h call ->
  forall t seen,
    keeps h (backoff.retry backoff.expo is_None Trakt.backoff_handler call left t seen).
Proof. intros Hc. apply steps_retry; auto with keeps. Qed.

Lemma keeps_fetch_try self ep user list_id limit languages :
  keeps (Trakt.headers self) (Trakt.fetch_try self ep user list_id limit languages).
Proof.
  apply steps_fetch_try; auto with keeps.
  destruct (Trakt.authenticated ep); [apply keeps_oauth_headers | apply steps_ret].
Qed.

Lemma keeps_fetch self ep user list_id limit languages :
  keeps (Trakt.headers self) (Trakt.fetch self ep user list_id limit languages).
Proof.
  apply steps_fetch; auto with keeps.
  destruct (Trakt.authenticated ep); [apply keeps_oauth_headers | apply steps_ret].
Qed.

Lemma keeps_fetch_run self ep user list_id limit languages :
  keeps (Trakt.headers self) (Trakt.fetch_run self ep user list_id limit languages).
Proof.
  apply steps_fetch_run; auto with keeps.
  destruct (Trakt.authenticated ep); [apply keeps_oauth_headers | apply steps_ret].
Qed.

(** *** A public call leaves the headers alone *)

Lemma same_headers_refl h w : same_headers h w w.
Proof.
  split; [reflexivity|]. exists []. rewrite app_nil_r. split; [reflexivity | constructor].
Qed.

Lemma same_headers_trans h w1 w2 w3 :
  same_headers h w1 w2 -> same_headers h w2 w3 -> same_headers h w1 w3.
Proof.
  intros [H1 (e1 & L1 & S1)] [H2 (e2 & L2 & S2)]. split; [congruence|].
  exists (e1 ++ e2). rewrite L2, L1, app_assoc. split; [reflexivity|].
  apply Forall_app. split; [exact S1|].
  unfold deref in *. rewrite H1 in S2. exact S2.
Qed.

Definition same_headers_frame (h : ref) : frame :=
  Frame (same_headers h) (same_headers_refl h) (same_headers_trans h).

Lemma same_headers_quiet h w w' e :
  heap w' = heap w -> log w' = log w ++ [e] ->
  match e with Sent _ rq _ => rq_headers rq = deref h w | _ => True end ->
  same_headers h w w'.
Proof.
  intros H L S. split; [exact H|]. exists [e]. split; [exact L|].
  constructor; [|constructor]. destruct e; simpl; auto.
Qed.

Lemma public_fetch_same_headers self ep user list_id limit languages :
  Trakt.authenticated ep = false ->
  steps (same_headers_frame (Trakt.headers self))
    (Trakt.fetch self ep user list_id limit languages).
Proof.
  intros Hpub. apply steps_fetch.
  - intros d w. unfold final, time_sleep. destruct (d <? 0); simpl.
    + apply same_headers_refl.
    + eapply same_headers_quiet; [reflexivity | reflexivity | exact I].
  - intros a b w. unfold final, random_uniform. destruct (entropy w); simpl.
    + apply same_headers_refl.
    + split; [reflexivity|]. exists []. simpl. rewrite app_nil_r.
      split; [reflexivity | constructor].
  - intros d w. eapply same_headers_quiet; [reflexivity | reflexivity | exact I].
  - intros m u ps js w. unfold final. rewrite requests_send_spec. simpl.
    eapply same_headers_quiet; [reflexivity | reflexivity | reflexivity].
  - rewrite Hpub. apply steps_ret.
Qed.

(** ** The shared header dictionary *)

Lemma steps_run (F : frame) {A} (m : M A) w r w' :
  steps F m -> m w = (r, w') -> F w w'.
Proof. intros H E. specialize (H w). unfold final in H. rewrite E in H. exact H. Qed.

Lemma extends_events h w w' :
  extends h w w' -> bearer h w ->
  bearer h w' /\ Forall carries_bearer (drop (length (log w)) (log w')).
Proof.
  intros [(evs & L & B) _ _ Hb] H. split; [auto|].
  rewrite L, drop_app_length. auto.
Qed.

Lemma keeps_run_call self c : keeps (Trakt.headers self) (run_call self c).
Proof.
  destruct c; simpl; (apply steps_bind; [|intros; apply steps_ret]).
  - apply keeps_validate_api_key.
  - apply keeps_oauth_authentication.
  - apply keeps_oauth_headers.
  - apply keeps_fetch.
Qed.

Lemma keeps_session self cs : keeps (Trakt.headers self) (session self cs).
Proof.
  induction cs as [|c cs IH]; simpl.
  - apply steps_ret.
  - intros w. unfold final. pose proof (keeps_run_call self c w) as Hc.
    unfold final in Hc. destruct (run_call self c w) as [[[]|e| |] w1]; simpl in *;
      try exact Hc; (eapply extends_trans; [exact Hc | apply IH]).
Qed.

Lemma lift_returned {A} (r : exn + A) w a w' :
  lift r w = (Returned a, w') -> r = inr a /\ w' = w.
Proof. destruct r; simpl; intros H; inversion H; auto. Qed.

Lemma set_bearer_run h token w u w' :
  dict_setitem h "Authorization" ("Bearer " +:+ token) w = (u, w') ->
  deref h w' !! "Authorization" = Some ("Bearer " +:+ token).
Proof.
  intros E. replace w' with (final (dict_setitem h "Authorization" ("Bearer " +:+ token)) w)
    by (unfold final; rewrite E; reflexivity).
  apply set_bearer_spec.
Qed.

(** The headers written by [oauth_headers] when it returns. *)
Lemma oauth_headers_writes self user w h w1 :
  Trakt.oauth_headers self user w = (Returned h, w1) ->
  exists token,
    deref (Trakt.headers self) w1 !! "Authorization" = Some ("Bearer " +:+ token).
Proof.
  unfold Trakt.oauth_headers. intros H.
  do 10 bind_inv H.
  match goal with E : lift (py_concat _ _) _ = _ |- _ =>
    apply lift_returned in E; destruct E as [Ec ->] end.
  apply py_concat_inr in Ec. destruct Ec as (t & _ & ->).
  bind_inv H. inversion H; subst. exists t. eapply set_bearer_run. eassumption.
Qed.

Lemma process_token_request_writes self req w s w' :
  Trakt.__oauth_process_token_request self req w = (Returned (true, s), w') ->
  bearer (Trakt.headers self) w'.
Proof.
  unfold Trakt.__oauth_process_token_request.
  destruct (status_code req =? 200); [|intros H; inversion H].
  intros H. do 3 bind_inv H.
  match goal with E : lift (py_concat _ _) _ = _ |- _ =>
    apply lift_returned in E; destruct E as [Ec ->] end.
  apply py_concat_inr in Ec. destruct Ec as (t & _ & ->).
  bind_inv H.
  match goal with E : dict_setitem _ _ _ _ = (_, ?w') |- _ =>
    assert (Hb : bearer (Trakt.headers self) w')
      by (exists t; eapply set_bearer_run; exact E) end.
  match type of H with ?m _ = _ =>
    assert (Hk : keeps (Trakt.headers self) m) by (repeat keeps_step) end.
  apply (steps_run _ _ _ _ _ Hk) in H. apply (ext_bearer _ _ _ H Hb).
Qed.

Lemma same_headers_events h w w' v :
  same_headers h w w' -> deref h w !! "Authorization" = Some v ->
  Forall (sent_authorization v) (drop (length (log w)) (log w')).
Proof.
  intros [_ (evs & L & S)] Hv. rewrite L, drop_app_length.
  eapply Forall_impl; [exact S|]. intros [t rq rp| |]; simpl; auto.
  intros ->. exact Hv.
Qed.

(** ** A revoked authorization *)

Lemma oauth_traffic_refl w : oauth_traffic w w.
Proof. exists []. rewrite app_nil_r. split; [reflexivity | constructor]. Qed.

Lemma oauth_traffic_trans w1 w2 w3 :
  oauth_traffic w1 w2 -> oauth_traffic w2 w3 -> oauth_traffic w1 w3.
Proof.
  intros (e1 & L1 & S1) (e2 & L2 & S2). exists (e1 ++ e2).
  rewrite L2, L1, app_assoc. split; [reflexivity | apply Forall_app; auto].
Qed.

Definition oauth_traffic_frame : frame :=
  Frame oauth_traffic oauth_traffic_refl oauth_traffic_trans.

Lemma oauth_traffic_silent w w' : log w' = log w -> oauth_traffic w w'.
Proof. intros L. exists []. rewrite app_nil_r. split; [exact L | constructor]. Qed.

Lemma oauth_traffic_send m u ps h js :
  dict_has ps "page" = false ->
  steps oauth_traffic_frame (requests_send m u ps h js).
Proof.
  intros Hp w. unfold final. rewrite requests_send_spec. simpl.
  eexists. split; [reflexivity|]. constructor; [exact Hp | constructor].
Qed.

Lemma oauth_traffic_process_token_request self req :
  steps oauth_traffic_frame (Trakt.__oauth_process_token_request self req).
Proof.
  unfold Trakt.__oauth_process_token_request.
  destruct (status_code req =? 200); [|apply steps_ret].
  apply steps_bind; [apply steps_response_json|]. intros r.
  apply steps_bind; [apply steps_lift|]. intros tok.
  apply steps_bind; [apply steps_lift|]. intros b.
  apply steps_bind; [intros w; apply oauth_traffic_silent; reflexivity|]. intros _.
  apply steps_bind; [apply oauth_traffic_send; reflexivity|]. intros req'.
  apply steps_bind; [apply steps_response_json|]. intros me.
  apply steps_bind; [apply steps_lift|]. intros u.
  apply steps_bind; [destruct (py_hashable u); [apply steps_ret | apply steps_raise]|].
  intros _.
  apply steps_bind; [intros w; apply oauth_traffic_silent; reflexivity|]. intros _.
  apply steps_ret.
Qed.

Lemma oauth_traffic_oauth_headers self user :
  steps oauth_traffic_frame (Trakt.oauth_headers self user).
Proof.
  unfold Trakt.oauth_headers.
  apply steps_bind.
  { intros w. apply oauth_traffic_silent. unfold final, Trakt.resolve_user.
    destruct user as [u|]; [destruct (dict_has (cfg_trakt w) u)|]; simpl;
      try reflexivity;
      match goal with
      | |- context [match ?d with [] => _ | _ :: _ => _ end] => destruct d as [|[k v] d']
      end; reflexivity. }
  intros u.
  apply steps_bind.
  { intros w. apply oauth_traffic_silent. unfold final, Trakt.cfg_trakt_getitem.
    destruct (dict_get (cfg_trakt w) u); reflexivity. }
  intros ti.
  apply steps_bind; [apply steps_lift|]. intros c.
  apply steps_bind; [apply steps_lift|]. intros e.
  apply steps_bind; [apply steps_lift|]. intros c'.
  apply steps_bind; [apply steps_lift|]. intros e'.
  apply steps_bind; [intros w; apply oauth_traffic_refl|]. intros now.
  apply steps_bind.
  { destruct (_ <? _); [|apply steps_ret].
    apply steps_bind; [apply steps_lift|]. intros rt.
    apply steps_bind; [|intros; apply steps_ret].
    unfold Trakt.__oauth_refresh_access_token.
    apply steps_bind; [apply oauth_traffic_send; reflexivity|]. intros req.
    apply steps_bind; [apply oauth_traffic_process_token_request|]. intros [s c0].
    apply steps_ret. }
  intros _. apply steps_bind; [apply steps_lift|]. intros tok.
  apply steps_bind; [apply steps_lift|]. intros b.
  apply steps_bind; [intros w; apply oauth_traffic_silent; reflexivity|]. intros _.
  apply steps_ret.
Qed.

Lemma revoked_is_page_request e : revoked e -> no_page_request e -> False.
Proof.
  destruct e as [t rq [lat [r|]]| |]; simpl; try contradiction.
  intros (Hp & _) Hn. congruence.
Qed.

Lemma oauth_traffic_not_revoked w w' e :
  oauth_traffic w w' -> In e (drop (length (log w)) (log w')) -> ~ revoked e.
Proof.
  intros (evs & L & S) Hin Hr. rewrite L, drop_app_length in Hin.
  rewrite Forall_forall in S. apply list_elem_of_In in Hin.
  exact (revoked_is_page_request e Hr (S e Hin)).
Qed.

(** The events of two steps in a row are those of the first or of the
    second. *)
Lemma events_split h w w1 w2 e :
  extends h w w1 -> extends h w1 w2 ->
  In e (drop (length (log w)) (log w2)) ->
  In e (drop (length (log w)) (log w1)) \/ In e (drop (length (log w1)) (log w2)).
Proof.
  intros [(e1 & L1 & _) _ _ _] [(e2 & L2 & _) _ _ _].
  rewrite L2, L1. rewrite <- app_assoc, !drop_app_length.
  rewrite (app_assoc (log w) e1 e2), drop_app_length. apply in_app_or.
Qed.

Lemma page_loop_revoked self ep user list_id limit languages fuel :
  Trakt.authenticated ep = true ->
  forall page processed w e,
    In e (events_of (Trakt.page_loop fuel self ep user list_id limit languages
                       page processed) w) ->
    revoked e ->
    result (Trakt.page_loop fuel self ep user list_id limit languages page processed) w
    = SystemExit.
Proof.
  intros Hauth. induction fuel as [|fuel IH]; intros page processed w e.
  { unfold events_of, final. simpl. rewrite drop_all. intros []. }
  unfold events_of, result, final. simpl. rewrite Hauth. mred.
  destruct (Trakt.endpoint_url ep user list_id) as [x|u]; simpl.
  { rewrite drop_all. intros []. }
  destruct (Trakt.oauth_headers self user w) as [o1 w1] eqn:E1.
  pose proof (steps_run _ _ _ _ _ (keeps_oauth_headers self user) E1) as X1.
  pose proof (steps_run _ _ _ _ _ (oauth_traffic_oauth_headers self user) E1) as T1.
  simpl in X1, T1.
  destruct o1 as [h| | |]; simpl;
    try (intros Hin Hr; exfalso; exact (oauth_traffic_not_revoked _ _ _ T1 Hin Hr)).
  apply oauth_headers_alias in E1. subst h.
  destruct (requests_send GET (Absolute u) (Trakt.page_payload limit page languages)
              (Trakt.headers self) None w1) as [o2 w2] eqn:E2.
  pose proof (steps_run _ _ _ _ _ (keeps_requests_send (Trakt.headers self) GET
                (Absolute u) (Trakt.page_payload limit page languages) None) E2) as X2.
  simpl in X2.
  assert (Hsent : forall e, In e (drop (length (log w)) (log w2)) -> revoked e ->
            exists req, o2 = Returned req /\ status_code req = 401 /\
              x_pagination_page_count req <> NotANumber).
  { intros e0 Hin Hr.
    destruct (events_split _ _ _ _ _ X1 X2 Hin) as [H|H].
    - exfalso. exact (oauth_traffic_not_revoked _ _ _ T1 H Hr).
    - revert E2. rewrite requests_send_spec. intros E2. inversion E2; subst. simpl in H.
      rewrite drop_app_length in H. destruct H as [<-|[]].
      simpl in Hr. unfold next_response.
      destruct (fst (next_reply w1)) as [lat [r|]]; simpl in *; [|contradiction].
      exists r. tauto. }
  destruct o2 as [req| | |]; simpl;
    try (intros Hin Hr; destruct (Hsent _ Hin Hr) as (? & ? & _); discriminate).
  destruct (Trakt.logged_page_count req) as [x|n0] eqn:El; simpl.
  { intros Hin Hr. destruct (Hsent _ Hin Hr) as (r & Hreq & _ & Hh).
    inversion Hreq; subst. unfold Trakt.logged_page_count in El.
    destruct (x_pagination_page_count r); congruence. }
  destruct (status_code req =? 200) eqn:E200.
  - assert (Hnot : forall e, In e (drop (length (log w)) (log w2)) -> ~ revoked e).
    { intros e0 Hin Hr. destruct (Hsent _ Hin Hr) as (r & Hreq & Hs & _).
      inversion Hreq; subst. lia. }
    destruct (decoded req) as [resp_json|]; simpl;
      [|intros Hin Hr; exfalso; exact (Hnot _ Hin Hr)].
    destruct (py_iter resp_json) as [x|shows]; simpl;
      [intros Hin Hr; exfalso; exact (Hnot _ Hin Hr)|].
    destruct (x_pagination_page_count req) as [|n|]; simpl;
      try (intros Hin Hr; exfalso; exact (Hnot _ Hin Hr)).
    destruct (n =? 0); simpl; [intros Hin Hr; exfalso; exact (Hnot _ Hin Hr)|].
    destruct (page >=? n); simpl; [intros Hin Hr; exfalso; exact (Hnot _ Hin Hr)|].
    set (w3 := emit (Slept 5) (set_clock (clock w2 + 5) w2)).
    assert (X3 : extends (Trakt.headers self) w2 w3).
    { pose proof (keeps_time_sleep (Trakt.headers self) 5 w2) as X.
      unfold final in X. rewrite time_sleep_spec in X by lia. exact X. }
    match goal with |- context [Trakt.page_loop fuel ?s ?p ?us ?li ?lm ?la ?pg ?pr w3] =>
      specialize (IH pg pr w3 e);
      pose proof (keeps_page_loop s p us li lm la fuel pg pr w3) as X4;
      destruct (Trakt.page_loop fuel s p us li lm la pg pr w3) as [o4 w4] eqn:E4
    end.
    unfold events_of, result, final in IH. rewrite E4 in IH.
    unfold final in X4. rewrite E4 in X4. simpl in *.
    intros Hin Hr.
    assert (X13 : extends (Trakt.headers self) w w3).
    { eapply extends_trans; [exact X1|]. eapply extends_trans; [exact X2 | exact X3]. }
    destruct (events_split _ _ _ _ _ X13 X4 Hin) as [H|H].
    + exfalso.
      assert (X12 : extends (Trakt.headers self) w w2)
        by (eapply extends_trans; [exact X1 | exact X2]).
      destruct (events_split _ _ _ _ _ X12 X3 H) as [H'|H'].
      * exact (Hnot _ H' Hr).
      * unfold w3 in H'. simpl in H'. rewrite drop_app_length in H'.
        destruct H' as [<-|[]]. exact Hr.
    + rewrite (IH H Hr). reflexivity.
  - simpl. destruct (status_code req =? 401) eqn:E401; simpl; [reflexivity|].
    intros Hin Hr. destruct (Hsent _ Hin Hr) as (r & Hreq & Hs & _).
    inversion Hreq; subst. lia.
Qed.

(** A try ends in the world its loop ends in, and leaves the process when
    the loop does. *)
Lemma fetch_try_loop self ep user list_id limit languages w :
  final (Trakt.fetch_try self ep user list_id limit languages) w
  = final (Trakt.page_loop (S (length (inbox w))) self ep user list_id limit
             (Trakt.join_languages languages) 1 []) w /\
  (result (Trakt.page_loop (S (length (inbox w))) self ep user list_id limit
             (Trakt.join_languages languages) 1 []) w = SystemExit ->
   result (Trakt.fetch_try self ep user list_id limit languages) w = SystemExit).
Proof.
  unfold Trakt.fetch_try, final, result, try_except. rewrite bind_run.
  destruct (Trakt.page_loop (S (length (inbox w))) self ep user list_id limit
              (Trakt.join_languages languages) 1 [] w) as [[[|x l]|x| |] w'];
    simpl; split; auto; discriminate.
Qed.

Lemma fetch_try_revoked self ep user list_id limit languages w e :
  Trakt.authenticated ep = true ->
  In e (events_of (Trakt.fetch_try self ep user list_id limit languages) w) ->
  revoked e ->
  result (Trakt.fetch_try self ep user list_id limit languages) w = SystemExit.
Proof.
  intros Hauth Hin Hr.
  destruct (fetch_try_loop self ep user list_id limit languages w) as [Hf Hx].
  apply Hx. eapply page_loop_revoked; [exact Hauth | | exact Hr].
  unfold events_of in *. rewrite <- Hf. exact Hin.
Qed.

(** The decorator passes the exit on: whichever try meets the 401, the
    decorated call leaves the process there. *)
Lemma retry_revoked {A} h (call : M (option A)) :
  keeps h call ->
  (forall w e, In e (events_of call w) -> revoked e -> result call w = SystemExit) ->
  forall left t seen w e,
    In e (events_of (backoff.retry backoff.expo is_None Trakt.backoff_handler call
                       left t seen) w) ->
    revoked e ->
    result (backoff.retry backoff.expo is_None Trakt.backoff_handler call left t seen) w
    = SystemExit.
Proof.
  intros Hk Hcall. induction left as [|left IH]; intros t seen w e;
    unfold events_of, result, final; simpl; rewrite bind_run;
    specialize (Hcall w e); unfold events_of, result, final in Hcall;
    pose proof (Hk w) as X1; unfold final in X1;
    destruct (call w) as [[[a|]|x| |] w1]; simpl in *; auto;
    try (intros Hin Hr; specialize (Hcall Hin Hr); discriminate).
  mred.
  destruct (random_uniform_spec 0 (backoff.expo (t - 0)) w1 (expo_nonneg _))
    as (s & w2 & E2 & Hs & _ & _ & _ & _ & _ & L2).
  pose proof (steps_run _ _ _ _ _ (keeps_random_uniform h 0 _) E2) as X2.
  unfold backoff.full_jitter. rewrite E2. simpl.
  rewrite time_sleep_spec by lia. simpl.
  set (w3 := emit (Slept s) (set_clock _ _)).
  assert (X : extends h w1 w3).
  { eapply extends_trans; [exact X2|].
    eapply extends_trans;
      [apply (keeps_handler h (backoff.Details (S t) (backoff.expo (t - 0)) s) w2)|].
    pose proof (keeps_time_sleep h s (emit (Warned s (S t)) w2)) as Y.
    unfold final in Y. rewrite time_sleep_spec in Y by lia. exact Y. }
  specialize (IH (S t) (seen ++ [backoff.Details (S t) (backoff.expo (t - 0)) s]) w3 e).
  pose proof (keeps_retry h call left Hk (S t)
                (seen ++ [backoff.Details (S t) (backoff.expo (t - 0)) s]) w3) as X4.
  unfold events_of, result, final in IH, X4.
  destruct (backoff.retry backoff.expo is_None Trakt.backoff_handler call left (S t)
              (seen ++ [backoff.Details (S t) (backoff.expo (t - 0)) s]) w3)
    as [o4 w4].
  simpl in *. intros Hin Hr.
  assert (X14 : extends h w w3) by (eapply extends_trans; [exact X1 | exact X]).
  destruct (events_split _ _ _ _ _ X14 X4 Hin) as [H|H]; [|auto].
  exfalso. destruct (events_split _ _ _ _ _ X1 X H) as [H'|H'].
  + specialize (Hcall H' Hr). discriminate.
  + unfold w3 in H'. simpl in H'. rewrite L2 in H'.
    rewrite <- app_assoc, drop_app_length in H'.
    destruct H' as [<-|[<-|[]]]; destruct Hr.
Qed.

(** C8.  For the four operations that send the user's token
    ([get_watchlist_shows], [get_user_list_shows], [get_watchlist_movies],
    [get_user_list_movies]): when any page request of a run is answered
    with a 401, the run ends in [SystemExit].  This holds for a single try
    and for the decorated method: no value is returned, no [None], and the
    exit is not retried. *)
Theorem revoked_authorization_exits self ep user list_id limit languages w e :
  Trakt.authenticated ep = true ->
  revoked e ->
  (In e (events_of (Trakt.fetch_try self ep user list_id limit languages) w) ->
   result (Trakt.fetch_try self ep user list_id limit languages) w = SystemExit) /\
  (In e (events_of (Trakt.fetch self ep user list_id limit languages) w) ->
   result (Trakt.fetch self ep user list_id limit languages) w = SystemExit).
Proof.
  intros Hauth Hr. split.
  - intros Hin. eapply fetch_try_revoked; eassumption.
  - intros Hin.
    assert (H : result (Trakt.fetch_run self ep user list_id limit languages) w
                = SystemExit).
    { unfold Trakt.fetch_run, backoff.on_predicate_run.
      eapply (retry_revoked (Trakt.headers self)); [apply keeps_fetch_try | | | exact Hr].
      - intros w0 e0. apply fetch_try_revoked. exact Hauth.
      - revert Hin. unfold events_of, final, Trakt.fetch, backoff.on_predicate,
          backoff.on_predicate_run. rewrite bind_run.
        destruct (backoff.retry _ _ _ _ _ _ _ w) as [[x|x| |] w']; simpl; auto. }
    revert H. unfold result, Trakt.fetch, Trakt.fetch_run, backoff.on_predicate.
    rewrite bind_run.
    destruct (backoff.on_predicate_run _ _ _ _ _ w) as [[x|x| |] w']; simpl;
      congruence.
Qed.

(** A watchlist whose second page is answered with a 401. *)
Lemma revoked_authorization_exits_witness :
  let w := Sample.world_with
             [Sample.page (Count 2) [Sample.show "A"];
              Sample.respond 401 NoHeader "" None] []
             [("alice", JDict [("access_token", JStr "t0k3n"); ("refresh_token", JStr "r");
                               ("created_at", JInt 0); ("expires_in", JInt 7776000)])] in
  let e := nth 2 (events_of (Trakt.get_watchlist_shows Sample.trakt (Some "alice")
                               1000 None) w) (Slept 0) in
  revoked e /\
  result (Trakt.fetch_try Sample.trakt Trakt.watchlist_shows (Some "alice") "" 1000 None) w
  = SystemExit /\
  result (Trakt.get_watchlist_shows Sample.trakt (Some "alice") 1000 None) w = SystemExit.
Proof.
  intros w e.
  assert (Hr : revoked e) by (vm_compute; repeat split; discriminate).
  destruct (revoked_authorization_exits Sample.trakt Trakt.watchlist_shows (Some "alice")
              "" 1000 None w e eq_refl Hr) as [H1 H2].
  split; [exact Hr|]. split.
  - apply H1. vm_compute. right. right. left. reflexivity.
  - apply H2. vm_compute. right. right. left. reflexivity.
Defined.

(** ** An empty result *)

(** What a decorated call returns, one of its tries returned. *)
Lemma retry_result_of_call {A} (call : M (option A)) handler left :
  forall t seen w r n ds w',
    backoff.retry backoff.expo is_None handler call left t seen w
    = (Returned (r, n, ds), w') ->
    exists w0, result call w0 = Returned r.
Proof.
  induction left as [|left IH]; intros t seen w r n ds w'; simpl; rewrite bind_run;
    destruct (call w) as [[[a|]|x| |] w1] eqn:E; simpl; try discriminate;
    try (intros H; inversion H; subst; exists w; unfold result; rewrite E; reflexivity).
  intros H. do 3 bind_inv H. eapply IH. exact H.
Qed.

Lemma fetch_try_not_empty self ep user list_id limit languages w l :
  result (Trakt.fetch_try self ep user list_id limit languages) w = Returned (Some l) ->
  l <> [].
Proof.
  unfold Trakt.fetch_try, result, try_except. rewrite bind_run.
  destruct (Trakt.page_loop _ _ _ _ _ _ _ _ _ w) as [[[|x p]|x| |] w']; simpl;
    intros H; inversion H. discriminate.
Qed.

(** C7.  When the page loop of a [get_*] method ends with nothing
    aggregated, the try returns [None], the value that makes the decorator
    retry.  Neither a try nor the decorated method ever returns an empty
    list. *)
Theorem empty_aggregate_is_no_result self ep user list_id limit languages w :
  (forall w',
     Trakt.page_loop (S (length (inbox w))) self ep user list_id limit
       (Trakt.join_languages languages) 1 [] w = (Returned [], w') ->
     Trakt.fetch_try self ep user list_id limit languages w = (Returned None, w')) /\
  (forall l,
     result (Trakt.fetch_try self ep user list_id limit languages) w = Returned (Some l) ->
     l <> []) /\
  (forall l,
     result (Trakt.fetch self ep user list_id limit languages) w = Returned (Some l) ->
     l <> []).
Proof.
  split; [|split].
  - intros w' E. unfold Trakt.fetch_try, try_except. rewrite bind_run, E. reflexivity.
  - intros l. apply fetch_try_not_empty.
  - intros l. unfold result, Trakt.fetch, backoff.on_predicate, backoff.on_predicate_run.
    rewrite bind_run.
    destruct (backoff.retry _ _ _ _ _ _ _ w) as [[[[r n] ds]|x| |] w'] eqn:E; simpl;
      try discriminate.
    intros H. inversion H; subst.
    destruct (retry_result_of_call _ _ _ _ _ _ _ _ _ _ E) as (w0 & H0).
    eapply fetch_try_not_empty. exact H0.
Qed.

(** One page, status 200, no records: the try gives [None], and so does
    the method after its four tries. *)
Lemma empty_aggregate_is_no_result_witness :
  let w := Sample.world_with [Sample.page NoHeader []] [] [] in
  result (Trakt.fetch_try Sample.trakt Trakt.trending_movies None "" 1000 None) w
  = Returned None /\
  result (Trakt.get_trending_movies Sample.trakt 1000 None) w = Returned None.
Proof.
  intros w. split; [|vm_compute; reflexivity].
  destruct (empty_aggregate_is_no_result Sample.trakt Trakt.trending_movies None ""
              1000 None w) as [H _].
  unfold result.
  rewrite (H (final (Trakt.page_loop 2 Sample.trakt Trakt.trending_movies None "" 1000
                       (Some "en") 1 []) w)); [reflexivity|].
  vm_compute. reflexivity.
Defined.

(** ** Walking the pages *)

Lemma dict_has_remove_same d k : dict_has (dict_remove d k) k = false.
Proof.
  unfold dict_has. induction d as [|[k' v] d IH]; simpl; [reflexivity|].
  destruct (String.eqb k k') eqn:E; [exact IH|]. simpl. rewrite E. exact IH.
Qed.

Lemma dict_has_remove_absent d k u :
  dict_has d u = false -> dict_has (dict_remove d k) u = false.
Proof.
  unfold dict_has. induction d as [|[k' v] d IH]; simpl; [reflexivity|].
  destruct (String.eqb u k') eqn:Eu; [discriminate|]. intros H.
  destruct (String.eqb k k'); [exact (IH H)|]. simpl. rewrite Eu. exact (IH H).
Qed.

Lemma dict_remove_absent d k : dict_has d k = false -> dict_remove d k = d.
Proof.
  unfold dict_has. induction d as [|[k' v] d IH]; simpl; [reflexivity|].
  destruct (String.eqb k k') eqn:E; [discriminate|]. intros H. rewrite (IH H). reflexivity.
Qed.

Lemma dict_pop_if_present_remove d k : dict_pop_if_present d k = dict_remove d k.
Proof.
  unfold dict_pop_if_present. destruct (dict_has d k) eqn:E; [reflexivity|].
  symmetry. apply dict_remove_absent. exact E.
Qed.

(** The keys [oauth_headers] pops are popped once and for all. *)
Lemma users_popped d :
  let users := dict_pop_if_present (dict_pop_if_present d "api_key") "api_secret" in
  dict_pop_if_present (dict_pop_if_present users "api_key") "api_secret" = users.
Proof.
  intros users. unfold users. rewrite !dict_pop_if_present_remove.
  rewrite (dict_remove_absent _ "api_key").
  - apply dict_remove_absent, dict_has_remove_same.
  - apply dict_has_remove_absent, dict_has_remove_same.
Qed.

(** Resolving the user a second time gives the same user and changes
    nothing. *)
Lemma resolve_user_again user w u w0 w1 :
  Trakt.resolve_user user w = (Returned u, w0) ->
  cfg_trakt w1 = cfg_trakt w0 ->
  result (Trakt.resolve_user user) w1 = Returned u /\
  cfg_trakt (final (Trakt.resolve_user user) w1) = cfg_trakt w0.
Proof.
  unfold Trakt.resolve_user, result, final. intros H Hc.
  destruct user as [u0|].
  - destruct (dict_has (cfg_trakt w) u0) eqn:Ek.
    + inversion H; subst. rewrite Hc, Ek. simpl. auto.
    + revert H.
      destruct (dict_pop_if_present (dict_pop_if_present (cfg_trakt w) "api_key")
                  "api_secret") as [|[k v] d'] eqn:Eu; [discriminate|].
      intros H. inversion H; subst. simpl in Hc. rewrite Hc.
      assert (Hk : dict_has ((u, v) :: d') u0 = false).
      { rewrite <- Eu, !dict_pop_if_present_remove.
        apply dict_has_remove_absent, dict_has_remove_absent. exact Ek. }
      rewrite Hk.
      assert (Hpp : dict_pop_if_present (dict_pop_if_present ((u, v) :: d') "api_key")
                      "api_secret" = (u, v) :: d')
        by (rewrite <- Eu; apply users_popped).
      rewrite Hpp. simpl. auto.
  - revert H.
    destruct (dict_pop_if_present (dict_pop_if_present (cfg_trakt w) "api_key")
                "api_secret") as [|[k v] d'] eqn:Eu; [discriminate|].
    intros H. inversion H; subst. simpl in Hc. rewrite Hc.
    assert (Hpp : dict_pop_if_present (dict_pop_if_present ((u, v) :: d') "api_key")
                    "api_secret" = (u, v) :: d')
      by (rewrite <- Eu; apply users_popped).
    rewrite Hpp. simpl. auto.
Qed.

Lemma resolve_user_frame user w :
  let w0 := final (Trakt.resolve_user user) w in
  clock w0 = clock w /\ inbox w0 = inbox w /\ log w0 = log w /\ heap w0 = heap w /\
  entropy w0 = entropy w /\ credentials w0 = credentials w.
Proof.
  unfold final, Trakt.resolve_user.
  destruct user as [u|]; [destruct (dict_has (cfg_trakt w) u)|]; simpl; auto 10;
    match goal with
    | |- context [match ?d with [] => _ | _ :: _ => _ end] => destruct d as [|[k v] d']
    end; simpl; auto 10.
Qed.

(** With a valid token [oauth_headers] returns at once: nothing is sent,
    no time passes, and the user stays signed in. *)
Lemma oauth_headers_signed_in self user deadline w :
  signed_in user deadline w -> clock w <= deadline ->
  exists w',
    Trakt.oauth_headers self user w = (Returned (Trakt.headers self), w') /\
    inbox w' = inbox w /\ log w' = log w /\ clock w' = clock w /\
    signed_in user deadline w'.
Proof.
  intros (u & info & Hu & Hi & Hv) Hclock.
  destruct Hv as (c & e & token & (vc & Hc1 & Hc2) & (ve & He1 & He2) & Ht & Hd).
  unfold result, final in Hu, Hi.
  destruct (resolve_user_frame user w) as (Fc & Fi & Fl & Fh & _).
  unfold final in Fc, Fi, Fl, Fh.
  destruct (Trakt.resolve_user user w) as [o w0] eqn:Er. simpl in *. subst o.
  unfold Trakt.oauth_headers. rewrite (bind_returned _ _ _ _ _ Er).
  unfold Trakt.cfg_trakt_getitem at 1. rewrite bind_run, Hi.
  rewrite (bind_lift_inr _ _ _ _ Hc1), (bind_lift_inr _ _ _ _ He1).
  rewrite (bind_lift_inr _ _ _ _ Hc2), (bind_lift_inr _ _ _ _ He2).
  rewrite bind_run. unfold time_time.
  assert (Hfresh : (c + e <? clock w0) = false) by lia.
  rewrite Hfresh. rewrite bind_run. unfold ret at 1.
  rewrite (bind_lift_inr _ _ _ _ Ht). simpl py_concat. rewrite bind_run. unfold lift, ret at 1.
  rewrite bind_run. unfold dict_setitem, ret.
  eexists. split; [reflexivity|]. simpl. repeat (split; [assumption|]).
  exists u, info. 
  match goal with |- context [result (Trakt.resolve_user user) ?w1] =>
    destruct (resolve_user_again user w u w0 w1 Er eq_refl) as [R1 R2] end.
  split; [exact R1|]. rewrite R2. split; [exact Hi|].
  exists c, e, token. eauto 10.
Qed.

Lemma signed_in_cfg user deadline w w' :
  cfg_trakt w' = cfg_trakt w -> signed_in user deadline w -> signed_in user deadline w'.
Proof.
  intros Hc (u & info & Hu & Hi & Hv). exists u, info.
  unfold result, final, Trakt.resolve_user in *. rewrite Hc.
  destruct user as [u0|]; [destruct (dict_has (cfg_trakt w) u0)|]; simpl in *;
    try (rewrite Hc; auto);
    destruct (dict_pop_if_present (dict_pop_if_present (cfg_trakt w) "api_key")
                "api_secret") as [|[k v] d']; simpl in *; auto.
Qed.

Lemma duration_nonneg pages : 0 <= duration pages.
Proof. induction pages as [|p ps IH]; simpl; lia. Qed.

Lemma requested_pages_app a b :
  requested_pages (a ++ b) = requested_pages a ++ requested_pages b.
Proof. unfold requested_pages. apply omap_app. Qed.

Lemma seqZ_S m k : seqZ m (Z.of_nat (S k)) = m :: seqZ (m + 1) (Z.of_nat k).
Proof. rewrite seqZ_cons by lia. f_equal. f_equal; lia. Qed.

Section walk.
Variables (self : Trakt.t) (ep : Trakt.endpoint) (user : option string)
  (list_id : string) (limit : Z) (languages : option string) (u : string).
Hypothesis Hurl : Trakt.endpoint_url ep user list_id = inr u.

(** Getting the headers, for an operation that is ready. *)
Lemma headers_step_ready deadline w :
  (Trakt.authenticated ep = true -> signed_in user deadline w) ->
  clock w <= deadline ->
  exists w',
    (if Trakt.authenticated ep then Trakt.oauth_headers self user
     else ret (Trakt.headers self)) w = (Returned (Trakt.headers self), w') /\
    inbox w' = inbox w /\ log w' = log w /\ clock w' = clock w /\
    (Trakt.authenticated ep = true -> signed_in user deadline w').
Proof.
  intros Hs Hc. destruct (Trakt.authenticated ep).
  - destruct (oauth_headers_signed_in self user deadline w (Hs eq_refl) Hc)
      as (w' & E & Hi & Hl & Hk & Hs').
    exists w'. auto 10.
  - exists w. auto 10.
Qed.

Lemma page_payload_page page : 
  dict_get (Trakt.page_payload limit page languages) "page" = Some (JInt page).
Proof. reflexivity. Qed.

(** The loop on a run of pages that all carry the count [n], the last of
    them being page [n]: it asks for each of them in turn and returns. *)
Lemma page_loop_walk n deadline pages :
  forall page processed w rest fuel,
    pages <> [] -> Forall (full_page n) pages ->
    page + Z.of_nat (length pages) - 1 = n -> 1 <= page ->
    inbox w = pages ++ rest -> (length pages <= fuel)%nat ->
    (Trakt.authenticated ep = true -> signed_in user deadline w) ->
    clock w + duration pages <= deadline ->
    exists processed' w',
      Trakt.page_loop fuel self ep user list_id limit languages page processed w
      = (Returned processed', w') /\
      inbox w' = rest /\
      requested_pages (drop (length (log w)) (log w'))
      = JInt <$> seqZ page (Z.of_nat (length pages)).
Proof.
  induction pages as [|pg pages IH]; intros page processed w rest fuel Hne Hall Hn Hp Hi
    Hfuel Hs Hd; [contradiction|].
  destruct fuel as [|fuel]; [simpl in Hfuel; lia|].
  apply Forall_cons in Hall. destruct Hall as [Hpg Hall'].
  destruct Hpg as (lat & r & body & items & -> & H200 & Hcount & Hbody & Hiter).
  pose proof (duration_nonneg pages) as Hdur. simpl in Hd. simpl length in Hn.
  destruct (headers_step_ready deadline w Hs ltac:(lia)) as (w1 & Eh & Hi1 & Hl1 & Hc1 & Hs1).
  cbn [Trakt.page_loop].
  rewrite (bind_lift_inr _ _ _ _ Hurl), (bind_returned _ _ _ _ _ Eh).
  assert (Ei1 : inbox w1 = Reply lat (Some r) :: (pages ++ rest)) by (rewrite Hi1; exact Hi).
  rewrite (bind_returned _ _ _ _ _ (requests_send_on_response _ _ _ _ _ _ _ _ _ Ei1)).
  set (w2 := emit _ (set_clock _ (set_inbox _ w1))).
  unfold Trakt.logged_page_count. rewrite Hcount. rewrite (bind_lift_inr _ _ _ n eq_refl).
  assert (E200 : (status_code r =? 200) = true) by lia. rewrite E200.
  unfold response_json. rewrite Hbody. rewrite bind_run. unfold ret at 1.
  rewrite (bind_lift_inr _ _ _ _ Hiter).
  assert (En0 : (n =? 0) = false) by lia. rewrite En0.
  assert (Hsent : drop (length (log w)) (log w2)
                  = [Sent (clock w1) (Request GET (Absolute u)
                       (Trakt.page_payload limit page languages)
                       (deref (Trakt.headers self) w1) None) (Reply lat (Some r))]).
  { unfold w2. simpl. rewrite Hl1, drop_app_length. reflexivity. }
  destruct pages as [|pg2 pages'].
  - assert (Ege : (page >=? n) = true) by (simpl in Hn; lia). rewrite Ege.
    eexists _, w2. split; [reflexivity|]. split; [reflexivity|].
    rewrite Hsent. reflexivity.
  - assert (Ege : (page >=? n) = false) by (simpl length in Hn; lia). rewrite Ege.
    rewrite bind_run, time_sleep_spec by lia.
    set (w3 := emit (Slept 5) _).
    destruct (IH (page + 1) (Trakt.aggregate (Trakt.envelope ep) items processed) w3 rest
                fuel) as (processed' & w' & E & Hr & Hq).
    + discriminate.
    + exact Hall'.
    + simpl length in *. lia.
    + lia.
    + reflexivity.
    + simpl in Hfuel |- *. lia.
    + intros Ha. eapply signed_in_cfg; [|exact (Hs1 Ha)]. reflexivity.
    + unfold w3, w2. simpl clock. simpl in Hd. simpl (duration _). lia.
    + exists processed', w'. split; [exact E|]. split; [exact Hr|].
      assert (X : extends (Trakt.headers self) w3 w').
      { pose proof (keeps_page_loop self ep user list_id limit languages fuel (page + 1)
                      (Trakt.aggregate (Trakt.envelope ep) items processed) w3) as X.
        unfold final in X. rewrite E in X. exact X. }
      destruct X as [(evs & L & _) _ _ _].
      rewrite L in Hq |- *. rewrite drop_app_length in Hq.
      assert (L3 : log w3 = log w ++ [Sent (clock w1) (Request GET (Absolute u)
                       (Trakt.page_payload limit page languages)
                       (deref (Trakt.headers self) w1) None) (Reply lat (Some r));
                     Slept 5]).
      { unfold w3, w2. simpl. rewrite Hl1, <- app_assoc. reflexivity. }
      rewrite L3, <- app_assoc, drop_app_length, requested_pages_app, Hq.
      change (length (Reply lat (Some r) :: pg2 :: pages'))
        with (S (length (pg2 :: pages'))).
      rewrite seqZ_S. reflexivity.
Qed.

(** The loop on a first reply without a page count, or with the count 0:
    one request, and the loop is over, however it ends. *)
Lemma page_loop_single deadline page processed w lat r rest fuel :
  inbox w = Reply lat (Some r) :: rest ->
  x_pagination_page_count r = NoHeader \/ x_pagination_page_count r = Count 0 ->
  (Trakt.authenticated ep = true -> signed_in user deadline w) ->
  clock w <= deadline ->
  exists o w',
    Trakt.page_loop (S fuel) self ep user list_id limit languages page processed w
    = (o, w') /\
    o <> Diverged /\ inbox w' = rest /\
    requested_pages (drop (length (log w)) (log w')) = [JInt page].
Proof.
  intros Hi Hh Hs Hc.
  destruct (headers_step_ready deadline w Hs Hc) as (w1 & Eh & Hi1 & Hl1 & Hc1 & Hs1).
  cbn [Trakt.page_loop].
  rewrite (bind_lift_inr _ _ _ _ Hurl), (bind_returned _ _ _ _ _ Eh).
  assert (Ei1 : inbox w1 = Reply lat (Some r) :: rest) by (rewrite Hi1; exact Hi).
  rewrite (bind_returned _ _ _ _ _ (requests_send_on_response _ _ _ _ _ _ _ _ _ Ei1)).
  set (w2 := emit _ (set_clock _ (set_inbox _ w1))).
  assert (Hsent : requested_pages (drop (length (log w)) (log w2)) = [JInt page]).
  { unfold w2. simpl. rewrite Hl1, drop_app_length. reflexivity. }
  assert (Hlog : exists n, Trakt.logged_page_count r = inr n).
  { unfold Trakt.logged_page_count. destruct Hh as [-> | ->]; eauto. }
  destruct Hlog as (n & Hlog). rewrite (bind_lift_inr _ _ _ _ Hlog).
  destruct (status_code r =? 200).
  - unfold response_json. destruct (decoded r) as [body|].
    2:{ eexists _, w2. split; [reflexivity|]. repeat split; auto; discriminate. }
    rewrite bind_run. unfold ret at 1.
    destruct (py_iter body) as [x|items].
    { eexists _, w2. split; [reflexivity|]. repeat split; auto; discriminate. }
    rewrite (bind_lift_inr _ _ _ items eq_refl).
    destruct Hh as [-> | ->]; simpl;
      (eexists _, w2; split; [reflexivity|]; repeat split; auto; discriminate).
  - destruct (Trakt.authenticated ep && (status_code r =? 401));
      (eexists _, w2; split; [reflexivity|]; repeat split; auto; discriminate).
Qed.
End walk.

(** C3.  Let a paginated operation be ready: its URL can be built and, if
    it sends the user's token, the token is valid until [deadline].
    - If the replies waiting are [n] pages, each with status 200, the count
      [n] and a body that can be iterated over, and the clock does not reach
      the deadline while they are walked, then a try asks for the pages
      1, ..., [n], in this order, and for nothing else: it returns having
      taken exactly these [n] replies.
    - If the first reply is a response without a page count, or with the
      count 0, then a try asks for page 1 and for nothing else: its loop is
      over after that single reply has been taken. *)
Theorem page_requests_follow_the_count self ep user list_id limit languages deadline w :
  ready ep user list_id deadline w ->
  let try := Trakt.fetch_try self ep user list_id limit languages in
  (forall n pages rest,
     0 < n -> length pages = Z.to_nat n -> Forall (full_page n) pages ->
     inbox w = pages ++ rest -> clock w + duration pages <= deadline ->
     requested_pages (events_of try w) = JInt <$> seqZ 1 n /\
     inbox (final try w) = rest /\
     exists r, result try w = Returned r) /\
  (forall lat r rest,
     inbox w = Reply lat (Some r) :: rest ->
     x_pagination_page_count r = NoHeader \/ x_pagination_page_count r = Count 0 ->
     clock w <= deadline ->
     requested_pages (events_of try w) = [JInt 1] /\
     inbox (final try w) = rest /\
     result try w <> Diverged).
Proof.
  intros [(u & Hurl) Hs] try.
  destruct (fetch_try_loop self ep user list_id limit languages w) as [Hf _].
  split.
  - intros n pages rest Hn Hlen Hall Hi Hd.
    destruct (page_loop_walk self ep user list_id limit (Trakt.join_languages languages)
                u Hurl n deadline pages 1 [] w rest (S (length (inbox w))))
      as (processed & w' & E & Hr & Hq); auto; try lia.
    + intros ->. simpl in Hlen. lia.
    + rewrite Hi, length_app. lia.
    + unfold events_of, try. rewrite Hf. unfold final. rewrite E. simpl.
      rewrite Hq, Hlen, Z2Nat.id by lia. split; [reflexivity|]. split; [exact Hr|].
      unfold result, Trakt.fetch_try, try_except. rewrite bind_run, E.
      destruct processed; simpl; eauto.
  - intros lat r rest Hi Hh Hc.
    destruct (page_loop_single self ep user list_id limit (Trakt.join_languages languages)
                u Hurl deadline 1 [] w lat r rest (length (inbox w)) Hi Hh Hs Hc)
      as (o & w' & E & Ho & Hr & Hq).
    unfold events_of, try. rewrite Hf. unfold final. rewrite E. simpl.
    split; [exact Hq|]. split; [exact Hr|].
    unfold result, Trakt.fetch_try, try_except. rewrite bind_run, E.
    destruct o as [[|x p]|x| |]; simpl; try discriminate. contradiction.
Qed.

(** A watchlist of three pages, walked with alice's token. *)
Lemma page_requests_follow_the_count_witness :
  let w := Sample.world_with
             [Sample.page (Count 3) [Sample.show "A"];
              Sample.page (Count 3) [Sample.show "B"];
              Sample.page (Count 3) [Sample.show "C"]] []
             [("alice", JDict [("access_token", JStr "t0k3n"); ("refresh_token", JStr "r");
                               ("created_at", JInt 0); ("expires_in", JInt 7776000)])] in
  let try := Trakt.fetch_try Sample.trakt Trakt.watchlist_shows (Some "alice") "" 1000 None in
  requested_pages (events_of try w) = [JInt 1; JInt 2; JInt 3] /\
  inbox (final try w) = [] /\
  exists r, result try w = Returned r.
Proof.
  intros w try.
  assert (Hready : ready Trakt.watchlist_shows (Some "alice") "" 7776000 w).
  { split; [eexists; reflexivity|]. intros _.
    exists "alice", (JDict [("access_token", JStr "t0k3n"); ("refresh_token", JStr "r");
                            ("created_at", JInt 0); ("expires_in", JInt 7776000)]).
    split; [reflexivity|]. split; [reflexivity|].
    exists 0, 7776000, "t0k3n". repeat split; try (eexists; split; reflexivity).
    lia. }
  destruct (page_requests_follow_the_count Sample.trakt Trakt.watchlist_shows
              (Some "alice") "" 1000 None 7776000 w Hready) as [H _].
  apply (H 3 (inbox w) []).
  - lia.
  - reflexivity.
  - repeat constructor; repeat eexists.
  - reflexivity.
  - vm_compute. discriminate.
Defined.

(** Three pages of ten records each, no record twice: thirty records,
    three requests, two pauses of 5 seconds. *)
Example three_pages_of_ten :
  let records := fun k => JInt <$> seqZ (10 * k) 10 in
  let w := Sample.world_with
             [Sample.page (Count 3) (records 0); Sample.page (Count 3) (records 1);
              Sample.page (Count 3) (records 2)] [] [] in
  let try := Trakt.fetch_try Sample.trakt Trakt.anticipated_shows None "" 1000 None in
  result try w = Returned (Some (JInt <$> seqZ 0 30)) /\
  requested_pages (events_of try w) = [JInt 1; JInt 2; JInt 3] /\
  sleeps (events_of try w) = [5; 5].
Proof. intros records w try. repeat split; vm_compute; reflexivity. Qed.

(** ** Fuel is never short *)

Lemma plain_ret {A} (a : A) : plain (ret a).
Proof. intros w. exact I. Qed.

Lemma plain_raise {A} (e : exn) : plain (@raise A e).
Proof. intros w. exact I. Qed.

Lemma plain_lift {A} (r : exn + A) : plain (lift r).
Proof. destruct r; intros w; exact I. Qed.

Lemma plain_bind {A B} (m : M A) (k : A -> M B) :
  plain m -> (forall a, plain (k a)) -> plain (bind m k).
Proof.
  intros Hm Hk w. unfold result. rewrite bind_run.
  specialize (Hm w). unfold result in Hm.
  destruct (m w) as [[a|e| |] w1]; simpl in *; try contradiction; [|exact I].
  apply Hk.
Qed.

Lemma plain_try {A} (m : M A) (h : exn -> M A) :
  plain m -> (forall e, plain (h e)) -> plain (try_except m h).
Proof.
  intros Hm Hh w. unfold result. rewrite try_except_run.
  specialize (Hm w). unfold result in Hm.
  destruct (m w) as [[a|e| |] w1]; simpl in *; try contradiction; [exact I|].
  apply Hh.
Qed.

Lemma plain_response_json r : plain (response_json r).
Proof. unfold response_json. destruct (decoded r); [apply plain_ret | apply plain_raise]. Qed.

Lemma plain_requests_send m u ps h js : plain (requests_send m u ps h js).
Proof.
  intros w. unfold result. rewrite requests_send_spec. simpl.
  destruct (next_response w); exact I.
Qed.

Lemma plain_time_sleep d : plain (time_sleep d).
Proof. intros w. unfold result, time_sleep. destruct (d <? 0); exact I. Qed.

Lemma plain_time_time : plain time_time.
Proof. intros w. exact I. Qed.

Lemma plain_random_uniform a b : plain (random_uniform a b).
Proof. intros w. unfold result, random_uniform. destruct (entropy w); exact I. Qed.

Lemma plain_dict_setitem h k v : plain (dict_setitem h k v).
Proof. intros w. exact I. Qed.

Lemma plain_merge_settings o c : plain (Trakt.merge_settings o c).
Proof. intros w. exact I. Qed.

Lemma plain_handler d : plain (Trakt.backoff_handler d).
Proof. intros w. exact I. Qed.

Lemma plain_resolve_user u : plain (Trakt.resolve_user u).
Proof.
  intros w. unfold result, Trakt.resolve_user.
  destruct u as [u|]; [destruct (dict_has (cfg_trakt w) u)|]; simpl; try exact I;
    match goal with
    | |- context [match ?d with [] => _ | _ :: _ => _ end] => destruct d as [|[k v] d']
    end; exact I.
Qed.

Lemma plain_cfg_trakt_getitem u : plain (Trakt.cfg_trakt_getitem u).
Proof.
  intros w. unfold result, Trakt.cfg_trakt_getitem.
  destruct (dict_get (cfg_trakt w) u); exact I.
Qed.

Create HintDb plain.
#[export] Hint Resolve plain_ret plain_raise plain_lift plain_response_json
  plain_requests_send plain_time_sleep plain_time_time plain_random_uniform
  plain_dict_setitem plain_merge_settings plain_handler plain_resolve_user
  plain_cfg_trakt_getitem : plain.

Ltac plain_step :=
  match goal with
  | |- plain (bind _ _) => apply plain_bind; [|intros]
  | |- plain (try_except _ _) => apply plain_try; [|intros]
  | |- plain (if ?b then _ else _) => destruct b
  | |- plain (match ?x with _ => _ end) => destruct x
  | |- plain _ => solve [auto with plain]
  end.

Lemma plain_process_token_request self req :
  plain (Trakt.__oauth_process_token_request self req).
Proof. unfold Trakt.__oauth_process_token_request. repeat plain_step. Qed.

Lemma plain_refresh self token : plain (Trakt.__oauth_refresh_access_token self token).
Proof.
  unfold Trakt.__oauth_refresh_access_token.
  apply plain_bind; [apply plain_requests_send|]. intros req.
  apply plain_bind; [apply plain_process_token_request|]. intros [s c]. apply plain_ret.
Qed.

Lemma plain_request_device_code self : plain (Trakt.__oauth_request_device_code self).
Proof. unfold Trakt.__oauth_request_device_code. repeat plain_step. Qed.

Lemma plain_oauth_headers self user : plain (Trakt.oauth_headers self user).
Proof.
  unfold Trakt.oauth_headers.
  do 7 (apply plain_bind; [auto with plain|]; intros).
  apply plain_bind.
  { destruct (_ <? _); [|apply plain_ret].
    apply plain_bind; [apply plain_lift|]. intros rt.
    apply plain_bind; [apply plain_refresh|]. intros _. apply plain_ret. }
  intros _. repeat plain_step.
Qed.

(** The polling loop with more fuel than there are replies waiting: it
    returns [False] or raises. *)
Lemma poll_loop_enough self device_code start expire fuel :
  forall interval w,
    (length (inbox w) < fuel)%nat ->
    exists w',
      Trakt.poll_loop fuel self device_code start interval expire w = (Returned false, w')
      \/ exists e,
        Trakt.poll_loop fuel self device_code start interval expire w = (Raised e, w').
Proof.
  induction fuel as [|fuel IH]; intros interval w Hfuel; [lia|].
  cbn [Trakt.poll_loop]. rewrite bind_run. unfold time_time.
  destruct (clock w - start <? expire); [|eauto].
  rewrite bind_run.
  destruct (requests_send POST (Absolute "https://api.trakt.tv/oauth/device/token")
              [("code", device_code); ("client_id", JStr (Trakt.api_key self));
               ("client_secret", JStr (Trakt.api_secret self));
               ("grant_type", JStr "authorization_code")] (Trakt.headers self) None w)
    as [o1 w1] eqn:E1.
  pose proof (plain_requests_send POST (Absolute "https://api.trakt.tv/oauth/device/token")
              [("code", device_code); ("client_id", JStr (Trakt.api_key self));
               ("client_secret", JStr (Trakt.api_secret self));
               ("grant_type", JStr "authorization_code")] (Trakt.headers self) None w) as P1.
  unfold result in P1. rewrite E1 in P1.
  destruct o1 as [req|e| |]; simpl in P1; try contradiction; [|eauto].
  apply requests_send_returned in E1.
  destruct E1 as (lat & rest & Hi & Hi1 & _).
  rewrite bind_run.
  pose proof (plain_process_token_request self req w1) as P2.
  pose proof (keeps_process_token_request self req w1) as X2.
  unfold result in P2. unfold final in X2.
  destruct (Trakt.__oauth_process_token_request self req w1) as [[[s c]|e| |] w2];
    simpl in P2; try contradiction; [|eauto].
  apply extends_inbox_length in X2. simpl in X2.
  destruct s; [eauto|].
  rewrite bind_run. unfold time_sleep.
  destruct (_ <? 0); [eauto|].
  apply IH. simpl. rewrite Hi in Hfuel. simpl in Hfuel. subst rest. lia.
Qed.

Lemma poll_returns_false_or_raises self device_code interval expire w :
  exists w',
    Trakt.__oauth_poll_for_access_token self device_code interval expire w
    = (Returned false, w')
    \/ exists e,
      Trakt.__oauth_poll_for_access_token self device_code interval expire w
      = (Raised e, w').
Proof.
  unfold Trakt.__oauth_poll_for_access_token. rewrite bind_run. unfold time_time.
  destruct (py_number interval) as [e|i]; [eauto|].
  rewrite (bind_lift_inr _ _ _ i eq_refl). rewrite bind_run. unfold time_sleep.
  destruct (i <? 0); [eauto|].
  destruct (py_number expire) as [e|x]; [eauto|].
  rewrite (bind_lift_inr _ _ _ x eq_refl).
  apply poll_loop_enough. lia.
Qed.

(** Whatever the server answers, [oauth_authentication] returns [False]. *)
Lemma oauth_authentication_returns_false self w :
  result (Trakt.oauth_authentication self) w = Returned false.
Proof.
  unfold Trakt.oauth_authentication, result. rewrite try_except_run, bind_run.
  pose proof (plain_request_device_code self w) as P1. unfold result in P1.
  destruct (Trakt.__oauth_request_device_code self w) as [[r|e| |] w1];
    simpl in P1; try contradiction; [|reflexivity].
  destruct (py_getitem r "device_code") as [e|dc]; [reflexivity|].
  rewrite (bind_lift_inr _ _ _ dc eq_refl).
  destruct (py_getitem r "interval") as [e|i]; [reflexivity|].
  rewrite (bind_lift_inr _ _ _ i eq_refl).
  destruct (py_getitem r "expires_in") as [e|x]; [reflexivity|].
  rewrite (bind_lift_inr _ _ _ x eq_refl). rewrite bind_run.
  destruct (poll_returns_false_or_raises self dc i x w1) as (w' & [-> | (e & ->)]);
    reflexivity.
Qed.

(** The page loop with more fuel than there are replies waiting does not
    run out of it. *)
Lemma page_loop_enough self ep user list_id limit languages fuel :
  forall page processed w,
    (length (inbox w) < fuel)%nat ->
    result (Trakt.page_loop fuel self ep user list_id limit languages page processed) w
    <> Diverged.
Proof.
  induction fuel as [|fuel IH]; intros page processed w Hfuel; [lia|].
  unfold result. cbn [Trakt.page_loop].
  destruct (Trakt.endpoint_url ep user list_id) as [e|u]; [discriminate|].
  rewrite (bind_lift_inr _ _ _ u eq_refl). rewrite bind_run.
  assert (P1 : plain (if Trakt.authenticated ep then Trakt.oauth_headers self user
                      else ret (Trakt.headers self))).
  { destruct (Trakt.authenticated ep); [apply plain_oauth_headers | apply plain_ret]. }
  assert (X1 : keeps (Trakt.headers self)
                 (if Trakt.authenticated ep then Trakt.oauth_headers self user
                  else ret (Trakt.headers self))).
  { destruct (Trakt.authenticated ep); [apply keeps_oauth_headers | apply steps_ret]. }
  specialize (P1 w). specialize (X1 w). unfold result in P1. unfold final in X1.
  destruct ((if Trakt.authenticated ep then Trakt.oauth_headers self user
             else ret (Trakt.headers self)) w) as [[h|e| |] w1];
    simpl in P1; try contradiction; [|discriminate].
  apply extends_inbox_length in X1. simpl in X1.
  rewrite bind_run.
  destruct (requests_send GET (Absolute u) (Trakt.page_payload limit page languages) h
              None w1) as [o2 w2] eqn:E2.
  pose proof (plain_requests_send GET (Absolute u)
                (Trakt.page_payload limit page languages) h None w1) as P2.
  unfold result in P2. rewrite E2 in P2.
  destruct o2 as [req|e| |]; simpl in P2; try contradiction; [|discriminate].
  apply requests_send_returned in E2. destruct E2 as (lat & rest & Hi & Hi2 & _).
  destruct (Trakt.logged_page_count req) as [e|n0]; [discriminate|].
  rewrite (bind_lift_inr _ _ _ n0 eq_refl).
  destruct (status_code req =? 200).
  - unfold response_json. destruct (decoded req) as [body|]; [|discriminate].
    rewrite bind_run. unfold ret at 1.
    destruct (py_iter body) as [e|items]; [discriminate|].
    rewrite (bind_lift_inr _ _ _ items eq_refl).
    destruct (x_pagination_page_count req) as [|n|]; try discriminate.
    destruct (n =? 0); [discriminate|].
    destruct (page >=? n); [discriminate|].
    rewrite bind_run, time_sleep_spec by lia.
    apply IH. simpl. rewrite Hi in X1. simpl in X1. subst rest. lia.
  - destruct (Trakt.authenticated ep && (status_code req =? 401)); discriminate.
Qed.

Lemma fetch_try_outcome self ep user list_id limit languages w :
  (exists r, result (Trakt.fetch_try self ep user list_id limit languages) w = Returned r)
  \/ result (Trakt.fetch_try self ep user list_id limit languages) w = SystemExit.
Proof.
  pose proof (page_loop_enough self ep user list_id limit (Trakt.join_languages languages)
                (S (length (inbox w))) 1 [] w ltac:(lia)) as H.
  unfold result, Trakt.fetch_try, try_except in *. rewrite bind_run.
  destruct (Trakt.page_loop _ _ _ _ _ _ _ _ _ w) as [[[|x l]|e| |] w']; simpl in *;
    eauto; contradiction.
Qed.

(** A decorated [get_*] method returns a value or [None], or leaves the
    process: it raises nothing, and the model never runs out of fuel. *)
Lemma fetch_outcome self ep user list_id limit languages w :
  (exists r, result (Trakt.fetch self ep user list_id limit languages) w = Returned r)
  \/ result (Trakt.fetch self ep user list_id limit languages) w = SystemExit.
Proof.
  unfold Trakt.fetch, backoff.on_predicate, backoff.on_predicate_run, result.
  rewrite bind_run.
  assert (H : forall left t seen w,
            (exists r w', backoff.retry backoff.expo is_None Trakt.backoff_handler
               (Trakt.fetch_try self ep user list_id limit languages) left t seen w
             = (Returned r, w')) \/
            (exists w', backoff.retry backoff.expo is_None Trakt.backoff_handler
               (Trakt.fetch_try self ep user list_id limit languages) left t seen w
             = (SystemExit, w'))).
  { induction left as [|left IH]; intros t seen w0.
    - destruct (Trakt.fetch_try self ep user list_id limit languages w0) as [o w1] eqn:E.
      destruct (fetch_try_outcome self ep user list_id limit languages w0)
        as [(r & Hr)|Hr]; unfold result in Hr; rewrite E in Hr; simpl in Hr; subst o.
      + destruct r as [a|].
        * left. rewrite (retry_some _ _ _ _ _ _ _ _ E). eauto.
        * left. rewrite (retry_none_last _ _ _ _ _ _ E). eauto.
      + right. rewrite (retry_exit _ _ _ _ _ _ _ E). eauto.
    - destruct (Trakt.fetch_try self ep user list_id limit languages w0) as [o w1] eqn:E.
      destruct (fetch_try_outcome self ep user list_id limit languages w0)
        as [(r & Hr)|Hr]; unfold result in Hr; rewrite E in Hr; simpl in Hr; subst o.
      + destruct r as [a|].
        * left. rewrite (retry_some _ _ _ _ _ _ _ _ E). eauto.
        * destruct (retry_none _ Trakt.backoff_handler (or_intror eq_refl) left t seen
                      w0 w1 E) as (s & w3 & _ & _ & _ & _ & _ & ->).
          apply IH.
      + right. rewrite (retry_exit _ _ _ _ _ _ _ E). eauto. }
  destruct (H (4 - 1)%nat 0%nat [] w) as [(r & w' & ->) | (w' & ->)]; simpl; eauto.
Qed.

(** ** The device-authorization flow *)

Lemma process_token_request_not_granted self r w :
  status_code r <> 200 ->
  Trakt.__oauth_process_token_request self r w = (Returned (false, status_code r), w).
Proof.
  intros H. unfold Trakt.__oauth_process_token_request.
  assert (E : (status_code r =? 200) = false) by lia. rewrite E. reflexivity.
Qed.

Lemma Forall_take_le {A} (P : A -> Prop) (l : list A) k k' :
  (k' <= k)%nat -> Forall P (take k l) -> Forall P (take k' l).
Proof.
  intros Hk H. replace (take k' l) with (take k' (take k l)).
  - apply Forall_take. exact H.
  - rewrite take_take. f_equal. lia.
Qed.

(** The polling loop while nothing is granted: it runs until the time is
    up and returns [False]; every request it sends, it sends before the
    time is up. *)
Lemma poll_loop_expires self device_code start expire fuel :
  forall interval w,
    0 < interval -> start <= clock w ->
    (Z.to_nat (expire - (clock w - start)) <= fuel)%nat ->
    (Z.to_nat (expire - (clock w - start)) <= length (inbox w))%nat ->
    Forall not_granted (take (Z.to_nat (expire - (clock w - start))) (inbox w)) ->
    exists w',
      Trakt.poll_loop fuel self device_code start interval expire w
      = (Returned false, w') /\
      expire <= clock w' - start /\
      Forall (sent_before (start + expire)) (drop (length (log w)) (log w')).
Proof.
  induction fuel as [|fuel IH]; intros interval w Hint Hstart Hfuel Hlen Hall.
  - assert (Hup : (clock w - start <? expire) = false) by lia.
    exists w. cbn [Trakt.poll_loop]. rewrite bind_run. unfold time_time. rewrite Hup.
    split; [reflexivity|]. split; [lia|]. rewrite drop_all. constructor.
  - cbn [Trakt.poll_loop]. rewrite bind_run. unfold time_time.
    destruct (clock w - start <? expire) eqn:Hup.
    2:{ exists w. split; [reflexivity|]. split; [lia|]. rewrite drop_all. constructor. }
    destruct (inbox w) as [|[lat ans] rest] eqn:Ei.
    { simpl in Hlen. lia. }
    assert (Hk : Z.to_nat (expire - (clock w - start))
                 = S (Z.to_nat (expire - (clock w - start)) - 1)) by lia.
    rewrite Hk in Hall. simpl in Hall. apply Forall_cons in Hall.
    destruct Hall as [(r & Hans & Hr) Hall]. simpl in Hans. subst ans.
    rewrite (bind_returned _ _ _ _ _ (requests_send_on_response _ _ _ _ _ _ _ _ _ Ei)).
    set (w2 := emit _ (set_clock _ (set_inbox _ w))).
    rewrite (bind_returned _ _ _ _ _ (process_token_request_not_granted self r w2 Hr)).
    cbv beta iota.
    set (interval' := if status_code r =? 426 then interval + 1 else interval).
    assert (Hint' : 0 < interval') by (unfold interval'; destruct (_ =? _); lia).
    rewrite bind_run, time_sleep_spec by lia.
    set (w3 := emit (Slept interval') _).
    assert (Hc3 : clock w3 = clock w + Z.max 0 lat + interval') by reflexivity.
    destruct (IH interval' w3 Hint') as (w' & E & Hexp & Hev).
    + lia.
    + lia.
    + change (inbox w3) with rest. simpl in Hlen. lia.
    + change (inbox w3) with rest.
      eapply Forall_take_le; [|exact Hall]. lia.
    + exists w'. split; [exact E|]. split; [exact Hexp|].
      assert (X : extends (Trakt.headers self) w3 w').
      { pose proof (keeps_poll_loop self device_code start expire fuel interval' w3) as X.
        unfold final in X. rewrite E in X. exact X. }
      destruct X as [(evs & L & _) _ _ _]. rewrite L in Hev |- *.
      rewrite drop_app_length in Hev.
      assert (L3 : log w3 = log w ++ [Sent (clock w)
                     (Request POST (Absolute "https://api.trakt.tv/oauth/device/token")
                        [("code", device_code); ("client_id", JStr (Trakt.api_key self));
                         ("client_secret", JStr (Trakt.api_secret self));
                         ("grant_type", JStr "authorization_code")]
                        (deref (Trakt.headers self) w) None)
                     (Reply lat (Some r)); Slept interval']).
      { unfold w3, w2. simpl. rewrite <- app_assoc. reflexivity. }
      rewrite L3, <- app_assoc, drop_app_length.
      apply Forall_app. split; [|exact Hev].
      constructor; [simpl; lia|]. constructor; [exact I | constructor].
Qed.

(** C6.  Let the polling interval be positive, and let none of the replies
    that can arrive within the budget grant the token (each is a response
    with a status other than 200; there are enough of them waiting for the
    whole budget).  Then [__oauth_poll_for_access_token] returns [False],
    at a time when [expires_in] seconds or more have passed since polling
    began, and every request it made was sent before that budget was used
    up. *)
Theorem polling_stops_at_expiry self device_code interval expire w :
  0 < interval ->
  (Z.to_nat expire <= length (inbox w))%nat ->
  Forall not_granted (take (Z.to_nat expire) (inbox w)) ->
  let poll := Trakt.__oauth_poll_for_access_token self device_code
                (JInt interval) (JInt expire) in
  result poll w = Returned false /\
  expire <= clock (final poll w) - clock w /\
  Forall (sent_before (clock w + expire)) (events_of poll w).
Proof.
  intros Hint Hlen Hall poll.
  unfold poll, Trakt.__oauth_poll_for_access_token, events_of, result, final.
  rewrite bind_run. unfold time_time. simpl py_number.
  rewrite (bind_lift_inr _ _ _ interval eq_refl).
  rewrite bind_run, time_sleep_spec by lia.
  rewrite (bind_lift_inr _ _ _ expire eq_refl).
  set (w1 := emit (Slept interval) _).
  destruct (poll_loop_expires self device_code (clock w) expire (S (length (inbox w1)))
              interval w1 Hint) as (w' & E & Hexp & Hev).
  - simpl. lia.
  - simpl. lia.
  - simpl. lia.
  - change (inbox w1) with (inbox w). eapply Forall_take_le; [|exact Hall].
    simpl. lia.
  - rewrite E. simpl. split; [reflexivity|]. split; [exact Hexp|].
    assert (X : extends (Trakt.headers self) w1 w').
    { pose proof (keeps_poll_loop self device_code (clock w) expire
                    (S (length (inbox w1))) interval w1) as X.
      unfold final in X. rewrite E in X. exact X. }
    destruct X as [(evs & L & _) _ _ _]. rewrite L in Hev |- *.
    rewrite drop_app_length in Hev.
    change (log w1) with (log w ++ [Slept interval]).
    rewrite <- app_assoc, drop_app_length.
    constructor; [exact I | exact Hev].
Qed.

(** Polling every 5 seconds for 12 seconds while the server answers 429,
    400 and 404: requests at 5 and 10 seconds, [False] at 15. *)
Lemma polling_stops_at_expiry_witness :
  let w := Sample.world_with
             (replicate 4 (Sample.respond 429 NoHeader "" None)
              ++ replicate 4 (Sample.respond 400 NoHeader "" None)
              ++ replicate 4 (Sample.respond 404 NoHeader "" None)) [] [] in
  let poll := Trakt.__oauth_poll_for_access_token Sample.trakt (JStr "d3v1c3")
                (JInt 5) (JInt 12) in
  result poll w = Returned false /\
  12 <= clock (final poll w) - clock w /\
  Forall (sent_before (clock w + 12)) (events_of poll w).
Proof.
  intros w poll.
  apply (polling_stops_at_expiry Sample.trakt (JStr "d3v1c3") 5 12 w).
  - lia.
  - vm_compute. lia.
  - vm_compute. repeat constructor; eexists; (split; [reflexivity | discriminate]).
Defined.

(** C2 fails on the value returned.  With the polls answered 429, 426 and
    200 the flow behaves as described up to its last step: it sleeps 5
    seconds before the first and the second poll (the 429 leaves the
    interval alone), 6 before the third (the 426 adds one second), asks
    [users/me] and stores alice's credential, once.  But the loop is left
    by [break] and the method ends with [return False]: the flow reports
    [False] although it succeeded. *)
Theorem oauth_authentication_succeeds_with_false :
  let w := final (Trakt.oauth_authentication Sample.trakt) Sample.granted_at_third_poll in
  result (Trakt.oauth_authentication Sample.trakt) Sample.granted_at_third_poll
  = Returned false /\
  sleeps (log w) = [5; 5; 6] /\
  exchanges (log w)
  = [(0, Absolute "https://api.trakt.tv/oauth/device/code", Some 200);
     (5, Absolute "https://api.trakt.tv/oauth/device/token", Some 429);
     (10, Absolute "https://api.trakt.tv/oauth/device/token", Some 426);
     (16, Absolute "https://api.trakt.tv/oauth/device/token", Some 200);
     (16, Absolute "https://api.trakt.tv/users/me", Some 200)] /\
  credentials w = [(JStr "alice", Sample.access_token_response)].
Proof. intros w. repeat split; vm_compute; reflexivity. Qed.

(** ** Aggregation *)

Lemma py_in_false x l : py_in x l = false -> forall y, In y l -> py_eq x y = false.
Proof.
  unfold py_in. intros H y Hy.
  destruct (py_eq x y) eqn:E; [|reflexivity].
  assert (existsb (py_eq x) l = true) by (apply existsb_exists; eauto). congruence.
Qed.

Lemma distinct_nil : distinct [].
Proof. intros i j x y _ H. rewrite lookup_nil in H. discriminate. Qed.

(** Appending a record that is not yet there keeps the list free of
    repeats. *)
Lemma append_new_distinct processed show :
  distinct processed -> distinct (Trakt.append_new None processed show).
Proof.
  intros Hd. unfold Trakt.append_new.
  destruct (py_in show processed) eqn:Ein; [exact Hd|].
  intros i j x y Hij Hi Hj.
  destruct (decide (j < length processed)%nat) as [Hj'|Hj'].
  - rewrite lookup_app_l in Hi, Hj by lia. exact (Hd i j x y Hij Hi Hj).
  - assert (j = length processed).
    { apply lookup_lt_Some in Hj. rewrite length_app in Hj. simpl in Hj. lia. }
    subst j. rewrite lookup_app_l in Hi by lia.
    rewrite lookup_app_r in Hj by lia. rewrite Nat.sub_diag in Hj. simpl in Hj.
    inversion Hj; subst y.
    apply (py_in_false _ _ Ein). apply list_elem_of_In.
    eapply list_elem_of_lookup_2. exact Hi.
Qed.

Lemma aggregate_distinct shows processed :
  distinct processed -> distinct (Trakt.aggregate None shows processed).
Proof.
  unfold Trakt.aggregate. revert processed.
  induction shows as [|x shows IH]; intros processed Hd; simpl; [exact Hd|].
  apply IH, append_new_distinct, Hd.
Qed.


(** The page loop of an operation that does not wrap its records keeps
    the aggregated list free of repeats. *)
Lemma page_loop_distinct self ep user list_id limit languages fuel :
  Trakt.envelope ep = None ->
  forall page processed w l w',
    distinct processed ->
    Trakt.page_loop fuel self ep user list_id limit languages page processed w
    = (Returned l, w') ->
    distinct l.
Proof.
  intros Hplain. induction fuel as [|fuel IH]; intros page processed w l w' Hd H;
    [discriminate|].
  cbn [Trakt.page_loop] in H. rewrite Hplain in H.
  do 4 bind_inv H.
  destruct (status_code a1 =? 200).
  - do 2 bind_inv H.
    pose proof (aggregate_distinct a4 processed Hd) as Hd'.
    destruct (x_pagination_page_count a1) as [|n|]; try discriminate.
    + inversion H; subst. exact Hd'.
    + destruct (n =? 0); [inversion H; subst; exact Hd'|].
      destruct (page >=? n); [inversion H; subst; exact Hd'|].
      bind_inv H. eapply IH; [exact Hd' | exact H].
  - destruct (Trakt.authenticated ep && (status_code a1 =? 401)); [discriminate|].
    inversion H; subst. exact Hd.
Qed.

(** For the nine operations that append the records as they come, what a
    try or the decorated method returns holds no two equal records. *)
Lemma fetch_distinct self ep user list_id limit languages w l :
  Trakt.envelope ep = None ->
  (result (Trakt.fetch_try self ep user list_id limit languages) w = Returned (Some l) ->
   distinct l) /\
  (result (Trakt.fetch self ep user list_id limit languages) w = Returned (Some l) ->
   distinct l).
Proof.
  intros Hplain.
  assert (Htry : forall w0, result (Trakt.fetch_try self ep user list_id limit languages) w0
                            = Returned (Some l) -> distinct l).
  { intros w0. unfold result, Trakt.fetch_try, try_except. rewrite bind_run.
    destruct (Trakt.page_loop _ _ _ _ _ _ _ _ _ w0) as [[[|x p]|x| |] w'] eqn:E; simpl;
      intros H; inversion H; subst.
    eapply page_loop_distinct; [exact Hplain | apply distinct_nil | exact E]. }
  split; [apply Htry|].
  unfold result, Trakt.fetch, backoff.on_predicate, backoff.on_predicate_run.
  rewrite bind_run.
  destruct (backoff.retry _ _ _ _ _ _ _ w) as [[[[r n] ds]|x| |] w'] eqn:E; simpl;
    try discriminate.
  intros H. inversion H; subst.
  destruct (retry_result_of_call _ _ _ _ _ _ _ _ _ _ E) as (w0 & H0).
  exact (Htry w0 H0).
Qed.

(** C1 fails on the two popular lists.  [get_popular_shows] and
    [get_popular_movies] test the record as received against a list of
    wrapped records, so a record that comes twice, on one page or on two,
    is appended twice. *)
Theorem popular_lists_keep_repeats :
  let a := Sample.show "A" in
  result (Trakt.get_popular_shows Sample.trakt 1000 None)
    (Sample.world_with [Sample.page NoHeader [a; a]] [] [])
  = Returned (Some [JDict [("show", a)]; JDict [("show", a)]]) /\
  result (Trakt.get_popular_movies Sample.trakt 1000 None)
    (Sample.world_with [Sample.page (Count 2) [a]; Sample.page (Count 2) [a]] [] [])
  = Returned (Some [JDict [("movie", a)]; JDict [("movie", a)]]) /\
  ~ distinct [JDict [("show", a)]; JDict [("show", a)]] /\
  result (Trakt.get_trending_shows Sample.trakt 1000 None)
    (Sample.world_with [Sample.page NoHeader [a; a]] [] [])
  = Returned (Some [a]).
Proof.
  intros a. split; [vm_compute; reflexivity|]. split; [vm_compute; reflexivity|].
  split; [|vm_compute; reflexivity].
  intros H. specialize (H 0%nat 1%nat _ _ ltac:(lia) eq_refl eq_refl).
  vm_compute in H. discriminate.
Qed.

(** Repeats on a page and across pages, for an operation that does not
    wrap: each record once, in the order in which it was first seen. *)
Example anticipated_shows_first_seen :
  let a := Sample.show "A" in
  let b := Sample.show "B" in
  result (Trakt.get_anticipated_shows Sample.trakt 1000 None)
    (Sample.world_with [Sample.page (Count 2) [a; b; a];
                        Sample.page (Count 2) [b; a; JInt 3]] [] [])
  = Returned (Some [a; b; JInt 3]).
Proof. vm_compute. reflexivity. Qed.

(** ** The token in the shared headers *)

Lemma oauth_traffic_no_page w w' e :
  oauth_traffic w w' -> In e (drop (length (log w)) (log w')) -> ~ page_sent e.
Proof.
  intros (evs & L & S) Hin Hp. rewrite L, drop_app_length in Hin.
  rewrite Forall_forall in S. apply list_elem_of_In in Hin.
  specialize (S e Hin). destruct e; simpl in *; congruence.
Qed.

(** A try of an operation that sends the user's token: if it got as far
    as a page request, the token is in the shared headers afterwards. *)
Lemma fetch_try_bearer self ep user list_id limit languages w e :
  Trakt.authenticated ep = true ->
  In e (events_of (Trakt.fetch_try self ep user list_id limit languages) w) ->
  page_sent e ->
  bearer (Trakt.headers self) (final (Trakt.fetch_try self ep user list_id limit languages) w).
Proof.
  intros Hauth.
  destruct (fetch_try_loop self ep user list_id limit languages w) as [Hf _].
  unfold events_of. rewrite Hf. unfold final. cbn [Trakt.page_loop]. rewrite Hauth.
  destruct (Trakt.endpoint_url ep user list_id) as [x|u]; simpl.
  { rewrite drop_all. intros []. }
  rewrite (bind_lift_inr _ _ _ u eq_refl). rewrite bind_run.
  destruct (Trakt.oauth_headers self user w) as [o1 w1] eqn:E1.
  pose proof (steps_run _ _ _ _ _ (oauth_traffic_oauth_headers self user) E1) as T1.
  simpl in T1.
  destruct o1 as [h| | |]; simpl;
    try (intros Hin Hp; exfalso; exact (oauth_traffic_no_page _ _ _ T1 Hin Hp)).
  intros _ _.
  destruct (oauth_headers_writes _ _ _ _ _ E1) as (token & Ht).
  match goal with |- bearer _ (snd (?m w1)) =>
    assert (Hk : keeps (Trakt.headers self) m) end.
  { apply oauth_headers_alias in E1. subst h.
    apply steps_bind; [apply keeps_requests_send|]. intros req.
    apply steps_bind; [apply steps_lift|]. intros _.
    destruct (status_code req =? 200).
    - apply steps_bind; [apply steps_response_json|]. intros resp_json.
      apply steps_bind; [apply steps_lift|]. intros shows.
      destruct (x_pagination_page_count req) as [|n|];
        [apply steps_ret | | apply steps_raise].
      destruct (n =? 0); [apply steps_ret|].
      destruct (1 >=? n); [apply steps_ret|].
      apply steps_bind; [apply keeps_time_sleep|]. intros _. apply keeps_page_loop.
    - simpl. destruct (status_code req =? 401); [apply steps_exit | apply steps_ret]. }
  apply (ext_bearer _ _ _ (Hk w1)). exists token. exact Ht.
Qed.

(** The same for the decorated method, whichever try it was. *)
Lemma retry_bearer {A} h (call : M (option A)) :
  keeps h call ->
  (forall w e, In e (events_of call w) -> page_sent e -> bearer h (final call w)) ->
  forall left t seen w e,
    In e (events_of (backoff.retry backoff.expo is_None Trakt.backoff_handler call
                       left t seen) w) ->
    page_sent e ->
    bearer h (final (backoff.retry backoff.expo is_None Trakt.backoff_handler call
                       left t seen) w).
Proof.
  intros Hk Hcall. induction left as [|left IH]; intros t seen w e;
    unfold events_of, final; simpl; rewrite bind_run;
    specialize (Hcall w e); unfold events_of, final in Hcall;
    pose proof (Hk w) as X1; unfold final in X1;
    destruct (call w) as [[[a|]|x| |] w1]; simpl in *; auto.
  destruct (random_uniform_spec 0 (backoff.expo (t - 0)) w1 (expo_nonneg _))
    as (s & w2 & E2 & Hs & _ & _ & _ & _ & _ & L2).
  pose proof (steps_run _ _ _ _ _ (keeps_random_uniform h 0 _) E2) as X2.
  mred. unfold backoff.full_jitter. rewrite E2. simpl.
  rewrite time_sleep_spec by lia. simpl.
  set (w3 := emit (Slept s) (set_clock _ _)).
  assert (X : extends h w1 w3).
  { eapply extends_trans; [exact X2|].
    eapply extends_trans;
      [apply (keeps_handler h (backoff.Details (S t) (backoff.expo (t - 0)) s) w2)|].
    pose proof (keeps_time_sleep h s (emit (Warned s (S t)) w2)) as Y.
    unfold final in Y. rewrite time_sleep_spec in Y by lia. exact Y. }
  specialize (IH (S t) (seen ++ [backoff.Details (S t) (backoff.expo (t - 0)) s]) w3 e).
  pose proof (keeps_retry h call left Hk (S t)
                (seen ++ [backoff.Details (S t) (backoff.expo (t - 0)) s]) w3) as X4.
  unfold events_of, final in IH, X4.
  destruct (backoff.retry backoff.expo is_None Trakt.backoff_handler call left (S t)
              (seen ++ [backoff.Details (S t) (backoff.expo (t - 0)) s]) w3)
    as [o4 w4].
  simpl in *. intros Hin Hp.
  assert (X14 : extends h w w3) by (eapply extends_trans; [exact X1 | exact X]).
  destruct (events_split _ _ _ _ _ X14 X4 Hin) as [H|H]; [|auto].
  destruct (events_split _ _ _ _ _ X1 X H) as [H'|H'].
  - apply (ext_bearer _ _ _ X4), (ext_bearer _ _ _ X). auto.
  - exfalso. unfold w3 in H'. simpl in H'. rewrite L2 in H'.
    rewrite <- app_assoc, drop_app_length in H'.
    destruct H' as [<-|[<-|[]]]; destruct Hp.
Qed.

Lemma fetch_bearer self ep user list_id limit languages w e :
  Trakt.authenticated ep = true ->
  In e (events_of (Trakt.fetch self ep user list_id limit languages) w) ->
  page_sent e ->
  bearer (Trakt.headers self) (final (Trakt.fetch self ep user list_id limit languages) w).
Proof.
  intros Hauth Hin Hp.
  assert (H : bearer (Trakt.headers self)
                (final (Trakt.fetch_run self ep user list_id limit languages) w)).
  { unfold Trakt.fetch_run, backoff.on_predicate_run.
    eapply (retry_bearer (Trakt.headers self)); [apply keeps_fetch_try | | | exact Hp].
    - intros w0 e0. apply fetch_try_bearer. exact Hauth.
    - revert Hin. unfold events_of, final, Trakt.fetch, backoff.on_predicate,
        backoff.on_predicate_run. rewrite bind_run.
      destruct (backoff.retry _ _ _ _ _ _ _ w) as [[x|x| |] w']; simpl; auto. }
  revert H. unfold final, Trakt.fetch, Trakt.fetch_run, backoff.on_predicate.
  rewrite bind_run.
  destruct (backoff.on_predicate_run _ _ _ _ _ w) as [[x|x| |] w']; simpl; auto.
Qed.

(** What two steps in a row add to the log. *)
Lemma events_app h w w1 w2 :
  extends h w w1 -> extends h w1 w2 ->
  drop (length (log w)) (log w2)
  = drop (length (log w)) (log w1) ++ drop (length (log w1)) (log w2).
Proof.
  intros [(e1 & L1 & _) _ _ _] [(e2 & L2 & _) _ _ _].
  rewrite L2, L1, <- app_assoc, !drop_app_length.
  rewrite (app_assoc (log w) e1 e2), drop_app_length. reflexivity.
Qed.

(** The first thing a try of a public operation does is to send a page
    request. *)
Lemma public_fetch_try_sends self ep user list_id limit languages w :
  Trakt.authenticated ep = false ->
  exists t rq rp more,
    events_of (Trakt.fetch_try self ep user list_id limit languages) w
    = Sent t rq rp :: more.
Proof.
  intros Hpub.
  destruct (fetch_try_loop self ep user list_id limit languages w) as [Hf _].
  unfold events_of. rewrite Hf. unfold final. cbn [Trakt.page_loop]. rewrite Hpub.
  assert (Hurl : exists u, Trakt.endpoint_url ep user list_id = inr u)
    by (destruct ep; simpl in *; try discriminate; eauto).
  destruct Hurl as (u & Hurl). rewrite (bind_lift_inr _ _ _ _ Hurl).
  rewrite bind_run. unfold ret at 1. rewrite bind_run.
  pose proof (keeps_requests_send (Trakt.headers self) GET (Absolute u)
                (Trakt.page_payload limit 1 (Trakt.join_languages languages)) None w) as X2.
  unfold final in X2. revert X2. rewrite requests_send_spec. cbv zeta.
  set (w2 := emit _ (set_clock _ (set_inbox _ w))). intros X2. simpl in X2.
  assert (L2 : drop (length (log w)) (log w2)
               = [Sent (clock w) (Request GET (Absolute u)
                    (Trakt.page_payload limit 1 (Trakt.join_languages languages))
                    (deref (Trakt.headers self) w) None) (fst (next_reply w))]).
  { unfold w2. simpl. rewrite drop_app_length. reflexivity. }
  destruct (next_response w) as [req|]; simpl.
  2:{ rewrite drop_app_length. eauto. }
  match goal with |- context [snd (?m w2)] =>
    assert (Hk : keeps (Trakt.headers self) m) end.
  { apply steps_bind; [apply steps_lift|]. intros _.
    destruct (status_code req =? 200).
    - apply steps_bind; [apply steps_response_json|]. intros resp_json.
      apply steps_bind; [apply steps_lift|]. intros shows.
      destruct (x_pagination_page_count req) as [|n|];
        [apply steps_ret | | apply steps_raise].
      destruct (n =? 0); [apply steps_ret|].
      destruct (1 >=? n); [apply steps_ret|].
      apply steps_bind; [apply keeps_time_sleep|]. intros _. apply keeps_page_loop.
    - simpl. apply steps_ret. }
  pose proof (events_app _ _ _ _ X2 (Hk w2)) as Happ. unfold final in Happ.
  rewrite Happ, L2. simpl. eauto.
Qed.

Lemma retry_events_prefix {A} h (call : M (option A)) left t seen w :
  keeps h call ->
  exists more,
    events_of (backoff.retry backoff.expo is_None Trakt.backoff_handler call left t seen) w
    = events_of call w ++ more.
Proof.
  intros Hk. pose proof (Hk w) as X1.
  pose proof (keeps_retry h call left Hk t seen w) as X.
  unfold events_of, final in *. revert X.
  destruct left as [|left]; simpl; rewrite bind_run;
    destruct (call w) as [[[a|]|x| |] w1]; simpl in *;
    try (intros _; exists []; rewrite app_nil_r; reflexivity).
  intros _.
  match goal with |- context [snd (?m w1)] =>
    assert (Hm : keeps h m) end.
  { apply steps_bind; [apply keeps_random_uniform|]. intros s.
    apply steps_bind; [apply keeps_handler|]. intros _.
    apply steps_bind; [apply keeps_time_sleep|]. intros _. apply keeps_retry. exact Hk. }
  pose proof (events_app _ _ _ _ X1 (Hm w1)) as Happ. unfold final in Happ.
  rewrite Happ. eauto.
Qed.

Lemma public_fetch_sends self ep user list_id limit languages w :
  Trakt.authenticated ep = false ->
  exists t rq rp more,
    events_of (Trakt.fetch self ep user list_id limit languages) w = Sent t rq rp :: more.
Proof.
  intros Hpub.
  destruct (public_fetch_try_sends self ep user list_id limit languages w Hpub)
    as (t & rq & rp & more & Ht).
  destruct (retry_events_prefix (Trakt.headers self)
              (Trakt.fetch_try self ep user list_id limit languages) (4 - 1) 0 [] w
              (keeps_fetch_try self ep user list_id limit languages)) as (more' & Hr).
  exists t, rq, rp, (more ++ more').
  assert (Hfr : events_of (Trakt.fetch self ep user list_id limit languages) w
                = events_of (backoff.retry backoff.expo is_None Trakt.backoff_handler
                               (Trakt.fetch_try self ep user list_id limit languages)
                               (4 - 1) 0 []) w).
  { unfold events_of, final, Trakt.fetch, backoff.on_predicate, backoff.on_predicate_run.
    rewrite bind_run.
    destruct (backoff.retry _ _ _ _ _ _ _ w) as [[x|x| |] w']; reflexivity. }
  rewrite Hfr, Hr, Ht. reflexivity.
Qed.

(** In that world the public call that follows does send the token. *)
Example anticipated_shows_sends_the_token :
  let w := Sample.world_with [Sample.page NoHeader [Sample.show "A"]] []
             [("api_key", JStr "id"); ("api_secret", JStr "secret");
              ("alice", JDict [("access_token", JStr "t0k3n"); ("refresh_token", JStr "r");
                               ("created_at", JInt 0); ("expires_in", JInt 7776000)])] in
  let w1 := final (Trakt.oauth_headers Sample.trakt None) w in
  map (fun e => match e with
                | Sent _ rq _ => rq_headers rq !! "Authorization"
                | _ => None
                end)
    (events_of (Trakt.get_anticipated_shows Sample.trakt 1000 None) w1)
  = [Some "Bearer t0k3n"].
Proof. vm_compute. reflexivity. Qed.

(** ** The decorator, one try at a time *)

Lemma pause_length_bounds tries w :
  0 <= pause_length tries w <= backoff.expo (tries - 1).
Proof.
  unfold pause_length. pose proof (expo_nonneg (tries - 1)).
  destruct (entropy w); lia.
Qed.

Section retry_unfolded.
Context {A : Type}.
Variable predicate : A -> bool.
Variable call : M A.
Variable handler : backoff.details -> M unit.
Hypothesis handler_is : handler = Sonarr.backoff_handler \/ handler = Trakt.backoff_handler.

(** The decorator's loop, one try unfolded. *)
Lemma retry_step left t seen w :
  backoff.retry backoff.expo predicate handler call left t seen w =
  match call w with
  | (Returned r, w1) =>
      if predicate r then
        match left with
        | O => (Returned (r, S t, seen), w1)
        | S left' =>
            backoff.retry backoff.expo predicate handler call left' (S t)
              (seen ++ [backoff.Details (S t) (backoff.expo t) (pause_length (S t) w1)])
              (after_pause (S t) w1)
        end
      else (Returned (r, S t, seen), w1)
  | (Raised e, w1) => (Raised e, w1)
  | (SystemExit, w1) => (SystemExit, w1)
  | (Diverged, w1) => (Diverged, w1)
  end.
Proof.
  destruct left as [|left']; simpl; rewrite bind_run;
    destruct (call w) as [[r| e | |] w1]; try reflexivity.
  { destruct (predicate r); reflexivity. }
  destruct (predicate r); [|reflexivity].
  unfold backoff.full_jitter, random_uniform, after_pause, pause_length.
  simpl Nat.sub. rewrite !Nat.sub_0_r.
  pose proof (expo_nonneg t) as Hx.
  destruct w1 as [c i e h cf cr l].
  destruct e as [|d rest];
    destruct handler_is as [-> | ->];
    unfold Sonarr.backoff_handler, Trakt.backoff_handler, bind, time_sleep; simpl;
    try reflexivity;
    (assert (Hd : (Z.max 0 (Z.min (backoff.expo t) d) <? 0) = false) by lia);
    rewrite Hd; reflexivity.
Qed.
End retry_unfolded.

(** C4, as amended.  Let a call be decorated as the clients decorate
    theirs: [backoff.expo], [max_tries=4], the [backoff_handler], and the
    predicate [x is None] on what the call returns ([is_None] and [None]
    for a call that returns an optional value, [json_is_None] and [JNull]
    for [get_profile_id]).  Let the call return [None] in every world of a
    set [P] that neither the call nor a pause leaves.  Started in [P], the
    decorated call makes exactly 4 tries, in the worlds [w], [after_pause 1
    w1], [after_pause 2 w2] and [after_pause 3 w3], and returns [None]; it
    raises nothing.  It backs off after the tries 1, 2 and 3 and at no
    other time: the wait generator gives 1 * 2^0, 1 * 2^1 and 1 * 2^2; the
    seconds waited are the jittered value, between 0 and what the generator
    gave; and each pause does nothing but consume the random draw, log the
    handler's warning and the sleep, and advance the clock by just the
    seconds waited. *)
Theorem retry_policy_exhausted {A : Type} (predicate : A -> bool) (none : A)
    (call : M A) (handler : backoff.details -> M unit) (P : world -> Prop) :
  handler = Sonarr.backoff_handler \/ handler = Trakt.backoff_handler ->
  predicate none = true ->
  (forall w, P w -> result call w = Returned none /\ P (final call w)) ->
  (forall tries w, P w -> P (after_pause tries w)) ->
  forall w, P w ->
  let w1 := final call w in
  let s1 := pause_length 1 w1 in
  let w2 := final call (after_pause 1 w1) in
  let s2 := pause_length 2 w2 in
  let w3 := final call (after_pause 2 w2) in
  let s3 := pause_length 3 w3 in
  let w4 := final call (after_pause 3 w3) in
  backoff.on_predicate_run backoff.expo predicate handler call 4 w
  = (Returned (none, 4%nat,
               [backoff.Details 1 (1 * 2 ^ 0) s1; backoff.Details 2 (1 * 2 ^ 1) s2;
                backoff.Details 3 (1 * 2 ^ 2) s3]), w4) /\
  backoff.on_predicate backoff.expo predicate handler call 4 w = (Returned none, w4) /\
  0 <= s1 <= 1 * 2 ^ 0 /\ 0 <= s2 <= 1 * 2 ^ 1 /\ 0 <= s3 <= 1 * 2 ^ 2 /\
  Forall (fun '(tries, s, v) =>
            log (after_pause tries v) = log v ++ [Warned s tries; Slept s] /\
            clock (after_pause tries v) = clock v + s /\
            entropy (after_pause tries v) = tail (entropy v) /\
            inbox (after_pause tries v) = inbox v /\
            heap (after_pause tries v) = heap v /\
            cfg_trakt (after_pause tries v) = cfg_trakt v /\
            credentials (after_pause tries v) = credentials v)
    [(1%nat, s1, w1); (2%nat, s2, w2); (3%nat, s3, w3)].
Proof.
  intros Hh Hnone Hcall Hpause w HP w1 s1 w2 s2 w3 s3 w4.
  assert (Hstep : forall v, P v ->
            call v = (Returned none, final call v) /\ P (final call v)).
  { intros v Hv. destruct (Hcall v Hv) as [Hr Hf]. split; [|exact Hf].
    unfold result, final in *. destruct (call v) as [o v']. simpl in *. congruence. }
  destruct (Hstep w HP) as [E1 P1]. fold w1 in E1, P1.
  destruct (Hstep _ (Hpause 1%nat w1 P1)) as [E2 P2]. fold w2 in E2, P2.
  destruct (Hstep _ (Hpause 2%nat w2 P2)) as [E3 P3]. fold w3 in E3, P3.
  destruct (Hstep _ (Hpause 3%nat w3 P3)) as [E4 _]. fold w4 in E4.
  assert (Hrun : backoff.on_predicate_run backoff.expo predicate handler call 4 w
                 = (Returned (none, 4%nat,
                      [backoff.Details 1 (1 * 2 ^ 0) s1; backoff.Details 2 (1 * 2 ^ 1) s2;
                       backoff.Details 3 (1 * 2 ^ 2) s3]), w4)).
  { unfold backoff.on_predicate_run. change (4 - 1)%nat with 3%nat.
    rewrite (retry_step predicate call handler Hh), E1, Hnone.
    rewrite (retry_step predicate call handler Hh), E2, Hnone.
    rewrite (retry_step predicate call handler Hh), E3, Hnone.
    rewrite (retry_step predicate call handler Hh), E4, Hnone.
    reflexivity. }
  split; [exact Hrun|].
  split. { unfold backoff.on_predicate. rewrite bind_run, Hrun. reflexivity. }
  pose proof (pause_length_bounds 1 w1) as B1.
  pose proof (pause_length_bounds 2 w2) as B2.
  pose proof (pause_length_bounds 3 w3) as B3.
  split; [exact B1|]. split; [exact B2|]. split; [exact B3|].
  repeat (apply List.Forall_cons;
          [unfold after_pause; simpl; rewrite <- app_assoc; repeat split; reflexivity|]).
  apply List.Forall_nil.
Qed.

(** With the network down [get_series] and [get_profile_id] are such
    calls; with the draws 0, 1 and 3 they sleep 0, 1 and 3 seconds. *)
Lemma retry_policy_exhausted_witness :
  let w := Sample.world_with [] [0; 1; 3] [] in
  let get_series := Sonarr.get_series Sample.sonarr in
  let get_profile_id := Sonarr.get_profile_id Sample.ascii_lower Sample.sonarr "HD-1080p" in
  (result get_series w = Returned None /\
   sleeps (events_of get_series w) = [0; 1; 3] /\
   clock (final get_series w) = clock w + 4) /\
  (result get_profile_id w = Returned JNull /\
   sleeps (events_of get_profile_id w) = [0; 1; 3] /\
   clock (final get_profile_id w) = clock w + 4).
Proof.
  intros w get_series get_profile_id.
  split.
  - destruct (retry_policy_exhausted is_None None (Sonarr.get_series_try Sample.sonarr)
                Sonarr.backoff_handler (fun v => inbox v = []) (or_introl eq_refl) eq_refl)
      with (w := w) as (_ & E & _).
    + intros v Hv. unfold Sonarr.get_series_try, result, final, try_except, bind,
        requests_send, next_reply. rewrite Hv. split; reflexivity.
    + intros tries v Hv. exact Hv.
    + reflexivity.
    + unfold get_series, Sonarr.get_series, result, events_of, final. rewrite E.
      vm_compute. auto.
  - destruct (retry_policy_exhausted json_is_None JNull
                (Sonarr.get_profile_id_try Sample.ascii_lower Sample.sonarr "HD-1080p")
                Sonarr.backoff_handler (fun v => inbox v = []) (or_introl eq_refl) eq_refl)
      with (w := w) as (_ & E & _).
    + intros v Hv. unfold Sonarr.get_profile_id_try, result, final, try_except, bind,
        requests_send, next_reply. rewrite Hv. split; reflexivity.
    + intros tries v Hv. exact Hv.
    + reflexivity.
    + unfold get_profile_id, Sonarr.get_profile_id, result, events_of, final. rewrite E.
      vm_compute. auto.
Defined.

Lemma next_response_head w : next_response w = head (inbox w) ≫= answer.
Proof. unfold next_response, next_reply. destruct (inbox w); reflexivity. Qed.

Lemma tail_drop {A} (l : list A) : tail l = drop 1 l.
Proof. destruct l; [reflexivity | simpl; rewrite drop_0; reflexivity]. Qed.

Lemma drop_tail {A} n (l : list A) : drop n (tail l) = drop (S n) l.
Proof. destruct l; [simpl; rewrite drop_nil|]; reflexivity. Qed.

Lemma next_reply_tail w : snd (next_reply w) = tail (inbox w).
Proof. unfold next_reply. destruct (inbox w); reflexivity. Qed.

Lemma requests_of_app a b : requests_of (a ++ b) = requests_of a ++ requests_of b.
Proof. apply omap_app. Qed.

Lemma sleeps_app a b : sleeps (a ++ b) = sleeps a ++ sleeps b.
Proof. apply omap_app. Qed.

Lemma warnings_app a b : warnings (a ++ b) = warnings a ++ warnings b.
Proof. apply omap_app. Qed.

(** What sending one request leaves behind. *)
Lemma requests_send_final m u ps h js w :
  let w1 := final (requests_send m u ps h js) w in
  inbox w1 = tail (inbox w) /\ heap w1 = heap w /\ cfg_trakt w1 = cfg_trakt w /\
  credentials w1 = credentials w /\ entropy w1 = entropy w /\
  log w1 = log w ++ [Sent (clock w) (Request m u ps (deref h w) js) (fst (next_reply w))].
Proof.
  unfold final. rewrite requests_send_spec. simpl. rewrite next_reply_tail. auto 10.
Qed.

Section retry_sends.
Context {A : Type}.
Variables (predicate : A -> bool) (call : M A) (handler : backoff.details -> M unit).
Variables (m : verb) (u : target) (ps : list (string * json)) (h : ref) (js : option json).
Hypothesis handler_is : handler = Sonarr.backoff_handler \/ handler = Trakt.backoff_handler.
Hypothesis call_sends :
  forall w, exists a, call w = (Returned a, final (requests_send m u ps h js) w).

(** A decorated call each try of which sends one request and returns:
    it returns after [n] tries, having sent the same request [n] times and
    taken [n] replies; each pause lasts what the decorator reports; the
    dictionaries are left alone. *)
Lemma retry_sends left :
  forall t seen w,
    exists r n new w' evs,
      backoff.retry backoff.expo predicate handler call left t seen w
      = (Returned (r, (t + n)%nat, seen ++ new), w') /\
      (1 <= n <= S left)%nat /\ (predicate r = true -> n = S left) /\
      inbox w' = drop n (inbox w) /\ heap w' = heap w /\
      cfg_trakt w' = cfg_trakt w /\ credentials w' = credentials w /\
      log w' = log w ++ evs /\
      requests_of evs = replicate n (Request m u ps (deref h w) js) /\
      sleeps evs = map backoff.wait new /\
      warnings evs = map (fun d => (backoff.wait d, backoff.tries d)) new /\
      map backoff.tries new = seq (S t) (n - 1) /\
      map backoff.value new = backoff.expo <$> seq t (n - 1) /\
      Forall (fun d => 0 <= backoff.wait d <= backoff.value d) new /\
      backoffs evs
      = flat_map (fun d => [Warned (backoff.wait d) (backoff.tries d);
                            Slept (backoff.wait d)]) new.
Proof.
  induction left as [|left IH]; intros t seen w;
    rewrite (retry_step predicate call handler handler_is);
    destruct (call_sends w) as [a ->];
    set (w1 := final (requests_send m u ps h js) w);
    destruct (requests_send_final m u ps h js w) as (Hi & Hh & Hc & Hcr & _ & Hl);
    fold w1 in Hi, Hh, Hc, Hcr, Hl.
  - exists a, 1%nat, [], w1, [Sent (clock w) (Request m u ps (deref h w) js) (fst (next_reply w))].
    replace (t + 1)%nat with (S t) by lia. rewrite app_nil_r.
    split. { destruct (predicate a); reflexivity. }
    rewrite Hi, tail_drop. repeat split; auto.
  - destruct (predicate a) eqn:Ep.
    + set (d := backoff.Details (S t) (backoff.expo t) (pause_length (S t) w1)).
      destruct (IH (S t) (seen ++ [d]) (after_pause (S t) w1))
        as (r & n & new & w' & evs & E & Hn & Hp & Hi' & Hh' & Hc' & Hcr' & Hl' & Hrq
            & Hsl & Hwn & Htr & Hva & Hwa & Hbk).
      exists r, (S n), (d :: new), w',
        (Sent (clock w) (Request m u ps (deref h w) js) (fst (next_reply w))
         :: Warned (pause_length (S t) w1) (S t) :: Slept (pause_length (S t) w1) :: evs).
      simpl in Hi', Hh', Hc', Hcr', Hl', Hrq.
      split. { rewrite E. rewrite <- app_assoc. simpl.
               replace (S (t + n))%nat with (t + S n)%nat by lia. reflexivity. }
      split. { lia. }
      split. { intros Hr. rewrite (Hp Hr). reflexivity. }
      split. { rewrite Hi', Hi. apply drop_tail. }
      split. { congruence. }
      split. { congruence. }
      split. { congruence. }
      split. { rewrite Hl', Hl. rewrite <- !app_assoc. reflexivity. }
      split. { simpl. rewrite Hrq. unfold deref. simpl. rewrite Hh. reflexivity. }
      split. { simpl. rewrite Hsl. reflexivity. }
      split. { simpl. rewrite Hwn. reflexivity. }
      replace (S n - 1)%nat with (S (n - 1)) by lia.
      split. { simpl. rewrite Htr. reflexivity. }
      split. { simpl. rewrite Hva. reflexivity. }
      split.
      { constructor; [|exact Hwa]. simpl.
        pose proof (pause_length_bounds (S t) w1) as Hb. simpl in Hb.
        rewrite Nat.sub_0_r in Hb. exact Hb. }
      simpl. rewrite Hbk. reflexivity.
    + exists a, 1%nat, [], w1,
        [Sent (clock w) (Request m u ps (deref h w) js) (fst (next_reply w))].
      replace (t + 1)%nat with (S t) by lia. rewrite app_nil_r.
      split; [reflexivity|]. rewrite Hi, tail_drop.
      repeat split; auto; try lia. congruence.
Qed.
End retry_sends.

(** ** The Sonarr client *)

(** The decorator makes steps of any relation of which its calls and its
    pauses are steps. *)
Lemma steps_retry_any (F : frame) {A} (predicate : A -> bool) (call : M A) handler :
  handler = Sonarr.backoff_handler \/ handler = Trakt.backoff_handler ->
  steps F call ->
  (forall t w, F w (after_pause t w)) ->
  forall left t seen,
    steps F (backoff.retry backoff.expo predicate handler call left t seen).
Proof.
  intros Hh Hcall Hpause. induction left as [|left IH]; intros t seen w;
    unfold final; rewrite (retry_step predicate call handler Hh);
    specialize (Hcall w); unfold final in Hcall;
    destruct (call w) as [[r| e | |] w1]; simpl in *; try exact Hcall.
  - destruct (predicate r); exact Hcall.
  - destruct (predicate r); [|exact Hcall].
    eapply rel_trans; [exact Hcall|].
    eapply rel_trans; [apply Hpause|]. apply IH.
Qed.

Lemma same_headers_pause h t w : same_headers h w (after_pause t w).
Proof.
  split; [reflexivity|].
  exists [Warned (pause_length t w) t; Slept (pause_length t w)].
  split; [simpl; rewrite <- app_assoc; reflexivity|].
  repeat constructor.
Qed.

Lemma same_headers_send h m u ps js :
  steps (same_headers_frame h) (requests_send m u ps h js).
Proof.
  intros w. unfold final. rewrite requests_send_spec. simpl.
  eapply same_headers_quiet; [reflexivity | reflexivity | reflexivity].
Qed.

(** The scan is a function of the list: it has no effect. *)
Lemma for_profile_pure lower name profiles :
  exists r : exn + json, forall w, Sonarr.for_profile lower name profiles w = lift r w.
Proof.
  induction profiles as [|p rest IH]; simpl; [exists (inr JNull); reflexivity|].
  mred.
  destruct (py_getitem p "name") as [e|v]; mred; [exists (inl e); reflexivity|].
  destruct (py_lower lower v) as [e|n]; mred; [exists (inl e); reflexivity|].
  destruct (String.eqb n (lower name)); mred.
  - destruct (py_getitem p "id") as [e|i]; mred;
      [exists (inl e) | exists (inr i)]; reflexivity.
  - destruct (py_getitem p "id") as [e|i]; mred; [exists (inl e); reflexivity|].
    exact IH.
Qed.

Section sonarr_tries.
Variable self : Sonarr.t.

Lemma get_series_try_is w :
  Sonarr.get_series_try self w
  = (Returned (next_response w ≫= usable_series),
     final (requests_send GET (Joined (Sonarr.server_url self) "api/series") []
              (Sonarr.headers self) None) w).
Proof.
  unfold Sonarr.get_series_try, final. mred. rewrite requests_send_spec.
  destruct (next_response w) as [r|]; simpl; [|reflexivity].
  unfold usable_series. destruct (status_code r =? 200); [|reflexivity].
  destruct (decoded r) as [v|]; mred; [|reflexivity].
  destruct (py_len v); reflexivity.
Qed.

Lemma get_profile_id_try_sends lower name w :
  exists a,
    Sonarr.get_profile_id_try lower self name w
    = (Returned a,
       final (requests_send GET (Joined (Sonarr.server_url self) "api/profile") []
                (Sonarr.headers self) None) w).
Proof.
  unfold Sonarr.get_profile_id_try, final. mred. rewrite requests_send_spec.
  destruct (next_response w) as [r|]; simpl; [|eexists; reflexivity].
  destruct (status_code r =? 200); [|eexists; reflexivity].
  destruct (decoded r) as [v|]; mred; [|eexists; reflexivity].
  destruct (py_iter v) as [e|l]; mred; [eexists; reflexivity|].
  destruct (for_profile_pure lower name l) as [o Ho]. rewrite Ho.
  destruct o; eexists; reflexivity.
Qed.

Lemma add_series_try_sends tvdbid title slug profile root search w :
  exists a,
    Sonarr.add_series_try self tvdbid title slug profile root search w
    = (Returned a,
       final (requests_send POST (Joined (Sonarr.server_url self) "api/series") []
                (Sonarr.headers self)
                (Some (Sonarr.add_series_payload tvdbid title slug profile root search))) w).
Proof.
  unfold Sonarr.add_series_try, final. mred. rewrite requests_send_spec.
  destruct (next_response w) as [r|]; simpl; [|eexists; reflexivity].
  destruct (status_code r =? 201); mred.
  - destruct (decoded r) as [v|]; mred; [|eexists; reflexivity].
    destruct (py_getitem v "tvdbId") as [e|x]; mred; [eexists; reflexivity|].
    destruct (py_eq x (JInt tvdbid)); mred; [eexists; reflexivity|].
    destruct ((status_code r =? 401) && is_substring "errorMessage" (text r)); mred;
      [|eexists; reflexivity].
    destruct (py_getitem v "errorMessage"); mred; eexists; reflexivity.
  - destruct ((status_code r =? 401) && is_substring "errorMessage" (text r)); mred;
      [|eexists; reflexivity].
    destruct (decoded r) as [v|]; mred; [|eexists; reflexivity].
    destruct (py_getitem v "errorMessage"); mred; eexists; reflexivity.
Qed.
End sonarr_tries.

Lemma events_of_app {A} (m : M A) w evs :
  log (final m w) = log w ++ evs -> events_of m w = evs.
Proof. intros H. unfold events_of. rewrite H. apply drop_app_length. Qed.

(** The decorated methods of the clients: four tries at most. *)
Lemma on_predicate_retried {A} (predicate : A -> bool) (try : M A) handler m u ps h js :
  handler = Sonarr.backoff_handler \/ handler = Trakt.backoff_handler ->
  (forall w, exists a, try w = (Returned a, final (requests_send m u ps h js) w)) ->
  forall w,
    exists a n ds,
      backoff.on_predicate_run backoff.expo predicate handler try 4 w
      = (Returned (a, n, ds), final (backoff.on_predicate backoff.expo predicate handler try 4) w) /\
      heap (final (backoff.on_predicate backoff.expo predicate handler try 4) w) = heap w /\
      retried predicate (backoff.on_predicate backoff.expo predicate handler try 4)
        (Request m u ps (deref h w) js) w n.
Proof.
  intros Hh Htry w.
  destruct (retry_sends predicate try handler m u ps h js Hh Htry 3 0 [] w)
    as (r & n & new & w' & evs & E & Hn & Hp & Hi & Hhp & _ & _ & Hl & Hrq & Hsl & Hwn
        & Htr & Hva & Hwa & Hbk).
  change (0 + n)%nat with n in E. change ([] ++ new) with new in E.
  assert (Ef : backoff.on_predicate backoff.expo predicate handler try 4 w = (Returned r, w')).
  { unfold backoff.on_predicate, backoff.on_predicate_run. rewrite bind_run.
    change (4 - 1)%nat with 3%nat. rewrite E. reflexivity. }
  exists r, n, new. unfold final, result, backoff.on_predicate_run.
  change (4 - 1)%nat with 3%nat. rewrite Ef, E. simpl.
  split; [reflexivity|]. split; [exact Hhp|].
  assert (Hev : events_of (backoff.on_predicate backoff.expo predicate handler try 4) w = evs).
  { apply events_of_app. unfold final. rewrite Ef. exact Hl. }
  unfold retried. unfold final, result. rewrite Hev, Ef. simpl.
  assert (Hlen : length new = (n - 1)%nat).
  { rewrite <- (length_map backoff.tries), Htr, length_seq. reflexivity. }
  split; [lia|]. split; [exists r; split; [reflexivity | intros Hr; apply Hp in Hr; lia]|].
  split; [exact Hrq|]. split; [exact Hi|].
  split. { rewrite Hsl, length_map. exact Hlen. }
  split.
  { intros k s Hk. rewrite Hsl, list_lookup_fmap in Hk.
    destruct (new !! k) as [d|] eqn:Ed; [|discriminate]. simpl in Hk.
    assert (s = backoff.wait d) by congruence. subst s.
    assert (Hv : backoff.value d = backoff.expo k).
    { assert (Hm : (backoff.value <$> new) !! k = Some (backoff.value d))
        by (rewrite list_lookup_fmap, Ed; reflexivity).
      change (backoff.value <$> new) with (map backoff.value new) in Hm.
      rewrite Hva, list_lookup_fmap in Hm.
      destruct (seq 0 (n - 1) !! k) as [j|] eqn:Ej; [|discriminate].
      apply lookup_seq in Ej. destruct Ej as [-> _]. simpl in Hm. congruence. }
    pose proof (proj1 (Forall_lookup _ _) Hwa k d Ed) as Hb. simpl in Hb.
    rewrite Hv in Hb. unfold backoff.expo in Hb. lia. }
  split.
  { rewrite Hsl.
    destruct new as [|d1 [|d2 [|d3 [|d4 more]]]]; simpl in Hlen; try lia;
      simpl in Hva; unfold total; simpl;
      repeat match goal with
             | H : Forall _ (_ :: _) |- _ => apply Forall_cons in H; destruct H
             end;
      destruct n as [|[|[|[|]]]]; simpl in Hva; try lia;
      inversion Hva; unfold backoff.expo in *; simpl in *; lia. }
  split.
  { rewrite Hwn, Hsl, <- Htr. clear. induction new as [|d new IH]; [reflexivity|].
    simpl. rewrite IH. reflexivity. }
  rewrite Hbk, Hsl, <- Htr. clear. induction new as [|d new IH]; [reflexivity|].
  simpl. rewrite IH. reflexivity.
Qed.

Lemma validate_api_key_sends self w :
  exists b,
    Sonarr.validate_api_key self w
    = (Returned b,
       final (requests_send GET (Joined (Sonarr.server_url self) "api/system/status") []
                (Sonarr.headers self) None) w).
Proof.
  unfold Sonarr.validate_api_key, final. mred. rewrite requests_send_spec.
  destruct (next_response w) as [r|]; simpl; [|eexists; reflexivity].
  destruct (status_code r =? 200); [|eexists; reflexivity].
  destruct (decoded r) as [v|]; mred; [|eexists; reflexivity].
  destruct (py_contains "version" v) as [e|[|]]; mred; eexists; reflexivity.
Qed.

(** A computation that ends where sending one request ends makes the
    steps that sending makes. *)
Lemma steps_sends (F : frame) {A} (call : M A) (send : M response) :
  steps F send -> (forall w, exists a, call w = (Returned a, final send w)) ->
  steps F call.
Proof.
  intros Hs Hc w. destruct (Hc w) as [a E]. unfold final at 1. rewrite E. apply Hs.
Qed.

Lemma same_headers_sonarr_run lower self c :
  steps (same_headers_frame (Sonarr.headers self)) (sonarr_run lower self c).
Proof.
  pose proof (same_headers_send (Sonarr.headers self)) as Hsend.
  destruct c; simpl; apply steps_bind; try (intros; apply steps_ret).
  - eapply steps_sends; [apply Hsend | apply validate_api_key_sends].
  - unfold Sonarr.get_series, backoff.on_predicate, backoff.on_predicate_run.
    apply steps_bind; [|intros; apply steps_ret].
    apply steps_retry_any; [left; reflexivity | | apply same_headers_pause].
    eapply steps_sends; [apply Hsend|].
    intros w. rewrite get_series_try_is. eexists; reflexivity.
  - unfold Sonarr.get_profile_id, backoff.on_predicate, backoff.on_predicate_run.
    apply steps_bind; [|intros; apply steps_ret].
    apply steps_retry_any; [left; reflexivity | | apply same_headers_pause].
    eapply steps_sends; [apply Hsend | apply get_profile_id_try_sends].
  - unfold Sonarr.add_series, backoff.on_predicate, backoff.on_predicate_run.
    apply steps_bind; [|intros; apply steps_ret].
    apply steps_retry_any; [left; reflexivity | | apply same_headers_pause].
    eapply steps_sends; [apply Hsend | apply add_series_try_sends].
Qed.

Lemma same_headers_sonarr_session lower self cs :
  steps (same_headers_frame (Sonarr.headers self)) (sonarr_session lower self cs).
Proof.
  induction cs as [|c cs IH]; simpl; [apply steps_ret|].
  apply steps_bind; [apply same_headers_sonarr_run | intros; exact IH].
Qed.

(** X1.  A Sonarr client is built with a header dictionary of its own,
    holding the content type and the API key it was given; building it
    touches no dictionary that was there before.  No method of the client
    writes to the dictionary: after any sequence of calls it is what it
    was, and every request these calls made was sent with exactly these
    two headers. *)
Theorem sonarr_headers_are_constant (lower : string -> string)
    (server_url api_key : string) (cs : list sonarr_call) (w : world) :
  exists self w1,
    Sonarr.__init__ server_url api_key w = (Returned self, w1) /\
    Sonarr.server_url self = server_url /\ Sonarr.api_key self = api_key /\
    heap w !! Sonarr.headers self = None /\
    (forall h, h <> Sonarr.headers self -> heap w1 !! h = heap w !! h) /\
    deref (Sonarr.headers self) w1 = sonarr_headers api_key /\
    deref (Sonarr.headers self) (final (sonarr_session lower self cs) w1)
    = sonarr_headers api_key /\
    Forall (sent_with (sonarr_headers api_key))
      (events_of (sonarr_session lower self cs) w1).
Proof.
  set (h := fresh (dom (heap w))).
  set (w1 := set_heap (<[h := sonarr_headers api_key]> (heap w)) w).
  exists (Sonarr.Self server_url api_key h), w1.
  assert (Hd : deref h w1 = sonarr_headers api_key).
  { unfold deref, w1. simpl. rewrite lookup_insert_eq. reflexivity. }
  split; [reflexivity|]. split; [reflexivity|]. split; [reflexivity|].
  split. { apply not_elem_of_dom. apply is_fresh. }
  split. { intros h' Hne. unfold w1. simpl. apply lookup_insert_ne.
           intros Heq. apply Hne. symmetry. exact Heq. }
  split; [exact Hd|].
  destruct (same_headers_sonarr_session lower (Sonarr.Self server_url api_key h) cs w1)
    as [Hheap (evs & Hl & Hall)].
  simpl in Hheap, Hl, Hall. rewrite Hd in Hall.
  split.
  - unfold deref in *. simpl. rewrite Hheap. exact Hd.
  - rewrite (events_of_app _ _ _ Hl). exact Hall.
Qed.

(** *** [get_series] *)

Lemma after_pause_inbox t w : inbox (after_pause t w) = inbox w.
Proof. reflexivity. Qed.

(** The value of the decorated call, by the replies waiting. *)
Lemma get_series_retry self left :
  forall t seen w,
    exists n ds w',
      backoff.retry backoff.expo is_None Sonarr.backoff_handler
        (Sonarr.get_series_try self) left t seen w
      = (Returned (head (omap (fun rp => answer rp ≫= usable_series)
                           (take (S left) (inbox w))), n, ds), w').
Proof.
  induction left as [|left IH]; intros t seen w;
    rewrite (retry_step is_None _ _ (or_introl eq_refl)), get_series_try_is;
    rewrite next_response_head;
    destruct (requests_send_final GET (Joined (Sonarr.server_url self) "api/series") []
                (Sonarr.headers self) None w) as (Hi & _);
    destruct (inbox w) as [|rp rest]; simpl in *.
  - eexists _, _, _. reflexivity.
  - destruct (answer rp ≫= usable_series) as [v|]; simpl; eexists _, _, _; reflexivity.
  - match goal with |- context [backoff.retry _ _ _ _ left ?t' ?s' ?w'] =>
      destruct (IH t' s' w') as (n & ds & w'' & ->) end.
    rewrite after_pause_inbox, Hi. simpl. eexists _, _, _. reflexivity.
  - destruct (answer rp ≫= usable_series) as [v|] eqn:Ev; simpl.
    + eexists _, _, _. reflexivity.
    + match goal with |- context [backoff.retry _ _ _ _ left ?t' ?s' ?w'] =>
        destruct (IH t' s' w') as (n & ds & w'' & ->) end.
      rewrite after_pause_inbox, Hi. eexists _, _, _. reflexivity.
Qed.

(** The replies skipped before the one that is accepted. *)
Lemma get_series_retry_skips self rp v rest skipped :
  answer rp ≫= usable_series = Some v ->
  Forall (fun rp => answer rp ≫= usable_series = None) skipped ->
  forall left t seen w,
    inbox w = skipped ++ rp :: rest -> (length skipped <= left)%nat ->
    exists ds w',
      backoff.retry backoff.expo is_None Sonarr.backoff_handler
        (Sonarr.get_series_try self) left t seen w
      = (Returned (Some v, (t + S (length skipped))%nat, ds), w') /\
      inbox w' = rest.
Proof.
  intros Hv. induction skipped as [|s skipped IH]; intros Hsk left t seen w Hin Hlen;
    rewrite (retry_step is_None _ _ (or_introl eq_refl)), get_series_try_is;
    rewrite next_response_head;
    destruct (requests_send_final GET (Joined (Sonarr.server_url self) "api/series") []
                (Sonarr.headers self) None w) as (Hi & _);
    rewrite Hin in *; simpl in *.
  - rewrite Hv. simpl. replace (t + 1)%nat with (S t) by lia.
    eexists _, _. split; [reflexivity | exact Hi].
  - apply Forall_cons in Hsk. destruct Hsk as [Hs Hsk]. rewrite Hs. simpl.
    destruct left as [|left]; [lia|].
    match goal with |- context [backoff.retry _ _ _ _ left ?t' ?s' ?w'] =>
      destruct (IH Hsk left t' s' w') as (ds & w'' & E & Hr) end.
    { rewrite after_pause_inbox. exact Hi. }
    { lia. }
    rewrite E. replace (S t + S (length skipped))%nat with (t + S (S (length skipped)))%nat by lia.
    eexists _, _. split; [reflexivity | exact Hr].
Qed.

(** X2.  [get_series] makes up to four tries, each taking one reply, and
    returns the body of the first of these replies that is a response
    with status 200 and a decoded body that has a length; it returns
    [None] when none of the first four replies is one.  The replies
    before the accepted one are taken, those after it are left. *)
Theorem get_series_first_usable (self : Sonarr.t) (w : world) :
  result (Sonarr.get_series self) w
  = Returned (head (omap (fun rp => answer rp ≫= usable_series) (take 4 (inbox w)))) /\
  (forall skipped rp v rest,
     inbox w = skipped ++ rp :: rest -> (length skipped < 4)%nat ->
     Forall (fun rp => answer rp ≫= usable_series = None) skipped ->
     answer rp ≫= usable_series = Some v ->
     result (Sonarr.get_series self) w = Returned (Some v) /\
     inbox (final (Sonarr.get_series self) w) = rest /\
     length (requests_of (events_of (Sonarr.get_series self) w)) = S (length skipped)).
Proof.
  split.
  - destruct (get_series_retry self 3 0 [] w) as (n & ds & w' & E).
    unfold result, Sonarr.get_series, backoff.on_predicate, backoff.on_predicate_run.
    rewrite bind_run. change (4 - 1)%nat with 3%nat. rewrite E. reflexivity.
  - intros skipped rp v rest Hin Hlen Hsk Hv.
    destruct (get_series_retry_skips self rp v rest skipped Hv Hsk 3 0 [] w Hin)
      as (ds & w' & E & Hr); [lia|].
    destruct (on_predicate_retried is_None (Sonarr.get_series_try self)
                Sonarr.backoff_handler GET (Joined (Sonarr.server_url self) "api/series")
                [] (Sonarr.headers self) None (or_introl eq_refl)) with (w := w)
      as (a & n & ds' & E' & _ & Hret).
    { intros w0. rewrite get_series_try_is. eexists; reflexivity. }
    unfold backoff.on_predicate_run in E'. change (4 - 1)%nat with 3%nat in E'.
    rewrite E in E'. inversion E' as [[Ha Hn Hds Hw]].
    destruct Hret as (_ & _ & Hrq & _).
    split; [|split].
    + unfold result, Sonarr.get_series, backoff.on_predicate, backoff.on_predicate_run.
      rewrite bind_run. change (4 - 1)%nat with 3%nat. rewrite E. reflexivity.
    + unfold Sonarr.get_series. rewrite <- Hw. exact Hr.
    + unfold Sonarr.get_series. rewrite Hrq, length_replicate. lia.
Qed.

(** Two failures, then the list of series: the list, after three
    requests, and the reply that follows is not taken. *)
Lemma get_series_first_usable_witness :
  let series := JList [JDict [("title", JStr "Dark"); ("tvdbId", JInt 334824)]] in
  let w := Sample.world_with
             [Sample.respond 503 NoHeader "" None; Reply 30 None;
              Sample.respond 200 NoHeader "" (Some series);
              Sample.respond 200 NoHeader "" (Some (JList []))] [] [] in
  result (Sonarr.get_series Sample.sonarr) w = Returned (Some series) /\
  inbox (final (Sonarr.get_series Sample.sonarr) w)
  = [Sample.respond 200 NoHeader "" (Some (JList []))] /\
  length (requests_of (events_of (Sonarr.get_series Sample.sonarr) w)) = 3%nat.
Proof.
  intros series w.
  apply (proj2 (get_series_first_usable Sample.sonarr w)
           [Sample.respond 503 NoHeader "" None; Reply 30 None]
           (Sample.respond 200 NoHeader "" (Some series)) series
           [Sample.respond 200 NoHeader "" (Some (JList []))]).
  - reflexivity.
  - simpl. lia.
  - repeat constructor.
  - reflexivity.
Defined.

(** *** [get_profile_id] *)

Lemma profile_entry_inv p n id :
  profile_entry p = Some (n, id) ->
  py_getitem p "name" = inr (JStr n) /\ py_getitem p "id" = inr id.
Proof.
  unfold profile_entry.
  destruct (py_getitem p "name") as [e|[| | |s| |]]; try discriminate.
  destruct (py_getitem p "id") as [e|i]; try discriminate.
  intros H; inversion H; subst. auto.
Qed.

Section for_profile.
Variables (lower : string -> string) (name : string).

(** The scan goes past the profiles that are named otherwise. *)
Lemma for_profile_other before rest w :
  forallb (other_profile lower name) before = true ->
  Sonarr.for_profile lower name (before ++ rest) w
  = Sonarr.for_profile lower name rest w.
Proof.
  induction before as [|p before IH]; intros Hall; [reflexivity|].
  simpl in Hall. apply andb_true_iff in Hall. destruct Hall as [Hp Hall].
  unfold other_profile in Hp.
  destruct (profile_entry p) as [[n id]|] eqn:Ep; [|discriminate].
  apply profile_entry_inv in Ep. destruct Ep as [En Ei].
  simpl. mred. rewrite En. unfold py_lower. mred.
  destruct (String.eqb (lower n) (lower name)); [discriminate|].
  mred. rewrite Ei. mred. apply IH. exact Hall.
Qed.

(** It stops at the first profile of that name. *)
Lemma for_profile_match p n id rest w :
  profile_entry p = Some (n, id) -> lower n = lower name ->
  Sonarr.for_profile lower name (p :: rest) w = (Returned id, w).
Proof.
  intros Ep Hn. apply profile_entry_inv in Ep. destruct Ep as [En Ei].
  simpl. mred. rewrite En. unfold py_lower. mred.
  rewrite Hn, String.eqb_refl. mred. rewrite Ei. reflexivity.
Qed.

(** It raises on a profile that cannot be read. *)
Lemma for_profile_unreadable p rest w :
  profile_entry p = None ->
  exists e, Sonarr.for_profile lower name (p :: rest) w = (Raised e, w).
Proof.
  unfold profile_entry. intros Ep. simpl. mred.
  destruct (py_getitem p "name") as [e|v]; mred; [eexists; reflexivity|].
  destruct v; unfold py_lower; mred; try (eexists; reflexivity).
  destruct (py_getitem p "id") as [e|i]; [|discriminate].
  destruct (String.eqb (lower s) (lower name)); mred; eexists; reflexivity.
Qed.
End for_profile.

(** One try on a reply that lists profiles. *)
Lemma get_profile_id_try_on_list lower self name w r body profiles :
  next_response w = Some r -> status_code r = 200 -> decoded r = Some body ->
  py_iter body = inr profiles ->
  forall w1, w1 = final (requests_send GET (Joined (Sonarr.server_url self) "api/profile")
                           [] (Sonarr.headers self) None) w ->
  Sonarr.get_profile_id_try lower self name w
  = match Sonarr.for_profile lower name profiles w1 with
    | (Returned id, _) => (Returned id, w1)
    | _ => (Returned JNull, w1)
    end.
Proof.
  intros Hn Hs Hd Hi w1 ->.
  unfold Sonarr.get_profile_id_try, final. mred. rewrite requests_send_spec, Hn.
  simpl. assert (E : (status_code r =? 200) = true) by lia. rewrite E, Hd. mred.
  rewrite Hi. mred.
  destruct (for_profile_pure lower name profiles) as [o Ho]. rewrite !Ho.
  destruct o; reflexivity.
Qed.

(** X3.  One try of [get_profile_id] on a reply with status 200 whose
    body lists the profiles: it returns the id of the first profile whose
    name equals the name asked for once both are lowercased, and does not
    look at the profiles after it; it returns [None] when every profile
    has another name; and it returns [None] as well when a profile met
    before any match cannot be read (it is no dictionary, its name is
    missing or is no string, its id is missing), whatever follows. *)
Theorem get_profile_id_first_match (lower : string -> string) (self : Sonarr.t)
    (name : string) (w : world) (r : response) (body : json) (profiles : list json) :
  next_response w = Some r -> status_code r = 200 -> decoded r = Some body ->
  py_iter body = inr profiles ->
  let try := Sonarr.get_profile_id_try lower self name in
  (forall before p n id after,
     profiles = before ++ p :: after ->
     forallb (other_profile lower name) before = true ->
     profile_entry p = Some (n, id) -> lower n = lower name ->
     result try w = Returned id) /\
  (forallb (other_profile lower name) profiles = true ->
   result try w = Returned JNull) /\
  (forall before p after,
     profiles = before ++ p :: after ->
     forallb (other_profile lower name) before = true ->
     profile_entry p = None ->
     result try w = Returned JNull).
Proof.
  intros Hn Hs Hd Hi try.
  pose proof (get_profile_id_try_on_list lower self name w r body profiles Hn Hs Hd Hi
                _ eq_refl) as E.
  unfold try, result. rewrite E. clear E. split; [|split].
  - intros before p n id after -> Hb Hp Hl.
    rewrite (for_profile_other lower name before _ _ Hb),
      (for_profile_match lower name p n id after _ Hp Hl). reflexivity.
  - intros Hall. rewrite <- (app_nil_r profiles).
    rewrite (for_profile_other lower name profiles [] _ Hall). reflexivity.
  - intros before p after -> Hb Hp.
    rewrite (for_profile_other lower name before _ _ Hb).
    destruct (for_profile_unreadable lower name p after
                (final (requests_send GET (Joined (Sonarr.server_url self) "api/profile")
                          [] (Sonarr.headers self) None) w) Hp) as [e ->].
    reflexivity.
Qed.

(** Three profiles: ["hd-1080P"] finds the second, whatever the case of
    the letters, and not the third, which has the same name. *)
Lemma get_profile_id_first_match_witness :
  let w := Sample.world_with
             [Sample.respond 200 NoHeader ""
                (Some (JList [Sample.profile "Any" 1; Sample.profile "HD-1080p" 4; Sample.profile "hd-1080p" 9]))]
             [] [] in
  result (Sonarr.get_profile_id_try Sample.ascii_lower Sample.sonarr "hd-1080P") w
  = Returned (JInt 4).
Proof.
  intros w.
  eapply (proj1 (get_profile_id_first_match Sample.ascii_lower Sample.sonarr "hd-1080P" w _ _ _
                   eq_refl eq_refl eq_refl eq_refl) [Sample.profile "Any" 1] (Sample.profile "HD-1080p" 4));
    reflexivity.
Defined.

Lemma get_profile_id_try_no_profile lower self name w rp rest :
  inbox w = rp :: rest -> lists_no_profile lower name rp ->
  Sonarr.get_profile_id_try lower self name w
  = (Returned JNull,
     final (requests_send GET (Joined (Sonarr.server_url self) "api/profile") []
              (Sonarr.headers self) None) w).
Proof.
  intros Hin (r & body & profiles & Ha & Hs & Hd & Hi & Hall).
  assert (Hn : next_response w = Some r).
  { rewrite next_response_head, Hin. exact Ha. }
  rewrite (get_profile_id_try_on_list lower self name w r body profiles Hn Hs Hd Hi
             _ eq_refl).
  rewrite <- (app_nil_r profiles), (for_profile_other lower name profiles [] _ Hall).
  reflexivity.
Qed.

Lemma get_profile_id_retry_no_profile lower self name left :
  forall t seen w,
    (S left <= length (inbox w))%nat ->
    Forall (lists_no_profile lower name) (take (S left) (inbox w)) ->
    exists ds w',
      backoff.retry backoff.expo json_is_None Sonarr.backoff_handler
        (Sonarr.get_profile_id_try lower self name) left t seen w
      = (Returned (JNull, (t + S left)%nat, ds), w').
Proof.
  induction left as [|left IH]; intros t seen w Hlen Hall;
    destruct (inbox w) as [|rp rest] eqn:Hin; simpl in Hlen; try lia;
    rewrite firstn_cons in Hall; apply Forall_cons in Hall; destruct Hall as [Hrp Hall];
    rewrite (retry_step json_is_None _ _ (or_introl eq_refl)),
      (get_profile_id_try_no_profile lower self name w rp rest Hin Hrp); simpl.
  - replace (t + 1)%nat with (S t) by lia. eexists _, _. reflexivity.
  - destruct (requests_send_final GET (Joined (Sonarr.server_url self) "api/profile") []
                (Sonarr.headers self) None w) as (Hi & _).
    rewrite Hin in Hi. simpl in Hi.
    match goal with |- context [backoff.retry _ _ _ _ left ?t' ?s' ?w'] =>
      destruct (IH t' s' w') as (ds & w'' & ->) end.
    + rewrite after_pause_inbox, Hi. lia.
    + rewrite after_pause_inbox, Hi. exact Hall.
    + replace (S t + S left)%nat with (t + S (S left))%nat by lia.
      eexists _, _. reflexivity.
Qed.

(** X4.  The decorated [get_profile_id] takes a [None] for a failure,
    whatever its cause.  When the first reply lists a profile of the name
    asked for (after profiles of other names) and its id is not [null],
    the id is returned after that single request.  When the name is that
    of no profile, and the server answers every request with the list,
    the list is asked for four times and [None] is returned. *)
Theorem get_profile_id_retries_unknown_name (lower : string -> string) (self : Sonarr.t)
    (name : string) (w : world) :
  let run := backoff.on_predicate_run backoff.expo json_is_None Sonarr.backoff_handler
               (Sonarr.get_profile_id_try lower self name) 4 in
  (forall r body before p n id after,
     next_response w = Some r -> status_code r = 200 -> decoded r = Some body ->
     py_iter body = inr (before ++ p :: after) ->
     forallb (other_profile lower name) before = true ->
     profile_entry p = Some (n, id) -> lower n = lower name -> id <> JNull ->
     result run w = Returned (id, 1%nat, []) /\
     result (Sonarr.get_profile_id lower self name) w = Returned id /\
     inbox (final (Sonarr.get_profile_id lower self name) w) = tail (inbox w)) /\
  ((4 <= length (inbox w))%nat ->
   Forall (lists_no_profile lower name) (take 4 (inbox w)) ->
   (exists ds, result run w = Returned (JNull, 4%nat, ds)) /\
   result (Sonarr.get_profile_id lower self name) w = Returned JNull /\
   inbox (final (Sonarr.get_profile_id lower self name) w) = drop 4 (inbox w) /\
   length (requests_of (events_of (Sonarr.get_profile_id lower self name) w)) = 4%nat).
Proof.
  intros run.
  destruct (on_predicate_retried json_is_None (Sonarr.get_profile_id_try lower self name)
              Sonarr.backoff_handler GET (Joined (Sonarr.server_url self) "api/profile")
              [] (Sonarr.headers self) None (or_introl eq_refl)
              (get_profile_id_try_sends self lower name) w)
    as (a & k & ds' & E' & _ & Hret).
  fold (Sonarr.get_profile_id lower self name) in E', Hret.
  destruct Hret as (_ & _ & Hrq & Hinb & _).
  assert (Hres : forall x, fst (run w) = Returned (x, k, ds') ->
                 result (Sonarr.get_profile_id lower self name) w = Returned x).
  { intros x Hx. unfold result, Sonarr.get_profile_id, backoff.on_predicate.
    fold run. rewrite bind_run. destruct (run w) as [o w1]. simpl in Hx. subst o.
    reflexivity. }
  split.
  - intros r body before p n id after Hn Hs Hd Hi Hb Hp Hl Hid.
    assert (E : Sonarr.get_profile_id_try lower self name w
                = (Returned id,
                   final (requests_send GET (Joined (Sonarr.server_url self) "api/profile")
                            [] (Sonarr.headers self) None) w)).
    { rewrite (get_profile_id_try_on_list lower self name w r body _ Hn Hs Hd Hi _ eq_refl).
      rewrite (for_profile_other lower name before _ _ Hb),
        (for_profile_match lower name p n id after _ Hp Hl). reflexivity. }
    assert (Er : run w = (Returned (id, 1%nat, []),
                          final (requests_send GET
                                   (Joined (Sonarr.server_url self) "api/profile")
                                   [] (Sonarr.headers self) None) w)).
    { unfold run, backoff.on_predicate_run. change (4 - 1)%nat with 3%nat.
      rewrite (retry_step json_is_None _ _ (or_introl eq_refl)), E.
      destruct id; try reflexivity. contradiction. }
    fold run in E'. rewrite Er in E'. inversion E' as [[Ha Hk Hds Hw]].
    split; [unfold result; rewrite Er; simpl; congruence|].
    split.
    + rewrite (Hres id); [congruence|]. rewrite Er. simpl. congruence.
    + destruct (requests_send_final GET (Joined (Sonarr.server_url self) "api/profile") []
                  (Sonarr.headers self) None w) as (Hi' & _). congruence.
  - intros Hlen Hall.
    destruct (get_profile_id_retry_no_profile lower self name 3 0 [] w Hlen Hall)
      as (ds & w' & E).
    fold run in E'. unfold run, backoff.on_predicate_run in E'.
    change (4 - 1)%nat with 3%nat in E'. rewrite E in E'.
    inversion E' as [[Ha Hk Hds Hw]].
    assert (Er : run w = (Returned (JNull, 4%nat, ds), w')).
    { unfold run, backoff.on_predicate_run. change (4 - 1)%nat with 3%nat. exact E. }
    split; [exists ds; unfold result; rewrite Er; reflexivity|].
    split; [apply Hres; rewrite Er; simpl; congruence|].
    rewrite <- Hk in *. simpl in Hinb.
    split; [exact Hinb|]. rewrite Hrq, length_replicate. reflexivity.
Qed.

(** A server that lists its three profiles every time it is asked, and a
    name that is none of them. *)
Lemma get_profile_id_retries_unknown_name_witness :
  let listing := Sample.respond 200 NoHeader ""
                   (Some (JList [Sample.profile "Any" 1; Sample.profile "SD" 2; Sample.profile "HD-1080p" 4])) in
  let w := Sample.world_with (replicate 5 listing) [] [] in
  result (Sonarr.get_profile_id Sample.ascii_lower Sample.sonarr "Ultra-HD") w = Returned JNull /\
  inbox (final (Sonarr.get_profile_id Sample.ascii_lower Sample.sonarr "Ultra-HD") w) = [listing] /\
  length (requests_of (events_of (Sonarr.get_profile_id Sample.ascii_lower Sample.sonarr
                                    "Ultra-HD") w)) = 4%nat.
Proof.
  intros listing w.
  destruct (proj2 (get_profile_id_retries_unknown_name Sample.ascii_lower Sample.sonarr
                     "Ultra-HD" w)) as (_ & H1 & H2 & H3).
  - simpl. lia.
  - simpl.
    repeat (apply List.Forall_cons; [eexists _, _, _; repeat split; reflexivity|]).
    apply List.Forall_nil.
  - auto.
Defined.

(** *** Tries and pauses *)

(** X5.  The three decorated methods of the Sonarr client return in
    every world: no exception reaches the caller.  Each makes between one
    and four tries, and returns [None] only after four; every try sends
    the same request and takes one reply; between two tries there is one
    pause, the k-th of at most [2 ^ (k - 1)] seconds, which makes at most
    7 seconds of pauses for a call; right before each pause, and at no
    other time, the handler logs the seconds to be slept and the tries
    made. *)
Theorem sonarr_calls_are_bounded (lower : string -> string) (self : Sonarr.t) (w : world) :
  let rq := fun m path js =>
              Request m (Joined (Sonarr.server_url self) path) []
                (deref (Sonarr.headers self) w) js in
  (exists n, retried is_None (Sonarr.get_series self) (rq GET "api/series" None) w n) /\
  (forall profile_name,
     exists n, retried json_is_None (Sonarr.get_profile_id lower self profile_name)
                 (rq GET "api/profile" None) w n) /\
  (forall series_tvdbid series_title series_title_slug profile_id root_folder search_missing,
     exists n, retried is_None
                 (Sonarr.add_series self series_tvdbid series_title series_title_slug
                    profile_id root_folder search_missing)
                 (rq POST "api/series"
                    (Some (Sonarr.add_series_payload series_tvdbid series_title
                             series_title_slug profile_id root_folder search_missing)))
                 w n).
Proof.
  intros rq. split; [|split].
  - destruct (on_predicate_retried is_None (Sonarr.get_series_try self)
                Sonarr.backoff_handler GET (Joined (Sonarr.server_url self) "api/series")
                [] (Sonarr.headers self) None (or_introl eq_refl)) with (w := w)
      as (a & n & ds & _ & _ & H).
    { intros w0. rewrite get_series_try_is. eexists; reflexivity. }
    exists n. exact H.
  - intros profile_name.
    destruct (on_predicate_retried json_is_None
                (Sonarr.get_profile_id_try lower self profile_name)
                Sonarr.backoff_handler GET (Joined (Sonarr.server_url self) "api/profile")
                [] (Sonarr.headers self) None (or_introl eq_refl)
                (get_profile_id_try_sends self lower profile_name) w)
      as (a & n & ds & _ & _ & H).
    exists n. exact H.
  - intros tvdbid title slug profile root search.
    destruct (on_predicate_retried is_None
                (Sonarr.add_series_try self tvdbid title slug profile root search)
                Sonarr.backoff_handler POST (Joined (Sonarr.server_url self) "api/series")
                [] (Sonarr.headers self)
                (Some (Sonarr.add_series_payload tvdbid title slug profile root search))
                (or_introl eq_refl)
                (add_series_try_sends self tvdbid title slug profile root search) w)
      as (a & n & ds & _ & _ & H).
    exists n. exact H.
Qed.

(** ** The outcomes of [add_series] *)

Section add_series_outcomes.
Variables (self : Sonarr.t) (series_tvdbid : Z) (series_title series_title_slug : string)
  (profile_id : Z) (root_folder : string) (search_missing : bool).

(** C5, as amended.  One try of [add_series] returns [True], [False] or
    [None], and which one is decided by the reply alone.
    - [True] exactly on a 201 whose decoded body carries the requested
      [tvdbId].
    - [False] exactly on a response that is handled without an exception
      and is no such 201: a 201 with another [tvdbId], a 401 whose text
      mentions and whose decoded body carries [errorMessage], a 401 whose
      text does not mention it, and every status other than 201 and 401.
    - [None] exactly when an exception is raised: there is no response, or
      the body of a 201 does not decode or lacks [tvdbId], or the body of a
      401 that mentions [errorMessage] does not decode or lacks it.
    A [True] or [False] ends the decorated call after that single try: one
    request, no warning, no pause.  A [None] is retried: the handler is
    warned, the decorator sleeps at most one second and the same request is
    sent again, up to three more times. *)
Theorem add_series_outcomes (w : world) :
  let try := Sonarr.add_series_try self series_tvdbid series_title series_title_slug
               profile_id root_folder search_missing in
  let run := Sonarr.add_series_run self series_tvdbid series_title series_title_slug
               profile_id root_folder search_missing in
  let add := Sonarr.add_series self series_tvdbid series_title series_title_slug
               profile_id root_folder search_missing in
  let rq := Request POST (Joined (Sonarr.server_url self) "api/series") []
              (deref (Sonarr.headers self) w)
              (Some (Sonarr.add_series_payload series_tvdbid series_title
                       series_title_slug profile_id root_folder search_missing)) in
  let sent := Sent (clock w) rq (fst (next_reply w)) in
  (exists o, result try w = Returned o) /\
  (result try w = Returned (Some true) <->
   exists r body v,
     next_response w = Some r /\ status_code r = 201 /\ decoded r = Some body /\
     py_getitem body "tvdbId" = inr v /\ py_eq v (JInt series_tvdbid) = true) /\
  (result try w = Returned (Some false) <->
   exists r,
     next_response w = Some r /\
     ((status_code r = 201 /\
       exists body v, decoded r = Some body /\ py_getitem body "tvdbId" = inr v /\
                      py_eq v (JInt series_tvdbid) = false) \/
      (status_code r = 401 /\ is_substring "errorMessage" (text r) = true /\
       exists body msg, decoded r = Some body /\ py_getitem body "errorMessage" = inr msg) \/
      (status_code r = 401 /\ is_substring "errorMessage" (text r) = false) \/
      (status_code r <> 201 /\ status_code r <> 401))) /\
  (result try w = Returned None <->
   next_response w = None \/
   exists r,
     next_response w = Some r /\
     ((status_code r = 201 /\
       (decoded r = None \/
        exists body e, decoded r = Some body /\ py_getitem body "tvdbId" = inl e)) \/
      (status_code r = 401 /\ is_substring "errorMessage" (text r) = true /\
       (decoded r = None \/
        exists body e, decoded r = Some body /\ py_getitem body "errorMessage" = inl e)))) /\
  (forall b, result try w = Returned (Some b) ->
     result run w = Returned (Some b, 1%nat, []) /\
     result add w = Returned (Some b) /\
     events_of add w = [sent]) /\
  (result try w = Returned None ->
   exists s n more r ds,
     0 <= s <= 1 /\ (1 <= n <= 3)%nat /\
     events_of add w = sent :: Warned s 1 :: Slept s :: more /\
     requests_of more = replicate n rq /\
     result run w = Returned (r, S n, ds) /\ result add w = Returned r).
Proof.
  intros try run add rq sent.
  pose proof (add_series_try_cases self series_tvdbid series_title series_title_slug
                profile_id root_folder search_missing w) as H.
  fold try in H.
  destruct (add_series_try_sends self series_tvdbid series_title series_title_slug
              profile_id root_folder search_missing w) as [a Ea].
  fold try in Ea.
  set (send := requests_send POST (Joined (Sonarr.server_url self) "api/series") []
                 (Sonarr.headers self)
                 (Some (Sonarr.add_series_payload series_tvdbid series_title
                          series_title_slug profile_id root_folder search_missing))) in Ea.
  destruct (requests_send_final POST (Joined (Sonarr.server_url self) "api/series") []
              (Sonarr.headers self)
              (Some (Sonarr.add_series_payload series_tvdbid series_title
                       series_title_slug profile_id root_folder search_missing)) w)
    as (Hi1 & Hh1 & _ & _ & _ & Hl1).
  fold send in Hi1, Hh1, Hl1. fold rq sent in Hl1.
  set (w1 := final send w) in *.
  assert (Hres : result try w = Returned a) by (unfold result; rewrite Ea; reflexivity).
  split; [eauto|].
  split; [|split; [|split; [|split]]].
  - (* True *)
    destruct (next_response w) as [r|] eqn:En.
    2:{ rewrite H. split; [discriminate|]. intros (r & b & v & Hn & _). discriminate. }
    destruct (Z.eqb_spec (status_code r) 201) as [E201|E201].
    + destruct (decoded r) as [body|] eqn:Ed.
      2:{ rewrite H. split; [discriminate|].
          intros (r' & b & v & Hn & _ & Hd & _). congruence. }
      destruct (py_getitem body "tvdbId") as [e|v] eqn:Eg.
      { rewrite H. split; [discriminate|].
        intros (r' & b & v & Hn & _ & Hd & Hg & _). congruence. }
      rewrite H. split.
      * intros Hr. exists r, body, v. repeat split; auto. congruence.
      * intros (r' & b & v' & Hn & _ & Hd & Hg & Hv).
        assert (b = body) by congruence. subst b.
        assert (v' = v) by congruence. subst v'. rewrite Hv. reflexivity.
    + split.
      * intros Hr. exfalso.
        destruct ((status_code r =? 401) && is_substring "errorMessage" (text r)).
        -- destruct (decoded r) as [body|]; [|congruence].
           destruct (py_getitem body "errorMessage"); congruence.
        -- congruence.
      * intros (r' & b & v & Hn & Hs & _). congruence.
  - (* False *)
    destruct (next_response w) as [r|] eqn:En.
    2:{ rewrite H. split; [discriminate|]. intros (r & Hn & _). discriminate. }
    destruct (Z.eqb_spec (status_code r) 201) as [E201|E201].
    + destruct (decoded r) as [body|] eqn:Ed.
      2:{ rewrite H. split; [discriminate|].
          intros (r' & Hn & [(_ & b & v & Hd & _) | [(Hs & _) | [(Hs & _) | (Hs & _)]]]);
            congruence. }
      destruct (py_getitem body "tvdbId") as [e|v] eqn:Eg.
      { rewrite H. split; [discriminate|].
        intros (r' & Hn & [(_ & b & v & Hd & Hg & _) | [(Hs & _) | [(Hs & _) | (Hs & _)]]]);
          congruence. }
      rewrite H. split.
      * intros Hr. exists r. split; [reflexivity|]. left. split; [exact E201|].
        exists body, v. repeat split; auto.
        destruct (py_eq v (JInt series_tvdbid)); congruence.
      * intros (r' & Hn & [(_ & b & v' & Hd & Hg & Hv) | [(Hs & _) | [(Hs & _) | (Hs & _)]]]);
          congruence.
    + destruct (Z.eqb_spec (status_code r) 401) as [E401|E401].
      * destruct (is_substring "errorMessage" (text r)) eqn:Et; simpl in H.
        -- destruct (decoded r) as [body|] eqn:Ed.
           2:{ rewrite H. split; [discriminate|].
               intros (r' & Hn & [(Hs & _) | [(_ & _ & b & m & Hd & _) | [(_ & Hs) | (_ & Hs)]]]);
                 congruence. }
           destruct (py_getitem body "errorMessage") as [e|msg] eqn:Eg.
           { rewrite H. split; [discriminate|].
             intros (r' & Hn & [(Hs & _) | [(_ & _ & b & m & Hd & Hg) | [(_ & Hs) | (_ & Hs)]]]);
               congruence. }
           rewrite H. split; [|reflexivity].
           intros _. exists r. split; [reflexivity|]. right. left. eauto 10.
        -- rewrite H. split; [|reflexivity].
           intros _. exists r. split; [reflexivity|]. right. right. left. auto.
      * simpl in H. rewrite H. split; [|reflexivity].
        intros _. exists r. split; [reflexivity|]. right. right. right. auto.
  - (* None *)
    destruct (next_response w) as [r|] eqn:En.
    2:{ rewrite H. split; auto. }
    destruct (Z.eqb_spec (status_code r) 201) as [E201|E201].
    + destruct (decoded r) as [body|] eqn:Ed.
      2:{ rewrite H. split; [|reflexivity]. intros _. right. exists r. eauto 10. }
      destruct (py_getitem body "tvdbId") as [e|v] eqn:Eg.
      { rewrite H. split; [|reflexivity]. intros _. right. exists r.
        split; [reflexivity|]. left. split; [exact E201|]. right. eauto. }
      rewrite H. split; [discriminate|].
      intros [Hn | (r' & Hn & [(_ & [Hd | (b & e & Hd & Hg)]) | (Hs & _)])]; congruence.
    + destruct (Z.eqb_spec (status_code r) 401) as [E401|E401].
      * destruct (is_substring "errorMessage" (text r)) eqn:Et; simpl in H.
        -- destruct (decoded r) as [body|] eqn:Ed.
           2:{ rewrite H. split; [|reflexivity]. intros _. right. exists r. eauto 10. }
           destruct (py_getitem body "errorMessage") as [e|msg] eqn:Eg.
           { rewrite H. split; [|reflexivity]. intros _. right. exists r.
             split; [reflexivity|]. right. split; [exact E401|]. split; [exact Et|].
             right. eauto. }
           rewrite H. split; [discriminate|].
           intros [Hn | (r' & Hn & [(Hs & _) | (_ & _ & [Hd | (b & e & Hd & Hg)])])];
             congruence.
        -- rewrite H. split; [discriminate|].
           intros [Hn | (r' & Hn & [(Hs & _) | (_ & Hs & _)])]; congruence.
      * simpl in H. rewrite H. split; [discriminate|].
        intros [Hn | (r' & Hn & [(Hs & _) | (Hs & _)])]; congruence.
  - (* a verdict ends the call *)
    intros b Hb. assert (a = Some b) by congruence. subst a.
    assert (Er : run w = (Returned (Some b, 1%nat, []), w1)).
    { unfold run, Sonarr.add_series_run, backoff.on_predicate_run. fold try.
      change (4 - 1)%nat with 3%nat.
      rewrite (retry_step is_None try _ (or_introl eq_refl)), Ea. reflexivity. }
    assert (Eadd : add w = (Returned (Some b), w1)).
    { unfold add, Sonarr.add_series, backoff.on_predicate. fold try.
      rewrite bind_run.
      change (backoff.on_predicate_run backoff.expo is_None Sonarr.backoff_handler try 4)
        with run. rewrite Er. reflexivity. }
    unfold result. rewrite Er, Eadd. repeat split.
    apply events_of_app. unfold final. rewrite Eadd. exact Hl1.
  - (* a None is retried *)
    intros Hnone. assert (a = None) by congruence. subst a.
    destruct (retry_sends is_None try Sonarr.backoff_handler POST
                (Joined (Sonarr.server_url self) "api/series") [] (Sonarr.headers self)
                (Some (Sonarr.add_series_payload series_tvdbid series_title
                         series_title_slug profile_id root_folder search_missing))
                (or_introl eq_refl)
                (add_series_try_sends self series_tvdbid series_title series_title_slug
                   profile_id root_folder search_missing)
                2 1 [backoff.Details 1 (backoff.expo 0) (pause_length 1 w1)]
                (after_pause 1 w1))
      as (r & n & new & w' & evs & E & Hn & _ & _ & _ & _ & _ & Hl & Hrq & _).
    assert (Er : run w = (Returned (r, S n, backoff.Details 1 (backoff.expo 0)
                                            (pause_length 1 w1) :: new), w')).
    { unfold run, Sonarr.add_series_run, backoff.on_predicate_run. fold try.
      change (4 - 1)%nat with 3%nat.
      rewrite (retry_step is_None try _ (or_introl eq_refl)), Ea.
      cbv beta iota. change (is_None None) with true. cbv iota.
      change ([] ++ [backoff.Details 1 (backoff.expo 0) (pause_length 1 w1)])
        with [backoff.Details 1 (backoff.expo 0) (pause_length 1 w1)].
      rewrite E. reflexivity. }
    assert (Eadd : add w = (Returned r, w')).
    { unfold add, Sonarr.add_series, backoff.on_predicate. fold try.
      rewrite bind_run.
      change (backoff.on_predicate_run backoff.expo is_None Sonarr.backoff_handler try 4)
        with run. rewrite Er. reflexivity. }
    exists (pause_length 1 w1), n, evs, r,
      (backoff.Details 1 (backoff.expo 0) (pause_length 1 w1) :: new).
    split; [exact (pause_length_bounds 1 w1)|]. split; [exact Hn|].
    split.
    { apply events_of_app. unfold final. rewrite Eadd. cbn [snd]. rewrite Hl.
      unfold after_pause. simpl. rewrite Hl1, <- !app_assoc. reflexivity. }
    split.
    { rewrite Hrq. unfold rq, deref, after_pause. simpl. rewrite Hh1. reflexivity. }
    unfold result. rewrite Er, Eadd. split; reflexivity.
Qed.

End add_series_outcomes.

(** A 401 with an error message: [False], after one try and one request. *)
Lemma add_series_outcomes_witness :
  let w := Sample.world_with
             [Sample.respond 401 NoHeader "{errorMessage: Unauthorized}"
                (Some (JDict [("errorMessage", JStr "Unauthorized")]))] [] [] in
  result (Sonarr.add_series_run Sample.sonarr 121361 "Game of Thrones"
            "game-of-thrones" 1 "/tv" false) w
  = Returned (Some false, 1%nat, []) /\
  result (Sonarr.add_series Sample.sonarr 121361 "Game of Thrones"
            "game-of-thrones" 1 "/tv" false) w
  = Returned (Some false) /\
  length (events_of (Sonarr.add_series Sample.sonarr 121361 "Game of Thrones"
                       "game-of-thrones" 1 "/tv" false) w) = 1%nat.
Proof.
  intros w.
  destruct (add_series_outcomes Sample.sonarr 121361 "Game of Thrones"
              "game-of-thrones" 1 "/tv" false w) as (_ & _ & _ & _ & Hone & _).
  destruct (Hone false eq_refl) as (H1 & H2 & H3).
  split; [exact H1|]. split; [exact H2|]. rewrite H3. reflexivity.
Defined.

(** ** The public operations of the Trakt client *)

Lemma untouched_refl w : untouched w w.
Proof. repeat split. Qed.

Lemma untouched_trans w1 w2 w3 : untouched w1 w2 -> untouched w2 w3 -> untouched w1 w3.
Proof. intros (? & ? & ?) (? & ? & ?). repeat split; congruence. Qed.

Definition untouched_frame : frame := Frame untouched untouched_refl untouched_trans.

Lemma untouched_sleep d : steps untouched_frame (time_sleep d).
Proof. intros w. unfold final, time_sleep. destruct (d <? 0); repeat split. Qed.

Lemma untouched_uniform a b : steps untouched_frame (random_uniform a b).
Proof. intros w. unfold final, random_uniform. destruct (entropy w); repeat split. Qed.

Lemma untouched_send m u ps h js : steps untouched_frame (requests_send m u ps h js).
Proof. intros w. unfold final. rewrite requests_send_spec. repeat split. Qed.

(** X6.  The seven operations that do not send the user's token, and the
    validation probe, write nowhere: whatever the server answers, the
    header dictionaries, the configuration and the configuration store are
    afterwards what they were before the call. *)
Theorem public_calls_touch_nothing (self : Trakt.t) (w : world) :
  (forall ep user list_id limit languages,
     Trakt.authenticated ep = false ->
     untouched w (final (Trakt.fetch self ep user list_id limit languages) w)) /\
  untouched w (final (Trakt.validate_api_key self) w).
Proof.
  split.
  - intros ep user list_id limit languages Hpub.
    apply (steps_fetch untouched_frame self ep user list_id limit).
    + apply untouched_sleep.
    + apply untouched_uniform.
    + intros d w0. repeat split.
    + intros m u ps js. apply untouched_send.
    + rewrite Hpub. apply steps_ret.
  - assert (H : steps untouched_frame (Trakt.validate_api_key self)); [|apply H].
    unfold Trakt.validate_api_key. apply steps_try; [|intros; apply steps_ret].
    apply steps_bind; [apply untouched_send|].
    intros req. destruct (status_code req =? 200); apply steps_ret.
Qed.

(** ** What is aggregated *)

Lemma aggregate_app wrap a b processed :
  Trakt.aggregate wrap (a ++ b) processed
  = Trakt.aggregate wrap b (Trakt.aggregate wrap a processed).
Proof. unfold Trakt.aggregate. apply fold_left_app. Qed.



(** ** What a walk returns *)

Lemma records_of_page lat r body items :
  decoded r = Some body -> py_iter body = inr items ->
  records_of (Reply lat (Some r)) = items.
Proof. intros Hd Hi. unfold records_of. simpl. rewrite Hd. simpl. rewrite Hi. reflexivity. Qed.

Section walk_result.
Variables (self : Trakt.t) (ep : Trakt.endpoint) (user : option string)
  (list_id : string) (limit : Z) (languages : option string) (u : string).
Hypothesis Hurl : Trakt.endpoint_url ep user list_id = inr u.

(** The loop on pages that are not the last: it asks for each of them,
    aggregates its records, pauses, and goes on with the page after. *)
Lemma page_loop_pages n deadline pages :
  forall page processed w rest fuel,
    Forall (full_page n) pages ->
    page + Z.of_nat (length pages) <= n -> 1 <= page ->
    inbox w = pages ++ rest ->
    (Trakt.authenticated ep = true -> signed_in user deadline w) ->
    clock w + duration pages <= deadline ->
    exists w',
      Trakt.page_loop (length pages + fuel) self ep user list_id limit languages
        page processed w
      = Trakt.page_loop fuel self ep user list_id limit languages
          (page + Z.of_nat (length pages))
          (Trakt.aggregate (Trakt.envelope ep) (concat (records_of <$> pages)) processed) w' /\
      inbox w' = rest /\ clock w' <= clock w + duration pages /\
      (Trakt.authenticated ep = true -> signed_in user deadline w').
Proof.
  induction pages as [|pg pages IH]; intros page processed w rest fuel Hall Hn Hp Hi Hs Hd.
  - exists w. simpl in *. rewrite Z.add_0_r. repeat split; auto. lia.
  - apply Forall_cons in Hall. destruct Hall as [Hpg Hall'].
    destruct Hpg as (lat & r & body & items & -> & H200 & Hcount & Hbody & Hiter).
    pose proof (duration_nonneg pages) as Hdur. simpl in Hd. simpl length in Hn.
    destruct (headers_step_ready self ep user deadline w Hs ltac:(lia))
      as (w1 & Eh & Hi1 & Hl1 & Hc1 & Hs1).
    change (length (Reply lat (Some r) :: pages) + fuel)%nat
      with (S (length pages + fuel)).
    cbn [Trakt.page_loop].
    rewrite (bind_lift_inr _ _ _ _ Hurl), (bind_returned _ _ _ _ _ Eh).
    assert (Ei1 : inbox w1 = Reply lat (Some r) :: (pages ++ rest))
      by (rewrite Hi1; exact Hi).
    rewrite (bind_returned _ _ _ _ _ (requests_send_on_response _ _ _ _ _ _ _ _ _ Ei1)).
    set (w2 := emit _ (set_clock _ (set_inbox _ w1))).
    unfold Trakt.logged_page_count. rewrite Hcount. rewrite (bind_lift_inr _ _ _ n eq_refl).
    assert (E200 : (status_code r =? 200) = true) by lia. rewrite E200.
    unfold response_json. rewrite Hbody. rewrite bind_run. unfold ret at 1.
    rewrite (bind_lift_inr _ _ _ _ Hiter).
    assert (En0 : (n =? 0) = false) by lia. rewrite En0.
    assert (Ege : (page >=? n) = false) by lia. rewrite Ege.
    rewrite bind_run, time_sleep_spec by lia.
    set (w3 := emit (Slept 5) _).
    destruct (IH (page + 1) (Trakt.aggregate (Trakt.envelope ep) items processed) w3 rest
                fuel) as (w' & E & Hr & Hc & Hs').
    + exact Hall'.
    + lia.
    + lia.
    + reflexivity.
    + intros Ha. eapply signed_in_cfg; [|exact (Hs1 Ha)]. reflexivity.
    + unfold w3, w2. simpl clock. lia.
    + exists w'. rewrite E. simpl concat.
      rewrite (records_of_page lat r body items Hbody Hiter), aggregate_app.
      replace (page + 1 + Z.of_nat (length pages))
        with (page + Z.of_nat (S (length pages))) by lia.
      split; [reflexivity|]. split; [exact Hr|]. split; [|exact Hs'].
      unfold w3, w2 in Hc. simpl clock in Hc. simpl (duration _). lia.
Qed.

(** The last page. *)
Lemma page_loop_last n deadline page processed w rp rest fuel :
  full_page n rp -> 0 < n <= page -> inbox w = rp :: rest ->
  (Trakt.authenticated ep = true -> signed_in user deadline w) ->
  clock w <= deadline ->
  exists w',
    Trakt.page_loop (S fuel) self ep user list_id limit languages page processed w
    = (Returned (Trakt.aggregate (Trakt.envelope ep) (records_of rp) processed), w') /\
    inbox w' = rest.
Proof.
  intros (lat & r & body & items & -> & H200 & Hcount & Hbody & Hiter) Hn Hi Hs Hc.
  destruct (headers_step_ready self ep user deadline w Hs Hc)
    as (w1 & Eh & Hi1 & Hl1 & Hc1 & Hs1).
  cbn [Trakt.page_loop].
  rewrite (bind_lift_inr _ _ _ _ Hurl), (bind_returned _ _ _ _ _ Eh).
  assert (Ei1 : inbox w1 = Reply lat (Some r) :: rest) by (rewrite Hi1; exact Hi).
  rewrite (bind_returned _ _ _ _ _ (requests_send_on_response _ _ _ _ _ _ _ _ _ Ei1)).
  unfold Trakt.logged_page_count. rewrite Hcount. rewrite (bind_lift_inr _ _ _ n eq_refl).
  assert (E200 : (status_code r =? 200) = true) by lia. rewrite E200.
  unfold response_json. rewrite Hbody. rewrite bind_run. unfold ret at 1.
  rewrite (bind_lift_inr _ _ _ _ Hiter).
  assert (En0 : (n =? 0) = false) by lia. rewrite En0.
  assert (Ege : (page >=? n) = true) by lia. rewrite Ege.
  rewrite (records_of_page lat r body items Hbody Hiter).
  eexists. split; reflexivity.
Qed.

(** A reply that is a refusal ends the loop with what it has. *)
Lemma page_loop_refusal deadline page processed w rp rest fuel :
  refusal ep rp -> inbox w = rp :: rest ->
  (Trakt.authenticated ep = true -> signed_in user deadline w) ->
  clock w <= deadline ->
  exists w',
    Trakt.page_loop (S fuel) self ep user list_id limit languages page processed w
    = (Returned processed, w') /\
    inbox w' = rest.
Proof.
  intros (r & Ha & H200 & H401 & Hcount) Hi Hs Hc.
  destruct rp as [lat a]. simpl in Ha. subst a.
  destruct (headers_step_ready self ep user deadline w Hs Hc)
    as (w1 & Eh & Hi1 & Hl1 & Hc1 & Hs1).
  cbn [Trakt.page_loop].
  rewrite (bind_lift_inr _ _ _ _ Hurl), (bind_returned _ _ _ _ _ Eh).
  assert (Ei1 : inbox w1 = Reply lat (Some r) :: rest) by (rewrite Hi1; exact Hi).
  rewrite (bind_returned _ _ _ _ _ (requests_send_on_response _ _ _ _ _ _ _ _ _ Ei1)).
  assert (Hlog : exists k, Trakt.logged_page_count r = inr k).
  { unfold Trakt.logged_page_count.
    destruct (x_pagination_page_count r); eauto. contradiction. }
  destruct Hlog as (k & Hlog). rewrite (bind_lift_inr _ _ _ _ Hlog).
  assert (E200 : (status_code r =? 200) = false) by lia. rewrite E200.
  assert (E401 : Trakt.authenticated ep && (status_code r =? 401) = false).
  { destruct (Trakt.authenticated ep); [|reflexivity].
    specialize (H401 eq_refl). simpl. lia. }
  rewrite E401. eexists. split; reflexivity.
Qed.

(** A request that gets no answer ends the loop with an exception. *)
Lemma page_loop_no_answer deadline page processed w fuel :
  next_response w = None ->
  (Trakt.authenticated ep = true -> signed_in user deadline w) ->
  clock w <= deadline ->
  exists w',
    Trakt.page_loop (S fuel) self ep user list_id limit languages page processed w
    = (Raised ConnectionError, w').
Proof.
  intros Hn Hs Hc.
  destruct (headers_step_ready self ep user deadline w Hs Hc)
    as (w1 & Eh & Hi1 & Hl1 & Hc1 & Hs1).
  cbn [Trakt.page_loop].
  rewrite (bind_lift_inr _ _ _ _ Hurl), (bind_returned _ _ _ _ _ Eh).
  rewrite bind_run, requests_send_spec.
  assert (Hn1 : next_response w1 = None).
  { rewrite next_response_head, Hi1, <- next_response_head. exact Hn. }
  rewrite Hn1. eexists. reflexivity.
Qed.

(** A reply that cannot be read ends the loop with an exception. *)
Lemma page_loop_unreadable deadline page processed w rp rest fuel :
  unreadable rp -> inbox w = rp :: rest ->
  (Trakt.authenticated ep = true -> signed_in user deadline w) ->
  clock w <= deadline ->
  exists e w',
    Trakt.page_loop (S fuel) self ep user list_id limit languages page processed w
    = (Raised e, w').
Proof.
  intros (r & Ha & Hbad) Hi Hs Hc.
  destruct rp as [lat a]. simpl in Ha. subst a.
  destruct (headers_step_ready self ep user deadline w Hs Hc)
    as (w1 & Eh & Hi1 & Hl1 & Hc1 & Hs1).
  cbn [Trakt.page_loop].
  rewrite (bind_lift_inr _ _ _ _ Hurl), (bind_returned _ _ _ _ _ Eh).
  assert (Ei1 : inbox w1 = Reply lat (Some r) :: rest) by (rewrite Hi1; exact Hi).
  rewrite (bind_returned _ _ _ _ _ (requests_send_on_response _ _ _ _ _ _ _ _ _ Ei1)).
  unfold Trakt.logged_page_count.
  destruct Hbad as [Hnan | (H200 & Hbody)].
  - rewrite Hnan. eexists _, _. reflexivity.
  - destruct (x_pagination_page_count r) as [|n|] eqn:Hcount;
      try (eexists _, _; reflexivity);
      rewrite (bind_lift_inr _ _ _ _ eq_refl);
      (assert (E200 : (status_code r =? 200) = true) by lia); rewrite E200;
      unfold response_json;
      (destruct (decoded r) as [body|]; [|eexists _, _; reflexivity]);
      destruct Hbody as (e & Hiter);
      rewrite bind_run; unfold ret at 1; rewrite bind_run, Hiter;
      eexists _, _; reflexivity.
Qed.
End walk_result.

(** A try returns what its loop returns, unless that is empty; a value
    returned by the first try is the value of the decorated method. *)
Lemma fetch_try_of_loop self ep user list_id limit languages w l w' :
  Trakt.page_loop (S (length (inbox w))) self ep user list_id limit
    (Trakt.join_languages languages) 1 [] w = (Returned l, w') ->
  Trakt.fetch_try self ep user list_id limit languages w = (Returned (unless_empty l), w').
Proof.
  intros E. unfold Trakt.fetch_try, try_except. rewrite bind_run, E.
  destruct l; reflexivity.
Qed.

Lemma fetch_try_of_loop_raised self ep user list_id limit languages w e w' :
  Trakt.page_loop (S (length (inbox w))) self ep user list_id limit
    (Trakt.join_languages languages) 1 [] w = (Raised e, w') ->
  Trakt.fetch_try self ep user list_id limit languages w = (Returned None, w').
Proof.
  intros E. unfold Trakt.fetch_try, try_except. rewrite bind_run, E. reflexivity.
Qed.

Lemma fetch_of_try self ep user list_id limit languages w l :
  result (Trakt.fetch_try self ep user list_id limit languages) w = Returned (Some l) ->
  result (Trakt.fetch self ep user list_id limit languages) w = Returned (Some l).
Proof.
  unfold result, Trakt.fetch, backoff.on_predicate, backoff.on_predicate_run.
  intros H. rewrite bind_run. change (4 - 1)%nat with 3%nat.
  rewrite (retry_step is_None _ _ (or_intror eq_refl)).
  destruct (Trakt.fetch_try self ep user list_id limit languages w) as [o w1].
  simpl in H. subst o. reflexivity.
Qed.

(** A try that gives a list is the only try. *)
Lemma fetch_run_of_try self ep user list_id limit languages w l :
  result (Trakt.fetch_try self ep user list_id limit languages) w = Returned (Some l) ->
  result (Trakt.fetch_run self ep user list_id limit languages) w
  = Returned (Some l, 1%nat, []).
Proof.
  unfold result, Trakt.fetch_run, backoff.on_predicate_run.
  intros H. change (4 - 1)%nat with 3%nat.
  rewrite (retry_step is_None _ _ (or_intror eq_refl)).
  destruct (Trakt.fetch_try self ep user list_id limit languages w) as [o w1].
  simpl in H. subst o. reflexivity.
Qed.

Lemma unless_empty_some l : l <> [] -> unless_empty l = Some l.
Proof. destruct l; [contradiction | reflexivity]. Qed.

Section walks.
Variables (self : Trakt.t) (ep : Trakt.endpoint) (user : option string)
  (list_id : string) (limit : Z) (languages : option (list string)).
Variables (deadline : Z) (w : world).
Hypothesis Hready : ready ep user list_id deadline w.

Let try := Trakt.fetch_try self ep user list_id limit languages.
Let all (pages : list reply) :=
  Trakt.aggregate (Trakt.envelope ep) (concat (records_of <$> pages)) [].

Lemma walk_pages n pages rest :
  Forall (full_page n) pages -> Z.of_nat (length pages) < n ->
  inbox w = pages ++ rest -> clock w + duration pages <= deadline ->
  exists u w',
    Trakt.endpoint_url ep user list_id = inr u /\
    Trakt.page_loop (S (length (inbox w))) self ep user list_id limit
      (Trakt.join_languages languages) 1 [] w
    = Trakt.page_loop (S (length rest)) self ep user list_id limit
        (Trakt.join_languages languages) (1 + Z.of_nat (length pages)) (all pages) w' /\
    inbox w' = rest /\ clock w' <= clock w + duration pages /\
    (Trakt.authenticated ep = true -> signed_in user deadline w').
Proof.
  intros Hall Hn Hi Hd. destruct Hready as [(u & Hurl) Hs].
  destruct (page_loop_pages self ep user list_id limit (Trakt.join_languages languages) u
              Hurl n deadline pages 1 [] w rest (S (length rest)) Hall ltac:(lia)
              ltac:(lia) Hi Hs Hd) as (w' & E & Hr & Hc & Hs').
  exists u, w'. split; [exact Hurl|].
  rewrite Hi, length_app. replace (S (length pages + length rest))
    with (length pages + S (length rest))%nat by lia.
  auto.
Qed.

(** A walk to the last page: every record of every page. *)
Lemma complete_walk n pages rest :
  0 < n -> length pages = Z.to_nat n -> Forall (full_page n) pages ->
  inbox w = pages ++ rest -> clock w + duration pages <= deadline ->
  try w = (Returned (unless_empty (all pages)),
           final try w) /\ inbox (final try w) = rest.
Proof.
  intros Hn Hlen Hall Hi Hd.
  assert (Hne : pages <> []) by (intros ->; simpl in Hlen; lia).
  destruct (exists_last Hne) as (init & last & ->).
  apply Forall_app in Hall. destruct Hall as [Hinit Hlast].
  apply Forall_cons in Hlast. destruct Hlast as [Hlast _].
  rewrite length_app in Hlen. simpl in Hlen.
  assert (Hdur : duration (init ++ [last]) = duration init + duration [last]).
  { clear. induction init as [|p init IH]; simpl; [lia|]. simpl in IH. rewrite IH. lia. }
  pose proof (duration_nonneg [last]) as Hdl. pose proof (duration_nonneg init) as Hdi.
  rewrite <- app_assoc in Hi. simpl in Hi.
  destruct (walk_pages n init (last :: rest) Hinit ltac:(lia) Hi ltac:(lia))
    as (u & w1 & Hurl & E & Hi1 & Hc1 & Hs1).
  destruct (page_loop_last self ep user list_id limit (Trakt.join_languages languages) u
              Hurl n deadline (1 + Z.of_nat (length init)) (all init) w1 last rest
              (length (last :: rest)) Hlast ltac:(lia) Hi1 Hs1 ltac:(lia))
    as (w2 & E2 & Hi2).
  rewrite E2 in E.
  assert (Hall' : Trakt.aggregate (Trakt.envelope ep) (records_of last) (all init)
                  = all (init ++ [last])).
  { unfold all. rewrite fmap_app, concat_app, aggregate_app. simpl.
    rewrite app_nil_r. reflexivity. }
  rewrite Hall' in E.
  pose proof (fetch_try_of_loop _ _ _ _ _ _ _ _ _ E) as Et. fold try in Et.
  unfold final. rewrite Et. simpl. split; [reflexivity | exact Hi2].
Qed.

(** A walk that is cut short by a refusal, or by a request that gets no
    answer. *)
Lemma interrupted_walk n pages rest :
  Forall (full_page n) pages -> Z.of_nat (length pages) < n ->
  inbox w = pages ++ rest -> clock w + duration pages <= deadline ->
  (forall rp, head rest = Some rp -> refusal ep rp ->
     result try w = Returned (unless_empty (all pages))) /\
  (head rest ≫= answer = None -> result try w = Returned None) /\
  (forall rp, head rest = Some rp -> unreadable rp -> result try w = Returned None).
Proof.
  intros Hall Hn Hi Hd.
  destruct (walk_pages n pages rest Hall Hn Hi Hd) as (u & w1 & Hurl & E & Hi1 & Hc1 & Hs1).
  split; [|split].
  - intros rp Hh Hrp. destruct rest as [|rp' rest']; simpl in Hh; [discriminate|].
    inversion Hh; subst rp'.
    destruct (page_loop_refusal self ep user list_id limit (Trakt.join_languages languages)
                u Hurl deadline (1 + Z.of_nat (length pages)) (all pages) w1 rp rest'
                (length (rp :: rest')) Hrp Hi1 Hs1 ltac:(lia)) as (w2 & E2 & _).
    rewrite E2 in E.
    unfold result, try. rewrite (fetch_try_of_loop _ _ _ _ _ _ _ _ _ E). reflexivity.
  - intros Hh.
    destruct (page_loop_no_answer self ep user list_id limit
                (Trakt.join_languages languages) u Hurl deadline
                (1 + Z.of_nat (length pages)) (all pages) w1 (length rest))
      as (w2 & E2); [rewrite next_response_head, Hi1; exact Hh | exact Hs1 | lia |].
    rewrite E2 in E.
    unfold result, try. rewrite (fetch_try_of_loop_raised _ _ _ _ _ _ _ _ _ E). reflexivity.
  - intros rp Hh Hrp. destruct rest as [|rp' rest']; simpl in Hh; [discriminate|].
    inversion Hh; subst rp'.
    destruct (page_loop_unreadable self ep user list_id limit
                (Trakt.join_languages languages) u Hurl deadline
                (1 + Z.of_nat (length pages)) (all pages) w1 rp rest'
                (length (rp :: rest')) Hrp Hi1 Hs1 ltac:(lia)) as (e & w2 & E2).
    rewrite E2 in E.
    unfold result, try. rewrite (fetch_try_of_loop_raised _ _ _ _ _ _ _ _ _ E). reflexivity.
Qed.
End walks.

(** X8.  Let a paginated operation be ready and the replies waiting be
    the [n] pages of a list, as in a walk that succeeds.  Then a try
    returns the records of all the pages, aggregated in the order of the
    pages (and [None] if there is none); it takes these [n] replies and no
    other.  When there is a record the decorated method returns this list
    at its first try. *)
Theorem complete_walk_returns_every_record (self : Trakt.t) (ep : Trakt.endpoint)
    (user : option string) (list_id : string) (limit : Z)
    (languages : option (list string)) (deadline : Z) (w : world)
    (n : Z) (pages rest : list reply) :
  ready ep user list_id deadline w ->
  0 < n -> length pages = Z.to_nat n -> Forall (full_page n) pages ->
  inbox w = pages ++ rest -> clock w + duration pages <= deadline ->
  let all := Trakt.aggregate (Trakt.envelope ep) (concat (records_of <$> pages)) [] in
  result (Trakt.fetch_try self ep user list_id limit languages) w
  = Returned (unless_empty all) /\
  inbox (final (Trakt.fetch_try self ep user list_id limit languages) w) = rest /\
  (all <> [] ->
   result (Trakt.fetch self ep user list_id limit languages) w = Returned (Some all) /\
   result (Trakt.fetch_run self ep user list_id limit languages) w
   = Returned (Some all, 1%nat, [])).
Proof.
  intros Hready Hn Hlen Hall Hi Hd all.
  destruct (complete_walk self ep user list_id limit languages deadline w Hready
              n pages rest Hn Hlen Hall Hi Hd) as [E Hr].
  assert (Hres : result (Trakt.fetch_try self ep user list_id limit languages) w
                 = Returned (unless_empty all)).
  { unfold result. rewrite E. reflexivity. }
  split; [exact Hres|]. split; [exact Hr|].
  intros Hne. rewrite (unless_empty_some _ Hne) in Hres.
  split; [apply fetch_of_try | apply fetch_run_of_try]; exact Hres.
Qed.

(** Two pages of a watchlist with a show on both: three shows. *)
Lemma complete_walk_returns_every_record_witness :
  let a := Sample.show "A" in
  let b := Sample.show "B" in
  let c := Sample.show "C" in
  let w := Sample.world_with
             [Sample.page (Count 2) [a; b]; Sample.page (Count 2) [b; c]] []
             [("alice", JDict [("access_token", JStr "t0k3n"); ("refresh_token", JStr "r");
                               ("created_at", JInt 0); ("expires_in", JInt 7776000)])] in
  result (Trakt.fetch_try Sample.trakt Trakt.watchlist_shows (Some "alice") "" 1000 None) w
  = Returned (Some [a; b; c]) /\
  inbox (final (Trakt.fetch_try Sample.trakt Trakt.watchlist_shows (Some "alice") ""
                  1000 None) w) = [] /\
  result (Trakt.get_watchlist_shows Sample.trakt (Some "alice") 1000 None) w
  = Returned (Some [a; b; c]).
Proof.
  intros a b c w.
  destruct (complete_walk_returns_every_record Sample.trakt Trakt.watchlist_shows
              (Some "alice") "" 1000 None 7776000 w 2
              [Sample.page (Count 2) [a; b]; Sample.page (Count 2) [b; c]] [])
    as (H1 & H2 & H3).
  - split; [eexists; reflexivity|]. intros _.
    exists "alice", (JDict [("access_token", JStr "t0k3n"); ("refresh_token", JStr "r");
                            ("created_at", JInt 0); ("expires_in", JInt 7776000)]).
    split; [reflexivity|]. split; [reflexivity|].
    exists 0, 7776000, "t0k3n". repeat split; try reflexivity; try lia;
      eexists; split; reflexivity.
  - lia.
  - reflexivity.
  - repeat constructor; eexists _, _, _, _; repeat split; reflexivity.
  - reflexivity.
  - vm_compute. discriminate.
  - split; [exact H1|]. split; [exact H2|]. apply H3. vm_compute. discriminate.
Defined.

(** X9.  Let a paginated operation be ready and the first replies be
    pages of a list that has more pages.  If the request for the next page
    is answered with a refusal (a status other than 200, and other than
    401 where that is fatal), a try returns what the pages before gave,
    and the decorated method returns this partial list as its result,
    without another try.  If the request for the next page gets no answer
    the exception is caught and the try returns [None]: what the pages
    before gave is dropped. *)
Theorem interrupted_walk_keeps_or_drops (self : Trakt.t) (ep : Trakt.endpoint)
    (user : option string) (list_id : string) (limit : Z)
    (languages : option (list string)) (deadline : Z) (w : world)
    (n : Z) (pages rest : list reply) :
  ready ep user list_id deadline w ->
  Forall (full_page n) pages -> Z.of_nat (length pages) < n ->
  inbox w = pages ++ rest -> clock w + duration pages <= deadline ->
  let partial := Trakt.aggregate (Trakt.envelope ep) (concat (records_of <$> pages)) [] in
  (forall rp, head rest = Some rp -> refusal ep rp ->
     result (Trakt.fetch_try self ep user list_id limit languages) w
     = Returned (unless_empty partial) /\
     (partial <> [] ->
      result (Trakt.fetch self ep user list_id limit languages) w
      = Returned (Some partial) /\
      result (Trakt.fetch_run self ep user list_id limit languages) w
      = Returned (Some partial, 1%nat, []))) /\
  (head rest ≫= answer = None ->
   result (Trakt.fetch_try self ep user list_id limit languages) w = Returned None).
Proof.
  intros Hready Hall Hn Hi Hd partial.
  destruct (interrupted_walk self ep user list_id limit languages deadline w Hready
              n pages rest Hall Hn Hi Hd) as (Hrefused & Hlost & _).
  split; [|exact Hlost].
  intros rp Hh Hrp. pose proof (Hrefused rp Hh Hrp) as Hres.
  split; [exact Hres|].
  intros Hne.
  assert (Hsome : result (Trakt.fetch_try self ep user list_id limit languages) w
                  = Returned (Some partial)).
  { rewrite Hres. apply f_equal, unless_empty_some, Hne. }
  split; [apply fetch_of_try | apply fetch_run_of_try]; exact Hsome.
Qed.

(** The first of three pages, then a 502: the records of the first page
    are the result.  The first of three pages, then a network error:
    [None]. *)
Lemma interrupted_walk_keeps_or_drops_witness :
  let a := Sample.show "A" in
  let w := fun second =>
             Sample.world_with [Sample.page (Count 3) [a]; second] [] [] in
  result (Trakt.get_trending_shows Sample.trakt 1000 None)
    (w (Sample.respond 502 NoHeader "Bad Gateway" None))
  = Returned (Some [a]) /\
  result (Trakt.fetch_try Sample.trakt Trakt.trending_shows None "" 1000 None)
    (w (Reply 30 None))
  = Returned None.
Proof.
  intros a w.
  assert (Hready : forall second,
            ready Trakt.trending_shows None "" 60 (w second)).
  { intros second. split; [eexists; reflexivity | discriminate]. }
  assert (Hpage : Forall (full_page 3) [Sample.page (Count 3) [a]]).
  { repeat constructor. eexists _, _, _, _. repeat split; reflexivity. }
  split.
  - destruct (interrupted_walk_keeps_or_drops Sample.trakt Trakt.trending_shows None ""
                1000 None 60 (w (Sample.respond 502 NoHeader "Bad Gateway" None)) 3
                [Sample.page (Count 3) [a]]
                [Sample.respond 502 NoHeader "Bad Gateway" None]
                (Hready _) Hpage) as [H _]; [simpl; lia | reflexivity | | ].
    + vm_compute. discriminate.
    + apply (H _ eq_refl).
      * eexists. repeat split; try reflexivity; try discriminate.
      * discriminate.
  - destruct (interrupted_walk_keeps_or_drops Sample.trakt Trakt.trending_shows None ""
                1000 None 60 (w (Reply 30 None)) 3
                [Sample.page (Count 3) [a]] [Reply 30 None]
                (Hready _) Hpage) as [_ H]; [simpl; lia | reflexivity | | ].
    + vm_compute. discriminate.
    + apply H. reflexivity.
Defined.

(** X18.  A reply that cannot be read fails the try, whatever its status
    and whatever the pages before it gave.  The page count of every reply
    is read before its status is looked at, so a reply whose count is not
    a number raises at once: even a 401 to one of the operations that send
    the user's token then gives [None], which is retried, and not the end
    of the process.  A reply with status 200 whose body does not decode,
    or decodes to a value that cannot be iterated over, does the same. *)
Theorem unreadable_reply_fails_the_try (self : Trakt.t) (ep : Trakt.endpoint)
    (user : option string) (list_id : string) (limit : Z)
    (languages : option (list string)) (deadline : Z) (w : world)
    (n : Z) (pages : list reply) (rp : reply) (rest : list reply) :
  ready ep user list_id deadline w ->
  Forall (full_page n) pages -> Z.of_nat (length pages) < n ->
  inbox w = pages ++ rp :: rest -> clock w + duration pages <= deadline ->
  unreadable rp ->
  result (Trakt.fetch_try self ep user list_id limit languages) w = Returned None.
Proof.
  intros Hready Hall Hn Hi Hd Hrp.
  destruct (interrupted_walk self ep user list_id limit languages deadline w Hready
              n pages (rp :: rest) Hall Hn Hi Hd) as (_ & _ & H).
  apply (H rp eq_refl Hrp).
Qed.

(** A 401 to a request for alice's watchlist, with a page count that is
    not a number: the try gives [None]. *)
Lemma unreadable_reply_fails_the_try_witness :
  let w := Sample.world_with
             [Reply 0 (Some (Response 401 NotANumber "" None))] []
             [("alice", JDict [("access_token", JStr "t0k3n"); ("refresh_token", JStr "r");
                               ("created_at", JInt 0); ("expires_in", JInt 7776000)])] in
  result (Trakt.fetch_try Sample.trakt Trakt.watchlist_shows (Some "alice") "" 1000 None) w
  = Returned None.
Proof.
  intros w.
  apply (unreadable_reply_fails_the_try Sample.trakt Trakt.watchlist_shows (Some "alice")
           "" 1000 None 7776000 w 1 [] (Reply 0 (Some (Response 401 NotANumber "" None))) []).
  - split; [eexists; reflexivity|]. intros _.
    exists "alice", (JDict [("access_token", JStr "t0k3n"); ("refresh_token", JStr "r");
                            ("created_at", JInt 0); ("expires_in", JInt 7776000)]).
    split; [reflexivity|]. split; [reflexivity|].
    exists 0, 7776000, "t0k3n". repeat split; try reflexivity; try lia;
      eexists; split; reflexivity.
  - constructor.
  - simpl. lia.
  - reflexivity.
  - simpl. lia.
  - eexists. split; [reflexivity|]. left. reflexivity.
Defined.

(** ** Page by page *)

Lemma sent_times_app a b : sent_times (a ++ b) = sent_times a ++ sent_times b.
Proof. apply omap_app. Qed.

Lemma spaced_weaken gap lo lo' times : lo' <= lo -> spaced gap lo times -> spaced gap lo' times.
Proof. destruct times; simpl; [auto|]. intros ? [? ?]. split; [lia | assumption]. Qed.

Section public_trace.
Variables (self : Trakt.t) (ep : Trakt.endpoint) (user : option string)
  (list_id : string) (limit : Z) (languages : option string) (u : string).
Hypothesis Hurl : Trakt.endpoint_url ep user list_id = inr u.
Hypothesis Hpub : Trakt.authenticated ep = false.

Let ask (w : world) (page : Z) : request :=
  Request GET (Absolute u) (Trakt.page_payload limit page languages)
    (deref (Trakt.headers self) w) None.

(** The loop of a public operation, in any world: requests for
    consecutive pages, a pause of 5 seconds between two of them. *)
Lemma public_page_loop_trace fuel :
  forall page processed w,
    (length (inbox w) < fuel)%nat ->
    exists k evs o w',
      Trakt.page_loop fuel self ep user list_id limit languages page processed w = (o, w') /\
      log w' = log w ++ evs /\ (1 <= k)%nat /\
      requests_of evs = ask w <$> seqZ page (Z.of_nat k) /\
      sleeps evs = replicate (k - 1) 5 /\
      spaced 5 (clock w) (sent_times evs) /\
      inbox w' = drop k (inbox w).
Proof.
  induction fuel as [|fuel IH]; intros page processed w Hfuel; [lia|].
  cbn [Trakt.page_loop].
    rewrite (bind_lift_inr _ _ _ _ Hurl), Hpub.
    rewrite (bind_returned _ _ _ _ _ (eq_refl : ret (Trakt.headers self) w = _)).
    rewrite bind_run, requests_send_spec.
    destruct (requests_send_final GET (Absolute u) (Trakt.page_payload limit page languages)
                (Trakt.headers self) None w) as (Hi & Hh & _ & _ & _ & Hl).
    unfold final in Hi, Hh, Hl. rewrite requests_send_spec in Hi, Hh, Hl.
    cbn [snd] in Hi, Hh, Hl.
    set (w2 := emit _ (set_clock _ (set_inbox _ w))) in *.
    assert (Hend : forall o : outcome (list json),
               exists k evs o' w',
                 (o, w2) = (o', w') /\
                 log w' = log w ++ evs /\ (1 <= k)%nat /\
                 requests_of evs = ask w <$> seqZ page (Z.of_nat k) /\
                 sleeps evs = replicate (k - 1) 5 /\
                 spaced 5 (clock w) (sent_times evs) /\
                 inbox w' = drop k (inbox w)).
    { intros o. exists 1%nat, [Sent (clock w) (ask w page) (fst (next_reply w))], o, w2.
      split; [reflexivity|]. split; [exact Hl|]. split; [lia|].
      split; [reflexivity|]. split; [reflexivity|].
      split; [simpl; lia|]. rewrite Hi. apply tail_drop. }
    destruct (next_response w) as [r|] eqn:Hnr; [|apply Hend].
    assert (Hlen : (length (inbox w2) < fuel)%nat).
    { rewrite Hi. rewrite next_response_head in Hnr.
      destruct (inbox w); [discriminate | simpl in *; lia]. }
    destruct (Trakt.logged_page_count r) as [e|n0]; [apply Hend|].
    rewrite (bind_lift_inr _ _ _ n0 eq_refl).
    destruct (status_code r =? 200); [|apply Hend].
    unfold response_json. destruct (decoded r) as [body|]; [|apply Hend].
    rewrite bind_run. unfold ret at 1.
    destruct (py_iter body) as [e|items]; [apply Hend|].
    rewrite (bind_lift_inr _ _ _ items eq_refl).
    destruct (x_pagination_page_count r) as [|n|]; try apply Hend.
    destruct (n =? 0); [apply Hend|].
    destruct (page >=? n); [apply Hend|].
    rewrite bind_run, time_sleep_spec by lia.
    set (w3 := emit (Slept 5) _).
    destruct (IH (page + 1) (Trakt.aggregate (Trakt.envelope ep) items processed) w3 Hlen)
      as (k & evs & o & w' & E & Hl' & Hk & Hrq & Hsl & Hsp & Hi').
    exists (S k),
      (Sent (clock w) (ask w page) (fst (next_reply w)) :: Slept 5 :: evs), o, w'.
    split; [exact E|].
    split. { rewrite Hl'. change (log w3) with (log w2 ++ [Slept 5]).
             rewrite Hl, <- !app_assoc. reflexivity. }
    split. { lia. }
    split. { simpl. rewrite Hrq, seqZ_S. reflexivity. }
    split. { simpl. rewrite Hsl. destruct k as [|k]; [lia|]. simpl.
             rewrite Nat.sub_0_r. reflexivity. }
    split. { simpl. split; [lia|]. eapply spaced_weaken; [|exact Hsp].
             unfold w3, w2. simpl. lia. }
    rewrite Hi'. change (inbox w3) with (inbox w2). rewrite Hi. apply drop_tail.
Qed.
End public_trace.

Lemma no_page_requests evs : Forall no_page_request evs -> requested_pages evs = [].
Proof.
  induction 1 as [|e evs He _ IH]; [reflexivity|].
  unfold requested_pages in IH |- *.
  destruct e as [t rq rp| |]; simpl; try exact IH.
  simpl in He. unfold page_request, dict_has in He.
  destruct (dict_get (rq_params rq) "page"); [discriminate | exact IH].
Qed.

(** The loop of any operation, in any world: the pages asked for are
    consecutive. *)
Lemma page_loop_in_order self ep user list_id limit languages fuel :
  forall page processed w,
    (length (inbox w) < fuel)%nat ->
    exists k evs o w',
      Trakt.page_loop fuel self ep user list_id limit languages page processed w = (o, w') /\
      log w' = log w ++ evs /\
      requested_pages evs = JInt <$> seqZ page (Z.of_nat k).
Proof.
  induction fuel as [|fuel IH]; intros page processed w Hfuel; [lia|].
  cbn [Trakt.page_loop].
  destruct (Trakt.endpoint_url ep user list_id) as [e|u].
  { exists 0%nat, [], (Raised e), w. rewrite app_nil_r. auto. }
  rewrite (bind_lift_inr _ _ _ u eq_refl). rewrite bind_run.
  assert (P1 : plain (if Trakt.authenticated ep then Trakt.oauth_headers self user
                      else ret (Trakt.headers self))).
  { destruct (Trakt.authenticated ep); [apply plain_oauth_headers | apply plain_ret]. }
  assert (X1 : keeps (Trakt.headers self)
                 (if Trakt.authenticated ep then Trakt.oauth_headers self user
                  else ret (Trakt.headers self))).
  { destruct (Trakt.authenticated ep); [apply keeps_oauth_headers | apply steps_ret]. }
  assert (T1 : steps oauth_traffic_frame
                 (if Trakt.authenticated ep then Trakt.oauth_headers self user
                  else ret (Trakt.headers self))).
  { destruct (Trakt.authenticated ep); [apply oauth_traffic_oauth_headers | apply steps_ret]. }
  specialize (P1 w). specialize (X1 w). specialize (T1 w).
  unfold result in P1. unfold final in X1, T1.
  destruct ((if Trakt.authenticated ep then Trakt.oauth_headers self user
             else ret (Trakt.headers self)) w) as [[h|e| |] w1];
    simpl in P1, X1, T1; try contradiction.
  2:{ destruct T1 as (evs0 & L0 & H0).
      exists 0%nat, evs0, (Raised e), w1. split; [reflexivity|]. split; [exact L0|].
      apply no_page_requests. exact H0. }
  apply extends_inbox_length in X1. destruct T1 as (evs0 & L0 & H0).
  rewrite bind_run, requests_send_spec.
  destruct (requests_send_final GET (Absolute u) (Trakt.page_payload limit page languages)
              h None w1) as (Hi & _ & _ & _ & _ & Hl).
  unfold final in Hi, Hl. rewrite requests_send_spec in Hi, Hl. cbn [snd] in Hi, Hl.
  set (w2 := emit _ (set_clock _ (set_inbox _ w1))) in *.
  set (sent := Sent (clock w1) (Request GET (Absolute u)
                 (Trakt.page_payload limit page languages) (deref h w1) None)
                 (fst (next_reply w1))) in *.
  assert (Hend : forall o : outcome (list json),
             exists k evs o' w',
               (o, w2) = (o', w') /\ log w' = log w ++ evs /\
               requested_pages evs = JInt <$> seqZ page (Z.of_nat k)).
  { intros o. exists 1%nat, (evs0 ++ [sent]), o, w2.
    split; [reflexivity|]. split; [rewrite Hl, L0, <- app_assoc; reflexivity|].
    rewrite requested_pages_app, (no_page_requests _ H0). reflexivity. }
  destruct (next_response w1) as [r|] eqn:Hnr; [|apply Hend].
  assert (Hlen : (length (inbox w2) < fuel)%nat).
  { rewrite Hi. rewrite next_response_head in Hnr.
    destruct (inbox w1); [discriminate | simpl in *; lia]. }
  destruct (Trakt.logged_page_count r) as [e|n0]; [apply Hend|].
  rewrite (bind_lift_inr _ _ _ n0 eq_refl).
  destruct (status_code r =? 200).
  2:{ destruct (Trakt.authenticated ep && (status_code r =? 401)); apply Hend. }
  unfold response_json. destruct (decoded r) as [body|]; [|apply Hend].
  rewrite bind_run. unfold ret at 1.
  destruct (py_iter body) as [e|items]; [apply Hend|].
  rewrite (bind_lift_inr _ _ _ items eq_refl).
  destruct (x_pagination_page_count r) as [|n|]; try apply Hend.
  destruct (n =? 0); [apply Hend|].
  destruct (page >=? n); [apply Hend|].
  rewrite bind_run, time_sleep_spec by lia.
  set (w3 := emit (Slept 5) _).
  destruct (IH (page + 1) (Trakt.aggregate (Trakt.envelope ep) items processed) w3 Hlen)
    as (k & evs & o & w' & E & Hl' & Hrq).
  exists (S k), (evs0 ++ sent :: Slept 5 :: evs), o, w'.
  split; [exact E|].
  split. { rewrite Hl'. change (log w3) with (log w2 ++ [Slept 5]).
           rewrite Hl, L0, <- !app_assoc. reflexivity. }
  rewrite requested_pages_app, (no_page_requests _ H0). simpl.
  change (requested_pages (sent :: Slept 5 :: evs)) with (JInt page :: requested_pages evs).
  rewrite Hrq, seqZ_S. reflexivity.
Qed.

Lemma public_endpoint_url ep user list_id :
  Trakt.authenticated ep = false -> exists u, Trakt.endpoint_url ep user list_id = inr u.
Proof. destruct ep; simpl; intros H; try discriminate; eexists; reflexivity. Qed.

(** X10.  Whatever the server answers, the pages a try asks for are the
    pages 1, 2, ..., k, in this order and without a gap.  For the seven
    operations that do not send the user's token the whole of a try is
    known: it sends k requests, at least one, each to the URL of the
    operation with the same [limit], [extended] and [languages] and with
    the headers as they are; it takes one reply for each; it pauses 5
    seconds between two requests and at no other time, so that two
    successive requests are at least 5 seconds apart. *)
Theorem tries_ask_page_by_page (self : Trakt.t) (ep : Trakt.endpoint)
    (user : option string) (list_id : string) (limit : Z)
    (languages : option (list string)) (w : world) :
  let try := Trakt.fetch_try self ep user list_id limit languages in
  (exists k, requested_pages (events_of try w) = JInt <$> seqZ 1 (Z.of_nat k)) /\
  (Trakt.authenticated ep = false ->
   exists u k,
     Trakt.endpoint_url ep user list_id = inr u /\ (1 <= k)%nat /\
     requests_of (events_of try w)
     = (fun page => Request GET (Absolute u)
                      (Trakt.page_payload limit page (Trakt.join_languages languages))
                      (deref (Trakt.headers self) w) None) <$> seqZ 1 (Z.of_nat k) /\
     sleeps (events_of try w) = replicate (k - 1) 5 /\
     spaced 5 (clock w) (sent_times (events_of try w)) /\
     inbox (final try w) = drop k (inbox w)).
Proof.
  intros try.
  destruct (fetch_try_loop self ep user list_id limit languages w) as [Hfinal _].
  fold try in Hfinal. split.
  - destruct (page_loop_in_order self ep user list_id limit
                (Trakt.join_languages languages) (S (length (inbox w))) 1 [] w ltac:(lia))
      as (k & evs & o & w' & E & Hl & Hrq).
    exists k. unfold events_of. rewrite Hfinal. unfold final. rewrite E. simpl.
    rewrite Hl, drop_app_length. exact Hrq.
  - intros Hpub. destruct (public_endpoint_url ep user list_id Hpub) as (u & Hurl).
    destruct (public_page_loop_trace self ep user list_id limit
                (Trakt.join_languages languages) u Hurl Hpub (S (length (inbox w))) 1 [] w
                ltac:(lia))
      as (k & evs & o & w' & E & Hl & Hk & Hrq & Hsl & Hsp & Hi).
    exists u, k. split; [exact Hurl|]. split; [exact Hk|].
    unfold events_of. rewrite Hfinal. unfold final. rewrite E. simpl.
    rewrite Hl, drop_app_length. auto.
Qed.

(** Trending shows, three pages: requests at 0, 5 and 10 seconds. *)
Lemma tries_ask_page_by_page_witness :
  let w := Sample.world_with
             [Sample.page (Count 3) [Sample.show "A"];
              Sample.page (Count 3) [Sample.show "B"];
              Sample.page (Count 3) [Sample.show "C"]] [] [] in
  let try := Trakt.fetch_try Sample.trakt Trakt.trending_shows None "" 1000 None in
  exists u k,
    Trakt.endpoint_url Trakt.trending_shows None "" = inr u /\ (1 <= k)%nat /\
    requests_of (events_of try w)
    = (fun page => Request GET (Absolute u)
                     (Trakt.page_payload 1000 page (Trakt.join_languages None))
                     (deref (Trakt.headers Sample.trakt) w) None) <$> seqZ 1 (Z.of_nat k) /\
    sleeps (events_of try w) = replicate (k - 1) 5 /\
    spaced 5 (clock w) (sent_times (events_of try w)) /\
    inbox (final try w) = drop k (inbox w).
Proof.
  intros w try.
  exact (proj2 (tries_ask_page_by_page Sample.trakt Trakt.trending_shows None "" 1000
                  None w) eq_refl).
Defined.

(** ** Tokens *)

(** A granted token: the header is written, [users/me] is asked, and the
    credential is stored if a user name comes back. *)
Lemma process_token_request_granted self req w body token :
  status_code req = 200 -> decoded req = Some body ->
  py_getitem body "access_token" = inr (JStr token) ->
  let w2 := final (requests_send GET (Absolute "https://api.trakt.tv/users/me") []
                     (Trakt.headers self) None)
              (with_bearer (Trakt.headers self) token w) in
  Trakt.__oauth_process_token_request self req w
  = match next_response w with
    | None => (Raised ConnectionError, w2)
    | Some r =>
        match decoded r with
        | None => (Raised JSONDecodeError, w2)
        | Some me =>
            match py_getitem me "username" with
            | inl e => (Raised e, w2)
            | inr username =>
                if py_hashable username
                then (Returned (true, status_code r),
                      set_credentials (credentials w2 ++ [(username, body)]) w2)
                else (Raised TypeError, w2)
            end
        end
    end.
Proof.
  intros H200 Hbody Htoken w2.
  assert (E200 : (status_code req =? 200) = true) by lia.
  unfold Trakt.__oauth_process_token_request.
  rewrite E200. unfold response_json at 1. rewrite Hbody.
  rewrite (bind_returned _ _ _ _ _ (eq_refl : ret body w = _)).
  rewrite (bind_lift_inr _ _ _ _ Htoken).
  rewrite (bind_lift_inr _ _ _ _ (eq_refl : py_concat "Bearer " (JStr token) = inr _)).
  rewrite bind_run. unfold dict_setitem at 1.
  fold (with_bearer (Trakt.headers self) token w).
  rewrite bind_run. unfold w2, final. rewrite requests_send_spec.
  change (next_response (with_bearer (Trakt.headers self) token w))
    with (next_response w).
  destruct (next_response w) as [r|]; [|reflexivity]. cbn [snd].
  unfold response_json. destruct (decoded r) as [me|]; [|reflexivity].
  rewrite bind_run. unfold ret at 1.
  destruct (py_getitem me "username") as [e|username]; [reflexivity|].
  rewrite (bind_lift_inr _ _ _ username eq_refl).
  destruct (py_hashable username); reflexivity.
Qed.

(** X11.  What [__oauth_process_token_request] does with the answer to a
    token request.  With a status other than 200 (404, 409, 410, 418 and
    429 among them) it does nothing but report [(False, status)].  With a
    status 200 and a body that holds a token it first writes the token
    into the shared headers and asks [users/me] with them; the token is
    in the headers from then on, also when that request fails.  The
    credential is handed to the configuration store, once, only if
    [users/me] answers with a user name, and the status then reported is
    the status of that answer. *)
Theorem token_request_outcomes (self : Trakt.t) (req : response) (w : world) :
  let process := Trakt.__oauth_process_token_request self req in
  (status_code req <> 200 -> process w = (Returned (false, status_code req), w)) /\
  (forall body token,
     status_code req = 200 -> decoded req = Some body ->
     py_getitem body "access_token" = inr (JStr token) ->
     deref (Trakt.headers self) (final process w) !! "Authorization"
     = Some ("Bearer " +:+ token) /\
     requests_of (events_of process w)
     = [Request GET (Absolute "https://api.trakt.tv/users/me") []
          (<["Authorization" := "Bearer " +:+ token]> (deref (Trakt.headers self) w)) None] /\
     match result process w with
     | Returned (success, status) =>
         success = true /\
         exists r me username,
           next_response w = Some r /\ status = status_code r /\ decoded r = Some me /\
           py_getitem me "username" = inr username /\
           credentials (final process w) = credentials w ++ [(username, body)]
     | Raised _ => credentials (final process w) = credentials w
     | SystemExit | Diverged => False
     end).
Proof.
  intros process. split.
  - apply process_token_request_not_granted.
  - intros body token H200 Hbody Htoken.
    pose proof (process_token_request_granted self req w body token H200 Hbody Htoken) as E.
    cbv zeta in E. fold process in E.
    set (w1 := with_bearer (Trakt.headers self) token w) in E.
    destruct (requests_send_final GET (Absolute "https://api.trakt.tv/users/me") []
                (Trakt.headers self) None w1) as (_ & Hh & _ & Hcr & _ & Hl).
    set (w2 := final _ w1) in *.
    assert (Hd1 : deref (Trakt.headers self) w1
                  = <["Authorization" := "Bearer " +:+ token]> (deref (Trakt.headers self) w)).
    { unfold deref, w1, with_bearer. simpl. rewrite lookup_insert_eq. reflexivity. }
    assert (Hd2 : deref (Trakt.headers self) w2 !! "Authorization"
                  = Some ("Bearer " +:+ token)).
    { unfold deref in *. rewrite Hh, Hd1. apply lookup_insert_eq. }
    rewrite Hd1 in Hl. change (log w1) with (log w) in Hl.
    change (credentials w1) with (credentials w) in Hcr.
    unfold events_of, result, final. rewrite E.
    destruct (next_response w) as [r|] eqn:Hr; cbn [fst snd].
    2:{ rewrite Hl, drop_app_length. auto. }
    destruct (decoded r) as [me|] eqn:Hme; cbn [fst snd].
    2:{ rewrite Hl, drop_app_length. auto. }
    destruct (py_getitem me "username") as [e|username] eqn:Hu; cbn [fst snd].
    { rewrite Hl, drop_app_length. auto. }
    destruct (py_hashable username); cbn [fst snd].
    2:{ rewrite Hl, drop_app_length. auto. }
    change (log (set_credentials (credentials w2 ++ [(username, body)]) w2)) with (log w2).
    rewrite Hl, drop_app_length.
    split; [exact Hd2|]. split; [reflexivity|]. split; [reflexivity|].
    exists r, me, username. simpl. rewrite Hcr. auto.
Qed.

(** The token is granted, but [users/me] does not answer: the token is in
    the headers, no credential has been stored. *)
Lemma token_request_outcomes_witness :
  let req := Response 200 NoHeader "" (Some Sample.access_token_response) in
  let process := Trakt.__oauth_process_token_request Sample.trakt req in
  let w := Sample.world_with [Reply 30 None] [] [] in
  deref (Trakt.headers Sample.trakt) (final process w) !! "Authorization"
  = Some "Bearer t0k3n" /\
  credentials (final process w) = credentials w.
Proof.
  intros req process w.
  destruct (proj2 (token_request_outcomes Sample.trakt req w) Sample.access_token_response
              "t0k3n" eq_refl eq_refl eq_refl) as (H1 & _ & H3).
  split; [exact H1 | exact H3].
Defined.

(** ** The token [oauth_headers] writes *)

Lemma token_fields_inv info created expires token :
  token_fields info = Some (created, expires, token) ->
  exists c e,
    py_getitem info "created_at" = inr c /\ py_number c = inr created /\
    py_getitem info "expires_in" = inr e /\ py_number e = inr expires /\
    py_getitem info "access_token" = inr (JStr token).
Proof.
  unfold token_fields.
  destruct (py_getitem info "created_at") as [|c] eqn:E1; [discriminate|].
  destruct (py_getitem info "expires_in") as [|e] eqn:E2; [discriminate|].
  destruct (py_getitem info "access_token") as [|[| | |s| |]] eqn:E3; try discriminate.
  destruct (py_number c) as [|x] eqn:E4; [discriminate|].
  destruct (py_number e) as [|y] eqn:E5; [discriminate|].
  intros H. inversion H; subst. exists c, e. auto 10.
Qed.

(** With a token that is still valid: the token is written, nothing else. *)
Lemma oauth_headers_in_date self user w u w0 info created expires token :
  Trakt.resolve_user user w = (Returned u, w0) ->
  dict_get (cfg_trakt w0) u = Some info ->
  token_fields info = Some (created, expires, token) ->
  clock w <= created + expires ->
  Trakt.oauth_headers self user w
  = (Returned (Trakt.headers self), with_bearer (Trakt.headers self) token w0).
Proof.
  intros Er Hi Hf Hclock.
  destruct (token_fields_inv _ _ _ _ Hf) as (c & e & Hc1 & Hc2 & He1 & He2 & Ht).
  destruct (resolve_user_frame user w) as (Fc & _).
  unfold final in Fc. rewrite Er in Fc. simpl in Fc.
  unfold Trakt.oauth_headers. rewrite (bind_returned _ _ _ _ _ Er).
  unfold Trakt.cfg_trakt_getitem at 1. rewrite bind_run, Hi.
  rewrite (bind_lift_inr _ _ _ _ Hc1), (bind_lift_inr _ _ _ _ He1).
  rewrite (bind_lift_inr _ _ _ _ Hc2), (bind_lift_inr _ _ _ _ He2).
  rewrite bind_run. unfold time_time.
  assert (Hfresh : (created + expires <? clock w0) = false) by lia.
  rewrite Hfresh. rewrite bind_run. unfold ret at 1.
  rewrite (bind_lift_inr _ _ _ _ Ht). simpl py_concat. rewrite bind_run. unfold lift, ret at 1.
  rewrite bind_run. unfold dict_setitem, ret. reflexivity.
Qed.

(** Without a user that the configuration knows, the user is the first
    one left once the two keys have been popped. *)
Lemma resolve_user_fallback user w :
  match user with Some u => dict_has (cfg_trakt w) u = false | None => True end ->
  Trakt.resolve_user user w
  = match users_of (cfg_trakt w) with
    | [] => (Raised IndexError, set_cfg_trakt [] w)
    | (first, _) :: _ => (Returned first, set_cfg_trakt (users_of (cfg_trakt w)) w)
    end.
Proof.
  intros Hu. unfold Trakt.resolve_user, users_of.
  rewrite !dict_pop_if_present_remove.
  destruct user as [u|].
  - rewrite Hu. destruct (dict_remove _ _) as [|[k v] d]; reflexivity.
  - destruct (dict_remove _ _) as [|[k v] d]; reflexivity.
Qed.

(** X12.  [oauth_headers] with a token that has not expired (the test is
    strict: a token that expires this very second has not): for a user
    that the configuration knows, the only effect is that the
    [Authorization] entry of the shared headers is set to that user's
    token; nothing is sent and no time passes.  With a token that has
    expired, the first thing that happens is a request to [oauth/token]
    with the stored refresh token and the client's id and secret. *)
Theorem oauth_headers_token_in_date (self : Trakt.t) (user : string) (w : world)
    (info : json) (created expires : Z) (token : string) :
  dict_get (cfg_trakt w) user = Some info ->
  token_fields info = Some (created, expires, token) ->
  (clock w <= created + expires ->
   Trakt.oauth_headers self (Some user) w
   = (Returned (Trakt.headers self), with_bearer (Trakt.headers self) token w)) /\
  (forall refresh_token,
     created + expires < clock w ->
     py_getitem info "refresh_token" = inr refresh_token ->
     exists more,
       events_of (Trakt.oauth_headers self (Some user)) w
       = Sent (clock w)
           (Request POST (Absolute "https://api.trakt.tv/oauth/token")
              [("refresh_token", refresh_token); ("client_id", JStr (Trakt.api_key self));
               ("client_secret", JStr (Trakt.api_secret self));
               ("grant_type", JStr "refresh_token")]
              (deref (Trakt.headers self) w) None)
           (fst (next_reply w)) :: more).
Proof.
  intros Hi Hf.
  assert (Er : Trakt.resolve_user (Some user) w = (Returned user, w)).
  { unfold Trakt.resolve_user, dict_has. rewrite Hi. reflexivity. }
  split.
  - intros Hclock. apply (oauth_headers_in_date self (Some user) w user w info created
                            expires token Er Hi Hf Hclock).
  - intros rt Hclock Hrt.
    destruct (token_fields_inv _ _ _ _ Hf) as (c & e & Hc1 & Hc2 & He1 & He2 & Ht).
    set (rq := Request POST _ _ _ _).
    set (send := requests_send POST (Absolute "https://api.trakt.tv/oauth/token")
                   [("refresh_token", rt); ("client_id", JStr (Trakt.api_key self));
                    ("client_secret", JStr (Trakt.api_secret self));
                    ("grant_type", JStr "refresh_token")] (Trakt.headers self) None).
    destruct (requests_send_final POST (Absolute "https://api.trakt.tv/oauth/token")
                [("refresh_token", rt); ("client_id", JStr (Trakt.api_key self));
                 ("client_secret", JStr (Trakt.api_secret self));
                 ("grant_type", JStr "refresh_token")] (Trakt.headers self) None w)
      as (_ & _ & _ & _ & _ & Hl).
    fold send rq in Hl.
    assert (Hrest : exists o w', Trakt.oauth_headers self (Some user) w = (o, w') /\
                      extends (Trakt.headers self) (final send w) w').
    { unfold Trakt.oauth_headers. rewrite (bind_returned _ _ _ _ _ Er).
      unfold Trakt.cfg_trakt_getitem at 1. rewrite bind_run, Hi.
      rewrite (bind_lift_inr _ _ _ _ Hc1), (bind_lift_inr _ _ _ _ He1).
      rewrite (bind_lift_inr _ _ _ _ Hc2), (bind_lift_inr _ _ _ _ He2).
      rewrite bind_run. unfold time_time.
      assert (Hold : (created + expires <? clock w) = true) by lia.
      rewrite Hold. rewrite bind_run, (bind_lift_inr _ _ _ _ Hrt).
      rewrite bind_run. unfold Trakt.__oauth_refresh_access_token. fold send.
      rewrite bind_run. unfold final.
      destruct (send w) as [[req|e0| |] w2] eqn:Es;
        try (eexists _, _; split; [reflexivity | apply extends_refl]).
      cbn [snd]. rewrite bind_run.
      pose proof (keeps_process_token_request self req w2) as X. unfold final in X.
      destruct (Trakt.__oauth_process_token_request self req w2) as [[[s st]|e1| |] w3];
        simpl in X; try (eexists _, _; split; [reflexivity | exact X]).
      cbv beta iota. unfold ret at 1 2. cbv beta iota.
      rewrite (bind_lift_inr _ _ _ _ Ht). simpl py_concat.
      rewrite bind_run. unfold lift, ret at 1. rewrite bind_run.
      eexists _, _. split; [reflexivity|].
      eapply extends_trans; [exact X|].
      apply (keeps_set_bearer (Trakt.headers self) token w3). }
    destruct Hrest as (o & w' & E & [(evs & L & _) _ _ _]).
    exists evs. unfold events_of, final. rewrite E. simpl.
    rewrite L, Hl, <- app_assoc, drop_app_length. reflexivity.
Qed.

(** Alice's token is valid until second 7776000: at that second it is
    written into the headers and nothing else changes. *)
Lemma oauth_headers_token_in_date_witness :
  let info := JDict [("access_token", JStr "t0k3n"); ("refresh_token", JStr "r3fr3sh");
                     ("created_at", JInt 0); ("expires_in", JInt 7776000)] in
  let w := set_clock 7776000 (Sample.world_with [] [] [("alice", info)]) in
  Trakt.oauth_headers Sample.trakt (Some "alice") w
  = (Returned (Trakt.headers Sample.trakt),
     with_bearer (Trakt.headers Sample.trakt) "t0k3n" w).
Proof.
  intros info w.
  apply (proj1 (oauth_headers_token_in_date Sample.trakt "alice" w info 0 7776000 "t0k3n"
                  eq_refl eq_refl)).
  simpl. lia.
Defined.

(** X13.  [oauth_headers] for a user that the configuration does not
    know, or for no user: [api_key] and [api_secret] are popped from
    [cfg['trakt']] itself, so that they are gone from the configuration
    afterwards, and the token written into the headers is that of the
    first entry that is left, whoever was asked for.  When no entry is
    left an [IndexError] is raised. *)
Theorem oauth_headers_falls_back_to_first_user (self : Trakt.t) (user : option string)
    (w : world) :
  match user with Some u => dict_has (cfg_trakt w) u = false | None => True end ->
  let users := users_of (cfg_trakt w) in
  dict_has users "api_key" = false /\ dict_has users "api_secret" = false /\
  (users = [] ->
   Trakt.oauth_headers self user w = (Raised IndexError, set_cfg_trakt [] w)) /\
  (forall first info rest created expires token,
     users = (first, info) :: rest ->
     token_fields info = Some (created, expires, token) ->
     clock w <= created + expires ->
     Trakt.oauth_headers self user w
     = (Returned (Trakt.headers self),
        with_bearer (Trakt.headers self) token (set_cfg_trakt users w))).
Proof.
  intros Hu users. pose proof (resolve_user_fallback user w Hu) as Er. fold users in Er.
  split. { unfold users, users_of. apply dict_has_remove_absent, dict_has_remove_same. }
  split. { unfold users, users_of. apply dict_has_remove_same. }
  split.
  - intros Hnone. rewrite Hnone in Er.
    unfold Trakt.oauth_headers. rewrite bind_run, Er. reflexivity.
  - intros first info rest created expires token Hus Hf Hclock. rewrite Hus in Er |- *.
    apply (oauth_headers_in_date self user w first _ info created expires token Er);
      [simpl; rewrite String.eqb_refl; reflexivity | exact Hf | exact Hclock].
Qed.

(** Bob is asked for, the configuration knows only alice: alice's token
    is written, and the two keys are gone from the configuration. *)
Lemma oauth_headers_falls_back_to_first_user_witness :
  let info := JDict [("access_token", JStr "t0k3n"); ("refresh_token", JStr "r3fr3sh");
                     ("created_at", JInt 0); ("expires_in", JInt 7776000)] in
  let w := Sample.world_with [] []
             [("api_key", JStr "id"); ("alice", info); ("api_secret", JStr "secret")] in
  Trakt.oauth_headers Sample.trakt (Some "bob") w
  = (Returned (Trakt.headers Sample.trakt),
     with_bearer (Trakt.headers Sample.trakt) "t0k3n" (set_cfg_trakt [("alice", info)] w)).
Proof.
  intros info w.
  destruct (oauth_headers_falls_back_to_first_user Sample.trakt (Some "bob") w eq_refl)
    as (_ & _ & _ & H).
  apply (H "alice" info [] 0 7776000 "t0k3n"); [reflexivity | reflexivity | simpl; lia].
Defined.

(** ** Token operations without a user *)

Lemma silent_refl w : silent w w.
Proof. repeat split. exists []. rewrite app_nil_r. auto. Qed.

Lemma silent_trans w1 w2 w3 : silent w1 w2 -> silent w2 w3 -> silent w1 w3.
Proof.
  intros (? & ? & ? & e1 & L1 & R1) (? & ? & ? & e2 & L2 & R2).
  repeat split; try congruence.
  exists (e1 ++ e2). rewrite L2, L1, <- app_assoc, requests_of_app, R1, R2. auto.
Qed.

Lemma silent_pause t w : silent w (after_pause t w).
Proof.
  repeat split. exists [Warned (pause_length t w) t; Slept (pause_length t w)].
  split; [simpl; rewrite <- app_assoc; reflexivity | reflexivity].
Qed.

(** A call that fails in every world of a set to which each pause
    returns is tried as often as the decorator allows. *)
Lemma retry_failing {A} (predicate : A -> bool) (call : M A) handler
    (P Q : world -> Prop) (r0 : A) :
  handler = Sonarr.backoff_handler \/ handler = Trakt.backoff_handler ->
  predicate r0 = true ->
  (forall w, P w -> exists w1, call w = (Returned r0, w1) /\ Q w1 /\ silent w w1) ->
  (forall t w, Q w -> P (after_pause t w)) ->
  forall left t seen w,
    P w ->
    exists ds w',
      backoff.retry backoff.expo predicate handler call left t seen w
      = (Returned (r0, (t + S left)%nat, ds), w') /\ Q w' /\ silent w w'.
Proof.
  intros Hh Hr Hcall Hpause. induction left as [|left IH]; intros t seen w HP;
    rewrite (retry_step predicate call handler Hh);
    destruct (Hcall w HP) as (w1 & -> & HQ1 & Hs1); rewrite Hr.
  - replace (t + 1)%nat with (S t) by lia. eauto.
  - destruct (IH (S t) (seen ++ [backoff.Details (S t) (backoff.expo t)
                                    (pause_length (S t) w1)])
                (after_pause (S t) w1) (Hpause _ _ HQ1)) as (ds & w' & -> & HQ' & Hs').
    replace (S t + S left)%nat with (t + S (S left))%nat by lia.
    eexists _, _. split; [reflexivity|]. split; [exact HQ'|].
    eapply silent_trans; [exact Hs1|].
    eapply silent_trans; [apply silent_pause | exact Hs'].
Qed.

(** X14.  The four operations that send the user's token send nothing
    when there is no user to send it for.  When the configuration holds no
    user (nothing but [api_key] and [api_secret]), each try ends in the
    [IndexError] of [oauth_headers]; when a user list is asked for without
    a user name, each try ends in the [TypeError] of the URL, before the
    configuration is looked at.  Either way the method makes its four
    tries and returns [None] without a single request. *)
Theorem token_operations_without_a_user (self : Trakt.t) (ep : Trakt.endpoint)
    (user : option string) (list_id : string) (limit : Z)
    (languages : option (list string)) (w : world) :
  Trakt.authenticated ep = true ->
  let run := Trakt.fetch_run self ep user list_id limit languages in
  let get := Trakt.fetch self ep user list_id limit languages in
  ((exists u, Trakt.endpoint_url ep user list_id = inr u) ->
   match user with Some u => dict_has (cfg_trakt w) u = false | None => True end ->
   users_of (cfg_trakt w) = [] ->
   (exists ds, result run w = Returned (None, 4%nat, ds)) /\
   result get w = Returned None /\
   silent w (final get w) /\ cfg_trakt (final get w) = []) /\
  (Trakt.endpoint_url ep user list_id = inl TypeError ->
   (exists ds, result run w = Returned (None, 4%nat, ds)) /\
   result get w = Returned None /\
   silent w (final get w) /\ cfg_trakt (final get w) = cfg_trakt w).
Proof.
  intros Hauth run get.
  assert (Hget : forall ds w', run w = (Returned (None, 4%nat, ds), w') ->
                 get w = (Returned None, w')).
  { intros ds w' E. unfold get, Trakt.fetch, backoff.on_predicate.
    unfold run, Trakt.fetch_run in E. rewrite bind_run, E. reflexivity. }
  split.
  - intros (u & Hurl) Hu Hnone.
    destruct (retry_failing is_None (Trakt.fetch_try self ep user list_id limit languages)
                Trakt.backoff_handler
                (fun w0 => match user with
                           | Some u => dict_has (cfg_trakt w0) u = false
                           | None => True
                           end /\ users_of (cfg_trakt w0) = [])
                (fun w0 => cfg_trakt w0 = [])
                None (or_intror eq_refl) eq_refl) with
      (left := 3%nat) (t := 0%nat) (seen := @nil backoff.details) (w := w)
      as (ds & w' & E & HQ' & Hs').
    + intros w0 (Hu0 & Hn0).
      exists (set_cfg_trakt [] w0).
      assert (Eh : Trakt.oauth_headers self user w0 = (Raised IndexError, set_cfg_trakt [] w0)).
      { unfold Trakt.oauth_headers. rewrite bind_run, (resolve_user_fallback user w0 Hu0), Hn0.
        reflexivity. }
      split.
      * unfold Trakt.fetch_try, try_except. rewrite bind_run. cbn [Trakt.page_loop].
        rewrite (bind_lift_inr _ _ _ _ Hurl), Hauth, bind_run, Eh. reflexivity.
      * split; [reflexivity|]. repeat split. exists []. rewrite app_nil_r. auto.
    + intros t w0 HQ0. simpl. rewrite HQ0. split; [destruct user|]; reflexivity.
    + split; [exact Hu | exact Hnone].
    + assert (Er : run w = (Returned (None, 4%nat, ds), w')) by exact E.
      unfold result, final. rewrite Er, (Hget _ _ Er). simpl. eauto.
  - intros Hurl.
    destruct (retry_failing is_None (Trakt.fetch_try self ep user list_id limit languages)
                Trakt.backoff_handler
                (fun w0 => cfg_trakt w0 = cfg_trakt w) (fun w0 => cfg_trakt w0 = cfg_trakt w)
                None (or_intror eq_refl) eq_refl) with
      (left := 3%nat) (t := 0%nat) (seen := @nil backoff.details) (w := w)
      as (ds & w' & E & HQ' & Hs').
    + intros w0 Hc0. exists w0. split.
      * unfold Trakt.fetch_try, try_except. rewrite bind_run. cbn [Trakt.page_loop].
        rewrite Hurl. reflexivity.
      * split; [exact Hc0 | apply silent_refl].
    + intros t w0 HQ0. exact HQ0.
    + reflexivity.
    + assert (Er : run w = (Returned (None, 4%nat, ds), w')) by exact E.
      unfold result, final. rewrite Er, (Hget _ _ Er). simpl. eauto.
Qed.

(** A watchlist is asked for with a configuration that holds the two
    keys only; a list of a user is asked for without naming the user. *)
Lemma token_operations_without_a_user_witness :
  let w := Sample.world_with [Sample.page NoHeader [Sample.show "A"]] []
             [("api_key", JStr "id"); ("api_secret", JStr "secret")] in
  result (Trakt.get_watchlist_shows Sample.trakt None 1000 None) w = Returned None /\
  inbox (final (Trakt.get_watchlist_shows Sample.trakt None 1000 None) w) = inbox w /\
  cfg_trakt (final (Trakt.get_watchlist_shows Sample.trakt None 1000 None) w) = [].
Proof.
  intros w.
  destruct (proj1 (token_operations_without_a_user Sample.trakt Trakt.watchlist_shows None
                     "" 1000 None w eq_refl)) as (_ & H1 & (H2 & _) & H3).
  - eexists. reflexivity.
  - exact I.
  - reflexivity.
  - split; [exact H1|]. split; [exact H2 | exact H3].
Defined.

(** ** How a call ends *)

(** The loop leaves the process only at a page request that was answered
    with a 401, and only in the operations for which that is fatal. *)
Lemma page_loop_exit self ep user list_id limit languages fuel :
  forall page processed w,
    exists o w' evs,
      Trakt.page_loop fuel self ep user list_id limit languages page processed w = (o, w') /\
      log w' = log w ++ evs /\
      (o = SystemExit ->
       Trakt.authenticated ep = true /\ exists e, In e evs /\ revoked e).
Proof.
  induction fuel as [|fuel IH]; intros page processed w.
  { exists Diverged, w, []. rewrite app_nil_r. repeat split; auto; discriminate. }
  cbn [Trakt.page_loop].
  destruct (Trakt.endpoint_url ep user list_id) as [e|u].
  { exists (Raised e), w, []. rewrite app_nil_r. repeat split; auto; discriminate. }
  rewrite (bind_lift_inr _ _ _ u eq_refl). rewrite bind_run.
  assert (P1 : plain (if Trakt.authenticated ep then Trakt.oauth_headers self user
                      else ret (Trakt.headers self))).
  { destruct (Trakt.authenticated ep); [apply plain_oauth_headers | apply plain_ret]. }
  assert (X1 : keeps (Trakt.headers self)
                 (if Trakt.authenticated ep then Trakt.oauth_headers self user
                  else ret (Trakt.headers self))).
  { destruct (Trakt.authenticated ep); [apply keeps_oauth_headers | apply steps_ret]. }
  specialize (P1 w). specialize (X1 w). unfold result in P1. unfold final in X1.
  destruct ((if Trakt.authenticated ep then Trakt.oauth_headers self user
             else ret (Trakt.headers self)) w) as [[h|e| |] w1];
    simpl in P1, X1; try contradiction; destruct X1 as [(evs0 & L0 & _) _ _ _].
  2:{ exists (Raised e), w1, evs0. repeat split; auto; discriminate. }
  rewrite bind_run, requests_send_spec.
  destruct (requests_send_final GET (Absolute u) (Trakt.page_payload limit page languages)
              h None w1) as (_ & _ & _ & _ & _ & Hl).
  unfold final in Hl. rewrite requests_send_spec in Hl. cbn [snd] in Hl.
  set (w2 := emit _ (set_clock _ (set_inbox _ w1))) in *.
  set (sent := Sent (clock w1) (Request GET (Absolute u)
                 (Trakt.page_payload limit page languages) (deref h w1) None)
                 (fst (next_reply w1))) in *.
  assert (L2 : log w2 = log w ++ (evs0 ++ [sent])).
  { rewrite Hl, L0, <- app_assoc. reflexivity. }
  assert (Hend : forall o : outcome (list json),
             o <> SystemExit ->
             exists o' w' evs,
               (o, w2) = (o', w') /\ log w' = log w ++ evs /\
               (o' = SystemExit ->
                Trakt.authenticated ep = true /\ exists e, In e evs /\ revoked e)).
  { intros o Ho. exists o, w2, (evs0 ++ [sent]).
    split; [reflexivity|]. split; [exact L2|]. intros; contradiction. }
  destruct (next_response w1) as [r|] eqn:Hnr; [|apply Hend; discriminate].
  destruct (Trakt.logged_page_count r) as [e|n0] eqn:Hcount; [apply Hend; discriminate|].
  rewrite (bind_lift_inr _ _ _ n0 eq_refl).
  destruct (status_code r =? 200) eqn:E200.
  - unfold response_json. destruct (decoded r) as [body|]; [|apply Hend; discriminate].
    rewrite bind_run. unfold ret at 1.
    destruct (py_iter body) as [e|items]; [apply Hend; discriminate|].
    rewrite (bind_lift_inr _ _ _ items eq_refl).
    destruct (x_pagination_page_count r) as [|n|]; try (apply Hend; discriminate).
    destruct (n =? 0); [apply Hend; discriminate|].
    destruct (page >=? n); [apply Hend; discriminate|].
    rewrite bind_run, time_sleep_spec by lia.
    set (w3 := emit (Slept 5) _).
    destruct (IH (page + 1) (Trakt.aggregate (Trakt.envelope ep) items processed) w3)
      as (o & w' & evs & E & L & Hx).
    exists o, w', (evs0 ++ sent :: Slept 5 :: evs).
    split; [exact E|].
    split. { rewrite L. change (log w3) with (log w2 ++ [Slept 5]).
             rewrite L2, <- !app_assoc. reflexivity. }
    intros Ho. destruct (Hx Ho) as (Ha & e & He & Hr).
    split; [exact Ha|]. exists e. split; [|exact Hr].
    apply in_or_app. right. right. right. exact He.
  - destruct (Trakt.authenticated ep && (status_code r =? 401)) eqn:E401;
      [|apply Hend; discriminate].
    apply andb_true_iff in E401. destruct E401 as [Ha E401].
    exists SystemExit, w2, (evs0 ++ [sent]).
    split; [reflexivity|]. split; [exact L2|]. intros _.
    split; [exact Ha|]. exists sent. split; [apply in_or_app; right; left; reflexivity|].
    unfold sent. rewrite next_response_head in Hnr. unfold next_reply.
    destruct (inbox w1) as [|[lat a] rest]; [discriminate|]. simpl in Hnr. subst a.
    simpl. split; [reflexivity|]. split; [lia|].
    unfold Trakt.logged_page_count in Hcount.
    destruct (x_pagination_page_count r); discriminate.
Qed.

Lemma fetch_try_exit self ep user list_id limit languages w :
  exists o w' evs,
    Trakt.fetch_try self ep user list_id limit languages w = (o, w') /\
    log w' = log w ++ evs /\
    ((exists r, o = Returned r) \/ o = SystemExit) /\
    (o = SystemExit -> Trakt.authenticated ep = true /\ exists e, In e evs /\ revoked e).
Proof.
  destruct (page_loop_exit self ep user list_id limit (Trakt.join_languages languages)
              (S (length (inbox w))) 1 [] w) as (o & w' & evs & E & L & Hx).
  pose proof (fetch_try_outcome self ep user list_id limit languages w) as Ho.
  unfold result in Ho.
  assert (Et : Trakt.fetch_try self ep user list_id limit languages w
               = (match o with
                  | Returned [] => Returned None
                  | Returned l => Returned (Some l)
                  | Raised _ => Returned None
                  | SystemExit => SystemExit
                  | Diverged => Diverged
                  end, w')).
  { unfold Trakt.fetch_try, try_except. rewrite bind_run, E.
    destruct o as [[|x l]|e| |]; reflexivity. }
  rewrite Et in Ho |- *.
  destruct o as [[|x l]|e| |]; cbn [fst] in Ho.
  - exists (Returned None), w', evs. repeat split; eauto; try discriminate.
  - exists (Returned (Some (x :: l))), w', evs. repeat split; eauto; try discriminate.
  - exists (Returned None), w', evs. repeat split; eauto; try discriminate.
  - exists SystemExit, w', evs.
    split; [reflexivity|]. split; [exact L|].
    split; [right; reflexivity | intros _; exact (Hx eq_refl)].
  - destruct Ho as [(r & Hr) | Hr]; discriminate.
Qed.

(** The decorated method: up to four tries, or an exit at a 401. *)
Lemma fetch_retry_ends self ep user list_id limit languages left :
  forall t seen w,
    exists o w' evs,
      backoff.retry backoff.expo is_None Trakt.backoff_handler
        (Trakt.fetch_try self ep user list_id limit languages) left t seen w = (o, w') /\
      log w' = log w ++ evs /\
      ((exists r n ds, o = Returned (r, n, ds) /\ (t < n <= t + S left)%nat /\
          (r = None -> n = (t + S left)%nat) /\ length ds = (length seen + (n - S t))%nat)
       \/ o = SystemExit) /\
      (o = SystemExit -> Trakt.authenticated ep = true /\ exists e, In e evs /\ revoked e).
Proof.
  induction left as [|left IH]; intros t seen w;
    rewrite (retry_step is_None _ _ (or_intror eq_refl));
    destruct (fetch_try_exit self ep user list_id limit languages w)
      as (o & w1 & evs & -> & L & [(r & ->) | ->] & Hx).
  - exists (Returned (r, S t, seen)), w1, evs.
    split; [destruct r; reflexivity|]. split; [exact L|].
    split; [|discriminate]. left. exists r, (S t), seen.
    repeat split; try lia. 
  - exists SystemExit, w1, evs. auto.
  - destruct r as [l|]; simpl.
    + exists (Returned (Some l, S t, seen)), w1, evs.
      split; [reflexivity|]. split; [exact L|]. split; [|discriminate].
      left. exists (Some l), (S t), seen. repeat split; try lia. discriminate.
    + destruct (IH (S t) (seen ++ [backoff.Details (S t) (backoff.expo t)
                                      (pause_length (S t) w1)]) (after_pause (S t) w1))
        as (o & w' & evs' & E & L' & Ho & Hx').
      exists o, w', (evs ++ Warned (pause_length (S t) w1) (S t)
                         :: Slept (pause_length (S t) w1) :: evs').
      split; [exact E|].
      split. { rewrite L'. simpl. rewrite L, <- !app_assoc. reflexivity. }
      split.
      * destruct Ho as [(r & n & ds & -> & Hn & Hr & Hds) | ->]; [left|right; reflexivity].
        exists r, n, ds. split; [reflexivity|]. split; [lia|].
        split; [intros H; rewrite (Hr H); lia|].
        rewrite Hds, length_app. simpl. lia.
      * intros H. destruct (Hx' H) as (Ha & e & He & Hr).
        split; [exact Ha|]. exists e. split; [|exact Hr].
        apply in_or_app. right. right. right. exact He.
  - exists SystemExit, w1, evs. auto.
Qed.

(** X15.  How a decorated [get_*] method ends, in every world.  It
    raises nothing.  Either it returns, after one to four tries, a value
    at the first try that gave one or [None] after the fourth, having
    backed off once between two tries; or it leaves the process.  It
    leaves the process only if it is one of the four operations that send
    the user's token and one of its page requests was answered with a
    401: the other seven always return. *)
Theorem get_methods_end (self : Trakt.t) (ep : Trakt.endpoint)
    (user : option string) (list_id : string) (limit : Z)
    (languages : option (list string)) (w : world) :
  let run := Trakt.fetch_run self ep user list_id limit languages in
  let get := Trakt.fetch self ep user list_id limit languages in
  ((exists r n ds,
      result run w = Returned (r, n, ds) /\ result get w = Returned r /\
      (1 <= n <= 4)%nat /\ (r = None -> n = 4%nat) /\ length ds = (n - 1)%nat)
   \/ (result run w = SystemExit /\ result get w = SystemExit)) /\
  (result get w = SystemExit ->
   Trakt.authenticated ep = true /\ exists e, In e (events_of get w) /\ revoked e) /\
  (Trakt.authenticated ep = false -> exists r, result get w = Returned r).
Proof.
  intros run get.
  destruct (fetch_retry_ends self ep user list_id limit languages 3 0 [] w)
    as (o & w' & evs & E & L & Ho & Hx).
  assert (Er : run w = (o, w')).
  { unfold run, Trakt.fetch_run, backoff.on_predicate_run. exact E. }
  assert (Eg : get w = (match o with
                        | Returned x => Returned (fst (fst x))
                        | Raised e => Raised e
                        | SystemExit => SystemExit
                        | Diverged => Diverged
                        end, w')).
  { unfold get, Trakt.fetch, backoff.on_predicate, backoff.on_predicate_run.
    rewrite bind_run. change (4 - 1)%nat with 3%nat. rewrite E.
    destruct o; reflexivity. }
  assert (H1 : (exists r n ds,
                  result run w = Returned (r, n, ds) /\ result get w = Returned r /\
                  (1 <= n <= 4)%nat /\ (r = None -> n = 4%nat) /\ length ds = (n - 1)%nat)
               \/ (result run w = SystemExit /\ result get w = SystemExit)).
  { unfold result. rewrite Er, Eg.
    destruct Ho as [(r & n & ds & -> & Hn & Hr & Hds) | ->]; [left|right; auto].
    exists r, n, ds. simpl in *. repeat split; try lia; auto. }
  assert (H2 : result get w = SystemExit ->
               Trakt.authenticated ep = true /\
               exists e, In e (events_of get w) /\ revoked e).
  { unfold result, events_of, final. rewrite Eg. simpl. rewrite L, drop_app_length.
    intros H. apply Hx. destruct o; try discriminate. reflexivity. }
  split; [exact H1|]. split; [exact H2|].
  intros Hpub. destruct H1 as [(r & _ & _ & _ & Hg & _) | [_ Hg]]; [eauto|].
  destruct (H2 Hg) as [Ha _]. congruence.
Qed.

(** ** Polling *)

Lemma poll_statuses_app a b : poll_statuses (a ++ b) = poll_statuses a ++ poll_statuses b.
Proof. apply omap_app. Qed.

(** What a token request answered with a 200 leads to: no pause and no
    further poll; a credential is stored at most once, and only when
    [True] is reported; [False] is never reported. *)
Lemma process_token_request_200 self req w :
  status_code req = 200 ->
  exists o w' evs,
    Trakt.__oauth_process_token_request self req w = (o, w') /\
    log w' = log w ++ evs /\ sleeps evs = [] /\ poll_statuses evs = [] /\
    ((exists st c, o = Returned (true, st) /\ credentials w' = credentials w ++ [c])
     \/ ((exists e, o = Raised e) /\ credentials w' = credentials w)).
Proof.
  intros H200.
  destruct (decoded req) as [body|] eqn:Hbody.
  2:{ exists (Raised JSONDecodeError), w, []. rewrite app_nil_r.
      split; [|repeat split; eauto].
      unfold Trakt.__oauth_process_token_request.
      assert (E : (status_code req =? 200) = true) by lia. rewrite E.
      unfold response_json. rewrite Hbody. reflexivity. }
  destruct (py_getitem body "access_token") as [e|v] eqn:Htok.
  { exists (Raised e), w, []. rewrite app_nil_r.
    split; [|repeat split; eauto].
    unfold Trakt.__oauth_process_token_request.
    assert (E : (status_code req =? 200) = true) by lia. rewrite E.
    unfold response_json. rewrite Hbody.
    rewrite (bind_returned _ _ _ _ _ (eq_refl : ret body w = _)), bind_run, Htok.
    reflexivity. }
  destruct (py_concat "Bearer " v) as [e|b] eqn:Hcat.
  { exists (Raised e), w, []. rewrite app_nil_r.
    split; [|repeat split; eauto].
    unfold Trakt.__oauth_process_token_request.
    assert (E : (status_code req =? 200) = true) by lia. rewrite E.
    unfold response_json. rewrite Hbody.
    rewrite (bind_returned _ _ _ _ _ (eq_refl : ret body w = _)).
    rewrite (bind_lift_inr _ _ _ _ Htok), bind_run, Hcat. reflexivity. }
  apply py_concat_inr in Hcat. destruct Hcat as (token & -> & ->).
  rewrite (process_token_request_granted self req w body token H200 Hbody Htok).
  set (w1 := with_bearer (Trakt.headers self) token w).
  destruct (requests_send_final GET (Absolute "https://api.trakt.tv/users/me") []
              (Trakt.headers self) None w1) as (_ & _ & _ & Hcr & _ & Hl).
  set (w2 := final _ w1) in *.
  change (log w1) with (log w) in Hl. change (credentials w1) with (credentials w) in Hcr.
  destruct (next_response w) as [r|].
  2:{ eexists _, w2, _. split; [reflexivity|]. split; [exact Hl|]. repeat split; eauto. }
  destruct (decoded r) as [me|].
  2:{ eexists _, w2, _. split; [reflexivity|]. split; [exact Hl|]. repeat split; eauto. }
  destruct (py_getitem me "username") as [e|username].
  { eexists _, w2, _. split; [reflexivity|]. split; [exact Hl|]. repeat split; eauto. }
  destruct (py_hashable username).
  2:{ eexists _, w2, _. split; [reflexivity|]. split; [exact Hl|]. repeat split; eauto. }
  eexists _, _, _. split; [reflexivity|]. split; [exact Hl|].
  split; [reflexivity|]. split; [reflexivity|].
  left. eexists _, _. split; [reflexivity|]. simpl. rewrite Hcr. reflexivity.
Qed.

(** Statuses among which a 200 can only be the last. *)
Lemma ends_at_200_nil (pre post : list Z) : [] = pre ++ 200 :: post -> post = [].
Proof. destruct pre; discriminate. Qed.

Lemma ends_at_200_one (pre post : list Z) : [200] = pre ++ 200 :: post -> post = [].
Proof.
  destruct pre as [|x pre]; simpl; intros H; inversion H; [reflexivity|].
  destruct pre; discriminate.
Qed.

Lemma ends_at_200_cons (status : Z) (later : list Z) :
  status <> 200 ->
  (forall pre post, later = pre ++ 200 :: post -> post = []) ->
  forall pre post, status :: later = pre ++ 200 :: post -> post = [].
Proof.
  intros Hs Hl [|x pre] post; simpl; intros H; inversion H; [congruence|].
  eapply Hl. eassumption.
Qed.

Section polling.
Variables (self : Trakt.t) (device_code : json) (start expire : Z).

(** The loop: after every poll that is answered with a status other than
    200 there is one pause, whose length follows the statuses; at most
    one credential is stored; and a poll answered with a 200 is the last. *)
Lemma poll_loop_pauses fuel :
  forall interval w,
    0 <= interval ->
    exists o w' evs,
      Trakt.poll_loop fuel self device_code start interval expire w = (o, w') /\
      log w' = log w ++ evs /\
      sleeps evs = pauses interval (poll_statuses evs) /\
      (credentials w' = credentials w \/ exists c, credentials w' = credentials w ++ [c]) /\
      (forall pre post, poll_statuses evs = pre ++ 200 :: post -> post = []).
Proof.
  induction fuel as [|fuel IH]; intros interval w Hint.
  { exists (if clock w - start <? expire then Diverged else Returned false), w, [].
    rewrite app_nil_r. split; [|repeat split; auto; apply ends_at_200_nil].
    cbn [Trakt.poll_loop]. rewrite bind_run. unfold time_time.
    destruct (clock w - start <? expire); reflexivity. }
  cbn [Trakt.poll_loop]. rewrite bind_run. unfold time_time.
  destruct (clock w - start <? expire).
  2:{ exists (Returned false), w, []. rewrite app_nil_r.
      repeat split; auto; apply ends_at_200_nil. }
  rewrite bind_run, requests_send_spec.
  set (payload := [("code", device_code); ("client_id", JStr (Trakt.api_key self));
                   ("client_secret", JStr (Trakt.api_secret self));
                   ("grant_type", JStr "authorization_code")]).
  destruct (requests_send_final POST (Absolute "https://api.trakt.tv/oauth/device/token")
              payload (Trakt.headers self) None w) as (_ & _ & _ & Hcr & _ & Hl).
  unfold final in Hl, Hcr. rewrite requests_send_spec in Hl, Hcr. cbn [snd] in Hl, Hcr.
  set (w1 := emit _ (set_clock _ (set_inbox _ w))) in *.
  set (sent := Sent (clock w) (Request POST (Absolute "https://api.trakt.tv/oauth/device/token")
                 payload (deref (Trakt.headers self) w) None) (fst (next_reply w))) in *.
  assert (Hst : poll_statuses [sent] = match next_response w with
                                       | Some r => [status_code r]
                                       | None => []
                                       end).
  { unfold sent, poll_statuses, next_response. simpl.
    destruct (answer (fst (next_reply w))); reflexivity. }
  destruct (next_response w) as [r|] eqn:Hnr.
  2:{ exists (Raised ConnectionError), w1, [sent]. split; [reflexivity|].
      split; [exact Hl|]. rewrite Hst. repeat split; auto; apply ends_at_200_nil. }
  rewrite bind_run.
  destruct (Z.eq_dec (status_code r) 200) as [H200|H200].
  - destruct (process_token_request_200 self r w1 H200)
      as (o & w2 & evs & -> & L & Hsl & Hps & Hc).
    assert (Hlast : forall pre post,
              poll_statuses (sent :: evs) = pre ++ 200 :: post -> post = []).
    { change (sent :: evs) with ([sent] ++ evs). rewrite poll_statuses_app, Hst, Hps.
      simpl. rewrite H200. apply ends_at_200_one. }
    assert (Hp : pauses interval (poll_statuses (sent :: evs)) = []).
    { change (sent :: evs) with ([sent] ++ evs). rewrite poll_statuses_app, Hst, Hps.
      simpl. assert (E : (status_code r =? 200) = true) by lia. rewrite E. reflexivity. }
    assert (Hs : sleeps (sent :: evs) = []) by exact Hsl.
    assert (L2 : log w2 = log w ++ sent :: evs).
    { rewrite L, Hl, <- app_assoc. reflexivity. }
    destruct Hc as [(st & c & -> & Hc) | ((e & ->) & Hc)].
    + exists (Returned false), w2, (sent :: evs). split; [reflexivity|].
      split; [exact L2|]. split; [rewrite Hs, Hp; reflexivity|].
      split; [|exact Hlast].
      right. exists c. rewrite Hc, Hcr. reflexivity.
    + exists (Raised e), w2, (sent :: evs). split; [reflexivity|].
      split; [exact L2|]. split; [rewrite Hs, Hp; reflexivity|].
      split; [|exact Hlast].
      left. rewrite Hc, Hcr. reflexivity.
  - rewrite (process_token_request_not_granted self r w1 H200).
    cbv beta iota.
    set (interval' := if status_code r =? 426 then interval + 1 else interval).
    assert (Hint' : 0 <= interval') by (unfold interval'; destruct (_ =? 426); lia).
    rewrite bind_run, time_sleep_spec by exact Hint'.
    set (w3 := emit (Slept interval') _).
    destruct (IH interval' w3 Hint') as (o & w' & evs & E & L & Hsl & Hc & Hlast).
    exists o, w', (sent :: Slept interval' :: evs). split; [exact E|].
    split. { rewrite L. change (log w3) with (log w1 ++ [Slept interval']).
             rewrite Hl, <- !app_assoc. reflexivity. }
    split.
    + change (sent :: Slept interval' :: evs) with ([sent] ++ (Slept interval' :: evs)).
      rewrite poll_statuses_app, Hst. simpl.
      assert (E2 : (status_code r =? 200) = false) by lia. rewrite E2.
      fold interval'. change (sleeps (sent :: Slept interval' :: evs))
        with (interval' :: sleeps evs).
      rewrite Hsl. reflexivity.
    + split.
      * change (credentials w3) with (credentials w1) in Hc. rewrite Hcr in Hc. exact Hc.
      * change (sent :: Slept interval' :: evs) with ([sent] ++ (Slept interval' :: evs)).
        rewrite poll_statuses_app, Hst.
        change (poll_statuses (Slept interval' :: evs)) with (poll_statuses evs).
        apply ends_at_200_cons; assumption.
Qed.
End polling.

(** X16.  The pauses of [__oauth_poll_for_access_token], whatever the
    server answers: one pause of the interval before the first poll, then
    one pause after every poll that is answered with a status other than
    200.  The interval in force grows by one second with every 426 and is
    left alone by every other status, 429 included.  After a 200 there is
    no pause and no further poll: a 200 can only be the last of the
    statuses.  At most one credential is handed to the configuration
    store. *)
Theorem polling_pauses_follow_the_statuses (self : Trakt.t) (device_code : json)
    (interval expire : Z) (w : world) :
  0 <= interval ->
  let poll := Trakt.__oauth_poll_for_access_token self device_code
                (JInt interval) (JInt expire) in
  sleeps (events_of poll w) = interval :: pauses interval (poll_statuses (events_of poll w)) /\
  (credentials (final poll w) = credentials w \/
   exists c, credentials (final poll w) = credentials w ++ [c]) /\
  (forall pre post,
     poll_statuses (events_of poll w) = pre ++ 200 :: post -> post = []).
Proof.
  intros Hint poll.
  unfold poll, events_of, final, Trakt.__oauth_poll_for_access_token.
  rewrite bind_run. unfold time_time. simpl py_number.
  rewrite (bind_lift_inr _ _ _ interval eq_refl).
  rewrite bind_run, time_sleep_spec by exact Hint.
  set (w1 := emit (Slept interval) _).
  rewrite (bind_lift_inr _ _ _ expire eq_refl).
  destruct (poll_loop_pauses self device_code (clock w) expire (S (length (inbox w1)))
              interval w1 Hint) as (o & w' & evs & -> & L & Hsl & Hc & Hlast).
  cbn [snd]. rewrite L. change (log w1) with (log w ++ [Slept interval]).
  rewrite <- app_assoc, drop_app_length.
  split; [|split; [exact Hc | exact Hlast]].
  change ([Slept interval] ++ evs) with (Slept interval :: evs).
  change (sleeps (Slept interval :: evs)) with (interval :: sleeps evs).
  change (poll_statuses (Slept interval :: evs)) with (poll_statuses evs).
  rewrite Hsl. reflexivity.
Qed.

(** Polls answered 429, 426, 426 and 404, then the time is up: pauses of
    5, 5, 6, 7 and 7 seconds. *)
Lemma polling_pauses_follow_the_statuses_witness :
  let w := Sample.world_with
             [Sample.respond 429 NoHeader "" None; Sample.respond 426 NoHeader "" None;
              Sample.respond 426 NoHeader "" None; Sample.respond 404 NoHeader "" None;
              Sample.respond 200 NoHeader "" None] [] [] in
  let poll := Trakt.__oauth_poll_for_access_token Sample.trakt (JStr "d3v1c3")
                (JInt 5) (JInt 30) in
  sleeps (events_of poll w) = [5; 5; 6; 7; 7] /\
  poll_statuses (events_of poll w) = [429; 426; 426; 404].
Proof.
  intros w poll.
  destruct (polling_pauses_follow_the_statuses Sample.trakt (JStr "d3v1c3") 5 30 w
              ltac:(lia)) as (H & _ & _).
  fold poll in H.
  assert (Hs : poll_statuses (events_of poll w) = [429; 426; 426; 404])
    by (vm_compute; reflexivity).
  split; [|exact Hs]. rewrite H, Hs. reflexivity.
Defined.

Lemma device_code_fields_inv body d n :
  device_code_fields body = Some (d, n) ->
  exists v u i x,
    py_getitem body "verification_url" = inr v /\ py_getitem body "user_code" = inr u /\
    py_getitem body "interval" = inr i /\ py_getitem body "device_code" = inr d /\
    py_getitem body "expires_in" = inr x /\ py_number i = inr n /\ 0 <= n.
Proof.
  unfold device_code_fields.
  destruct (py_getitem body "verification_url") as [|v] eqn:E1; [discriminate|].
  destruct (py_getitem body "user_code") as [|u] eqn:E2; [discriminate|].
  destruct (py_getitem body "interval") as [|i] eqn:E3; [discriminate|].
  destruct (py_getitem body "device_code") as [|d'] eqn:E4; [discriminate|].
  destruct (py_getitem body "expires_in") as [|x] eqn:E5; [discriminate|].
  destruct (py_number i) as [|n'] eqn:E6; [discriminate|].
  destruct (n' <? 0) eqn:E7; [discriminate|].
  intros H. inversion H; subst. exists v, u, i, x. repeat split; auto. lia.
Qed.

Section device_authorization.
Variable self : Trakt.t.

Let ask : M response :=
  requests_send POST (Absolute "https://api.trakt.tv/oauth/device/code")
    [("client_id", JStr (Trakt.api_key self))] (Trakt.headers self) None.

(** The flow when the answer to the device-code request cannot be used:
    it is over after that request. *)
Lemma oauth_authentication_no_code w :
  (next_response w ≫= decoded) ≫= device_code_fields = None ->
  Trakt.oauth_authentication self w = (Returned false, final ask w).
Proof.
  intros Hnone.
  unfold Trakt.oauth_authentication, Trakt.__oauth_request_device_code.
  rewrite try_except_run. fold ask. rewrite !bind_run.
  unfold final, ask. rewrite requests_send_spec.
  destruct (next_response w) as [r|]; [|reflexivity]. cbn [fst snd].
  unfold response_json. simpl in Hnone.
  destruct (decoded r) as [body|]; [|reflexivity]. simpl in Hnone.
  unfold ret at 1. cbv beta iota.
  unfold device_code_fields in Hnone.
  unfold Trakt.__oauth_poll_for_access_token, lift, bind, ret, raise, time_time.
  cbv beta iota.
  destruct (py_getitem body "verification_url"); cbv beta iota; [reflexivity|].
  destruct (py_getitem body "user_code"); cbv beta iota; [reflexivity|].
  destruct (py_getitem body "interval") as [|i] eqn:Ei; cbv beta iota; [reflexivity|].
  destruct (py_getitem body "device_code") as [|d]; cbv beta iota; [reflexivity|].
  rewrite Ei. cbv beta iota.
  destruct (py_getitem body "expires_in") as [|x]; cbv beta iota; [reflexivity|].
  destruct (py_number i) as [|n]; cbv beta iota; [reflexivity|].
  unfold time_sleep. destruct (n <? 0); [reflexivity | discriminate].
Qed.

(** The flow when it can: it goes on to poll. *)
Lemma oauth_authentication_code w r body d n :
  next_response w = Some r -> decoded r = Some body ->
  device_code_fields body = Some (d, n) ->
  exists i x,
    py_number i = inr n /\ 0 <= n /\
    Trakt.oauth_authentication self w
    = try_except
        (ok ← Trakt.__oauth_poll_for_access_token self d i x;
         if ok : bool then ret true else ret false)
        (fun _ => ret false) (final ask w).
Proof.
  intros Hr Hbody Hf.
  destruct (device_code_fields_inv body d n Hf) as (v & u & i & x & E1 & E2 & E3 & E4 & E5
                                                    & E6 & Hn).
  exists i, x. split; [exact E6|]. split; [exact Hn|].
  unfold Trakt.oauth_authentication, Trakt.__oauth_request_device_code, final, ask.
  unfold try_except at 1. unfold bind at 1 2. rewrite !requests_send_spec, Hr.
  cbv beta iota. unfold response_json, bind at 1, ret at 1. rewrite Hbody. cbv beta iota.
  unfold bind at 1, lift at 1, ret at 1. rewrite E1. cbv beta iota.
  unfold bind at 1, lift at 1, ret at 1. rewrite E2. cbv beta iota.
  unfold bind at 1, lift at 1, ret at 1 2. rewrite E3. cbv beta iota.
  unfold bind at 1, lift at 1, ret at 1. rewrite E4. cbv beta iota.
  unfold bind at 1, lift at 1, ret at 1. rewrite E3. cbv beta iota.
  unfold bind at 1, lift at 1, ret at 1. rewrite E5. cbv beta iota.
  reflexivity.
Qed.
End device_authorization.

(** X17.  The device-authorization flow, whatever the server answers.
    It returns [False]: it never returns [True] and never raises.  It
    begins with one request for a device code.  If the answer cannot be
    used (no response, a body that does not decode, one of the five fields
    missing, an interval that is no number or is negative) the flow is
    over after that request.  Otherwise it pauses for the interval before
    it polls.  Whatever happens then, at most one credential is handed to
    the configuration store. *)
Theorem device_authorization_ends (self : Trakt.t) (w : world) :
  let flow := Trakt.oauth_authentication self in
  let asked := Sent (clock w)
                 (Request POST (Absolute "https://api.trakt.tv/oauth/device/code")
                    [("client_id", JStr (Trakt.api_key self))]
                    (deref (Trakt.headers self) w) None)
                 (fst (next_reply w)) in
  result flow w = Returned false /\
  (credentials (final flow w) = credentials w \/
   exists c, credentials (final flow w) = credentials w ++ [c]) /\
  match (next_response w ≫= decoded) ≫= device_code_fields with
  | None => events_of flow w = [asked]
  | Some (_, interval) => exists more, events_of flow w = asked :: Slept interval :: more
  end.
Proof.
  intros flow asked. split; [apply oauth_authentication_returns_false|].
  destruct (requests_send_final POST (Absolute "https://api.trakt.tv/oauth/device/code")
              [("client_id", JStr (Trakt.api_key self))] (Trakt.headers self) None w)
    as (_ & _ & _ & Hcr & _ & Hl).
  fold asked in Hl.
  set (w1 := final _ w) in *.
  destruct ((next_response w ≫= decoded) ≫= device_code_fields) as [[d n]|] eqn:Hf.
  2:{ unfold flow, events_of, final.
      rewrite (oauth_authentication_no_code self w Hf). fold w1. cbn [snd].
      split; [left; exact Hcr|]. rewrite Hl, drop_app_length. reflexivity. }
  destruct (next_response w) as [r|] eqn:Hr; [|discriminate]. simpl in Hf.
  destruct (decoded r) as [body|] eqn:Hbody; [|discriminate]. simpl in Hf.
  destruct (oauth_authentication_code self w r body d n Hr Hbody Hf) as (i & x & Hi & Hn & E).
  fold w1 in E. unfold flow, events_of, final. rewrite E. clear E.
  rewrite try_except_run, bind_run.
  unfold Trakt.__oauth_poll_for_access_token.
  rewrite bind_run. unfold time_time. rewrite (bind_lift_inr _ _ _ _ Hi).
  rewrite bind_run, time_sleep_spec by exact Hn.
  set (w2 := emit (Slept n) _).
  assert (L2 : log w2 = log w ++ [asked; Slept n]).
  { change (log w2) with (log w1 ++ [Slept n]). rewrite Hl, <- app_assoc. reflexivity. }
  destruct (py_number x) as [e|expire].
  { unfold bind, lift, raise, ret. cbv beta iota. cbn [snd].
    split; [left; exact Hcr|].
    exists []. rewrite L2, drop_app_length. reflexivity. }
  rewrite (bind_lift_inr _ _ _ expire eq_refl).
  destruct (poll_loop_pauses self d (clock w1) expire (S (length (inbox w2))) n w2 Hn)
    as (o & w' & evs & -> & L & _ & Hc & _).
  change (credentials w2) with (credentials w1) in Hc. rewrite Hcr in Hc.
  assert (Hw : forall o' : outcome bool,
            (credentials (snd (o', w')) = credentials w \/
             exists c, credentials (snd (o', w')) = credentials w ++ [c]) /\
            exists more,
              drop (length (log w)) (log (snd (o', w'))) = asked :: Slept n :: more).
  { intros o'. split; [exact Hc|]. exists evs. cbn [snd].
    rewrite L, L2, <- app_assoc, drop_app_length. reflexivity. }
  destruct o as [[|]|e| |]; apply Hw.
Qed.

(** ** The token in the shared headers, whatever the call *)

(** A try of an operation that sends the user's token either leaves the
    token in the shared headers, or fails before it has asked for a page. *)
Lemma fetch_try_token self ep user list_id limit languages w :
  Trakt.authenticated ep = true ->
  bearer (Trakt.headers self)
    (final (Trakt.fetch_try self ep user list_id limit languages) w) \/
  (result (Trakt.fetch_try self ep user list_id limit languages) w = Returned None /\
   oauth_traffic w (final (Trakt.fetch_try self ep user list_id limit languages) w)).
Proof.
  intros Hauth.
  destruct (fetch_try_loop self ep user list_id limit languages w) as [Hf _].
  assert (Hr : forall e w',
             Trakt.page_loop (S (length (inbox w))) self ep user list_id limit
               (Trakt.join_languages languages) 1 [] w = (Raised e, w') ->
             result (Trakt.fetch_try self ep user list_id limit languages) w
             = Returned None).
  { intros e w' E. unfold result, Trakt.fetch_try, try_except. rewrite bind_run, E.
    reflexivity. }
  rewrite Hf. revert Hr. unfold final. cbn [Trakt.page_loop]. rewrite Hauth.
  destruct (Trakt.endpoint_url ep user list_id) as [x|u].
  { intros Hr. right. split; [eapply Hr; reflexivity | apply oauth_traffic_refl]. }
  rewrite (bind_lift_inr _ _ _ u eq_refl). rewrite bind_run.
  destruct (Trakt.oauth_headers self user w) as [o1 w1] eqn:E1.
  pose proof (steps_run _ _ _ _ _ (oauth_traffic_oauth_headers self user) E1) as T1.
  pose proof (plain_oauth_headers self user w) as P1. unfold result in P1.
  rewrite E1 in P1.
  destruct o1 as [h|e| |]; simpl in P1, T1; try contradiction.
  2:{ intros Hr. right. split; [eapply Hr; reflexivity | exact T1]. }
  intros _. left.
  destruct (oauth_headers_writes _ _ _ _ _ E1) as (token & Ht).
  match goal with |- bearer _ (snd (?m w1)) =>
    assert (Hk : keeps (Trakt.headers self) m) end.
  { apply oauth_headers_alias in E1. subst h.
    apply steps_bind; [apply keeps_requests_send|]. intros req.
    apply steps_bind; [apply steps_lift|]. intros _.
    destruct (status_code req =? 200).
    - apply steps_bind; [apply steps_response_json|]. intros resp_json.
      apply steps_bind; [apply steps_lift|]. intros shows.
      destruct (x_pagination_page_count req) as [|n|];
        [apply steps_ret | | apply steps_raise].
      destruct (n =? 0); [apply steps_ret|].
      destruct (1 >=? n); [apply steps_ret|].
      apply steps_bind; [apply keeps_time_sleep|]. intros _. apply keeps_page_loop.
    - simpl. destruct (status_code req =? 401); [apply steps_exit | apply steps_ret]. }
  apply (ext_bearer _ _ _ (Hk w1)). exists token. exact Ht.
Qed.

Lemma oauth_traffic_pause t w : oauth_traffic w (after_pause t w).
Proof.
  exists [Warned (pause_length t w) t; Slept (pause_length t w)].
  split; [simpl; rewrite <- app_assoc; reflexivity|]. repeat constructor.
Qed.

(** The same for the decorated call: the token is there unless every try
    failed before it asked for a page. *)
Lemma retry_token {A} h (call : M (option A)) :
  keeps h call ->
  (forall w, bearer h (final call w) \/
             (result call w = Returned None /\ oauth_traffic w (final call w))) ->
  forall left t seen w,
    bearer h (final (backoff.retry backoff.expo is_None Trakt.backoff_handler call
                       left t seen) w) \/
    ((exists n ds,
        result (backoff.retry backoff.expo is_None Trakt.backoff_handler call
                  left t seen) w = Returned (None, n, ds)) /\
     oauth_traffic w (final (backoff.retry backoff.expo is_None Trakt.backoff_handler call
                               left t seen) w)).
Proof.
  intros Hk Hcall. induction left as [|left IH]; intros t seen w;
    unfold final, result; rewrite (retry_step is_None call _ (or_intror eq_refl));
    destruct (Hcall w) as [Hb | [Hn Ht]]; unfold final, result in *;
    destruct (call w) as [[[a|]|e| |] w1]; simpl in *; try discriminate; auto.
  - right. split; [eauto | exact Ht].
  - left.
    pose proof (keeps_retry h call left Hk (S t)
                  (seen ++ [backoff.Details (S t) (backoff.expo t) (pause_length (S t) w1)])
                  (after_pause (S t) w1)) as X.
    apply (ext_bearer _ _ _ X). eapply bearer_heap; [|exact Hb]. reflexivity.
  - destruct (IH (S t)
                (seen ++ [backoff.Details (S t) (backoff.expo t) (pause_length (S t) w1)])
                (after_pause (S t) w1)) as [Hb | [Hn' Ht']]; [left; exact Hb|].
    right. split; [exact Hn'|].
    eapply oauth_traffic_trans; [exact Ht|].
    eapply oauth_traffic_trans; [apply oauth_traffic_pause | exact Ht'].
Qed.

Lemma fetch_token self ep user list_id limit languages w :
  Trakt.authenticated ep = true ->
  bearer (Trakt.headers self)
    (final (Trakt.fetch self ep user list_id limit languages) w) \/
  (result (Trakt.fetch self ep user list_id limit languages) w = Returned None /\
   Forall no_page_request (events_of (Trakt.fetch self ep user list_id limit languages) w)).
Proof.
  intros Hauth.
  pose proof (retry_token (Trakt.headers self)
                (Trakt.fetch_try self ep user list_id limit languages)
                (keeps_fetch_try self ep user list_id limit languages)
                (fun v => fetch_try_token self ep user list_id limit languages v Hauth)
                3 0 [] w) as H.
  unfold final, result in H.
  destruct (backoff.retry backoff.expo is_None Trakt.backoff_handler
              (Trakt.fetch_try self ep user list_id limit languages) 3 0 [] w)
    as [o w'] eqn:E.
  assert (Eg : Trakt.fetch self ep user list_id limit languages w
               = (match o with
                  | Returned x => Returned (fst (fst x))
                  | Raised e => Raised e
                  | SystemExit => SystemExit
                  | Diverged => Diverged
                  end, w')).
  { unfold Trakt.fetch, backoff.on_predicate, backoff.on_predicate_run.
    rewrite bind_run. change (4 - 1)%nat with 3%nat. rewrite E.
    destruct o; reflexivity. }
  unfold events_of, final, result. rewrite Eg. cbn [fst snd] in H |- *.
  destruct H as [Hb | [(n' & ds' & Hn) (evs & L & Hev)]]; [left; exact Hb|].
  right. subst o. split; [reflexivity|]. rewrite L, drop_app_length. exact Hev.
Qed.

(** A client that holds a token in date gets it into the headers at the
    first try. *)
Lemma fetch_ready_bearer self ep user list_id limit languages w :
  Trakt.authenticated ep = true ->
  ready ep user list_id (clock w) w ->
  bearer (Trakt.headers self)
    (final (Trakt.fetch self ep user list_id limit languages) w).
Proof.
  intros Hauth [(u & Hu) Hs].
  destruct (oauth_headers_signed_in self user (clock w) w (Hs Hauth) (Z.le_refl _))
    as (w1 & E1 & _ & L1 & _).
  destruct (fetch_token self ep user list_id limit languages w Hauth) as [Hb | [_ Hno]];
    [exact Hb|].
  exfalso.
  destruct (retry_events_prefix (Trakt.headers self)
              (Trakt.fetch_try self ep user list_id limit languages) (4 - 1) 0 [] w
              (keeps_fetch_try self ep user list_id limit languages)) as (more & Hr).
  assert (Hfr : events_of (Trakt.fetch self ep user list_id limit languages) w
                = events_of (backoff.retry backoff.expo is_None Trakt.backoff_handler
                               (Trakt.fetch_try self ep user list_id limit languages)
                               (4 - 1) 0 []) w).
  { unfold events_of, final, Trakt.fetch, backoff.on_predicate, backoff.on_predicate_run.
    rewrite bind_run.
    destruct (backoff.retry _ _ _ _ _ _ _ w) as [[x|x| |] w']; reflexivity. }
  rewrite Hfr, Hr in Hno. apply Forall_app in Hno. destruct Hno as [Hno _].
  revert Hno.
  destruct (fetch_try_loop self ep user list_id limit languages w) as [Hf _].
  unfold events_of. rewrite Hf. unfold final. cbn [Trakt.page_loop]. rewrite Hauth.
  rewrite (bind_lift_inr _ _ _ _ Hu). rewrite bind_run, E1. cbv beta iota.
  rewrite bind_run. cbn [snd].
  pose proof (keeps_requests_send (Trakt.headers self) GET (Absolute u)
                (Trakt.page_payload limit 1 (Trakt.join_languages languages)) None w1) as X2.
  unfold final in X2. revert X2. rewrite requests_send_spec. cbv zeta.
  set (w2 := emit _ (set_clock _ (set_inbox _ w1))). intros X2. cbn [snd] in X2.
  set (sent := Sent (clock w1) (Request GET (Absolute u)
                 (Trakt.page_payload limit 1 (Trakt.join_languages languages))
                 (deref (Trakt.headers self) w1) None) (fst (next_reply w1))).
  assert (L2 : log w2 = log w ++ [sent]).
  { unfold w2. simpl. rewrite L1. reflexivity. }
  assert (Hp : ~ no_page_request sent).
  { unfold sent, no_page_request, page_request. simpl.
    unfold Trakt.page_payload. destruct (Trakt.join_languages languages); simpl;
      discriminate. }
  assert (Hend : forall w', (exists evs, log w' = log w2 ++ evs) ->
            Forall no_page_request (drop (length (log w)) (log w')) -> False).
  { intros w' (evs & L) Hall. rewrite L, L2, <- app_assoc, drop_app_length in Hall.
    apply Forall_cons in Hall. destruct Hall as [Hs' _]. exact (Hp Hs'). }
  destruct (next_response w1) as [req|]; cbn [fst snd].
  2:{ apply Hend. exists []. rewrite app_nil_r. reflexivity. }
  match goal with |- context [snd (?m w2)] =>
    assert (Hk : keeps (Trakt.headers self) m) end.
  { apply steps_bind; [apply steps_lift|]. intros _.
    destruct (status_code req =? 200).
    - apply steps_bind; [apply steps_response_json|]. intros resp_json.
      apply steps_bind; [apply steps_lift|]. intros shows.
      destruct (x_pagination_page_count req) as [|n|];
        [apply steps_ret | | apply steps_raise].
      destruct (n =? 0); [apply steps_ret|].
      destruct (1 >=? n); [apply steps_ret|].
      apply steps_bind; [apply keeps_time_sleep|]. intros _. apply keeps_page_loop.
    - simpl. destruct (status_code req =? 401); [apply steps_exit | apply steps_ret]. }
  apply Hend. destruct (Hk w2) as [(evs & L & _) _ _ _]. exists evs. exact L.
Qed.

(** A token that is granted is in the shared headers when the token
    request has been processed, however the request to [users/me] ends. *)
Lemma process_token_request_bearer self req w body token :
  status_code req = 200 -> decoded req = Some body ->
  py_getitem body "access_token" = inr (JStr token) ->
  deref (Trakt.headers self) (final (Trakt.__oauth_process_token_request self req) w)
    !! "Authorization" = Some ("Bearer " +:+ token).
Proof.
  intros H200 Hbody Htoken. unfold final.
  rewrite (process_token_request_granted self req w body token H200 Hbody Htoken).
  set (w1 := with_bearer (Trakt.headers self) token w).
  destruct (requests_send_final GET (Absolute "https://api.trakt.tv/users/me") []
              (Trakt.headers self) None w1) as (_ & Hh & _).
  set (w2 := final _ w1) in *.
  assert (Hb : deref (Trakt.headers self) w2 !! "Authorization"
               = Some ("Bearer " +:+ token)).
  { unfold deref. rewrite Hh. unfold w1, with_bearer. simpl.
    rewrite lookup_insert_eq. simpl. apply lookup_insert_eq. }
  destruct (next_response w) as [r|]; [|exact Hb].
  destruct (decoded r) as [me|]; [|exact Hb].
  destruct (py_getitem me "username") as [e|username]; [exact Hb|].
  destruct (py_hashable username); exact Hb.
Qed.

Lemma no_poll_not_granted evs e :
  poll_statuses evs = [] -> In e evs -> granted e -> False.
Proof.
  induction evs as [|x evs IH]; [intros _ []|].
  intros Hp [-> | Hin] Hg.
  - destruct e as [t rq rp| |]; simpl in Hg; try contradiction.
    destruct Hg as (Hq & r & _ & _ & Ha & _).
    unfold poll_statuses in Hp. simpl in Hp. rewrite Hq, Ha in Hp. discriminate.
  - apply IH; auto. unfold poll_statuses in *. simpl in Hp.
    destruct x as [t rq rp| |]; simpl in Hp; auto.
    destruct (is_token_poll rq); auto.
    destruct (answer rp); simpl in Hp; [discriminate | exact Hp].
Qed.

Section polled.
Variables (self : Trakt.t) (device_code : json) (start expire : Z).

(** The loop: when one of its polls was answered with a token, the token
    is in the shared headers when the loop ends, however it ends. *)
Lemma poll_loop_granted fuel :
  forall interval w,
    exists o w' evs,
      Trakt.poll_loop fuel self device_code start interval expire w = (o, w') /\
      log w' = log w ++ evs /\
      ((exists e, In e evs /\ granted e) -> bearer (Trakt.headers self) w').
Proof.
  induction fuel as [|fuel IH]; intros interval w.
  { exists (if clock w - start <? expire then Diverged else Returned false), w, [].
    rewrite app_nil_r. split; [|split; [reflexivity | intros (e & [] & _)]].
    cbn [Trakt.poll_loop]. rewrite bind_run. unfold time_time.
    destruct (clock w - start <? expire); reflexivity. }
  cbn [Trakt.poll_loop]. rewrite bind_run. unfold time_time.
  destruct (clock w - start <? expire).
  2:{ exists (Returned false), w, []. rewrite app_nil_r.
      split; [reflexivity|]. split; [reflexivity | intros (e & [] & _)]. }
  rewrite bind_run, requests_send_spec.
  set (payload := [("code", device_code); ("client_id", JStr (Trakt.api_key self));
                   ("client_secret", JStr (Trakt.api_secret self));
                   ("grant_type", JStr "authorization_code")]).
  destruct (requests_send_final POST (Absolute "https://api.trakt.tv/oauth/device/token")
              payload (Trakt.headers self) None w) as (_ & _ & _ & _ & _ & Hl).
  unfold final in Hl. rewrite requests_send_spec in Hl. cbn [snd] in Hl.
  set (w1 := emit _ (set_clock _ (set_inbox _ w))) in *.
  set (sent := Sent (clock w) (Request POST (Absolute "https://api.trakt.tv/oauth/device/token")
                 payload (deref (Trakt.headers self) w) None) (fst (next_reply w))) in *.
  assert (Hsent : granted sent ->
            exists r body token,
              next_response w = Some r /\ status_code r = 200 /\ decoded r = Some body /\
              py_getitem body "access_token" = inr (JStr token)).
  { unfold sent, next_response. simpl. intros (_ & r & body & token & H). eauto 10. }
  destruct (next_response w) as [r|] eqn:Hnr.
  2:{ exists (Raised ConnectionError), w1, [sent]. split; [reflexivity|].
      split; [exact Hl|]. intros (e & [<- | []] & Hg).
      destruct (Hsent Hg) as (r & _ & _ & Hr & _). discriminate. }
  rewrite bind_run.
  destruct (Z.eq_dec (status_code r) 200) as [H200|H200].
  - destruct (process_token_request_200 self r w1 H200)
      as (o & w2 & evs & E & L & _ & Hps & Hc).
    assert (L2 : log w2 = log w ++ sent :: evs).
    { rewrite L, Hl, <- app_assoc. reflexivity. }
    assert (Hb : (exists e, In e (sent :: evs) /\ granted e) ->
                 bearer (Trakt.headers self) w2).
    { intros (e & [<- | Hin] & Hg);
        [|exfalso; exact (no_poll_not_granted evs e Hps Hin Hg)].
      destruct (Hsent Hg) as (r' & body & token & Hr & _ & Hd & Ht).
      assert (r' = r) by congruence. subst r'.
      exists token.
      replace w2 with (final (Trakt.__oauth_process_token_request self r) w1)
        by (unfold final; rewrite E; reflexivity).
      exact (process_token_request_bearer self r w1 body token H200 Hd Ht). }
    rewrite E.
    destruct Hc as [(st & c & -> & _) | ((e & ->) & _)].
    + exists (Returned false), w2, (sent :: evs). auto.
    + exists (Raised e), w2, (sent :: evs). auto.
  - rewrite (process_token_request_not_granted self r w1 H200).
    assert (Hns : ~ granted sent).
    { intros Hg. destruct (Hsent Hg) as (r' & _ & _ & Hr & Hs & _). congruence. }
    cbv beta iota. rewrite bind_run.
    set (interval' := if status_code r =? 426 then interval + 1 else interval).
    unfold time_sleep at 1.
    destruct (interval' <? 0).
    { exists (Raised ValueError), w1, [sent]. split; [reflexivity|].
      split; [exact Hl|]. intros (e & [<- | []] & Hg). contradiction. }
    cbv beta iota. cbn [snd].
    set (w3 := emit (Slept interval') (set_clock (clock w1 + interval') w1)).
    destruct (IH interval' w3) as (o & w' & evs & E & L & Hb).
    exists o, w', (sent :: Slept interval' :: evs).
    split; [exact E|].
    split. { rewrite L. change (log w3) with (log w1 ++ [Slept interval']).
             rewrite Hl, <- !app_assoc. reflexivity. }
    intros (e & [<- | [<- | Hin]] & Hg); [contradiction | destruct Hg |].
    apply Hb. eauto.
Qed.
End polled.

Lemma poll_granted self device_code interval expire w e :
  In e (events_of (Trakt.__oauth_poll_for_access_token self device_code interval expire) w) ->
  granted e ->
  bearer (Trakt.headers self)
    (final (Trakt.__oauth_poll_for_access_token self device_code interval expire) w).
Proof.
  assert (H : exists o w' evs,
             Trakt.__oauth_poll_for_access_token self device_code interval expire w
             = (o, w') /\ log w' = log w ++ evs /\
             ((exists e, In e evs /\ granted e) -> bearer (Trakt.headers self) w')).
  { unfold Trakt.__oauth_poll_for_access_token.
    rewrite bind_run. unfold time_time at 1.
    destruct (py_number interval) as [x|i].
    { exists (Raised x), w, []. rewrite app_nil_r.
      split; [reflexivity|]. split; [reflexivity | intros (e0 & [] & _)]. }
    rewrite (bind_lift_inr _ _ _ i eq_refl). rewrite bind_run.
    unfold time_sleep at 1.
    destruct (i <? 0).
    { exists (Raised ValueError), w, []. rewrite app_nil_r.
      split; [reflexivity|]. split; [reflexivity | intros (e0 & [] & _)]. }
    cbv beta iota. cbn [snd].
    set (w1 := emit (Slept i) (set_clock (clock w + i) w)).
    destruct (py_number expire) as [x|x].
    { exists (Raised x), w1, [Slept i].
      split; [reflexivity|]. split; [reflexivity | intros (e0 & [<- | []] & [])]. }
    rewrite (bind_lift_inr _ _ _ x eq_refl).
    destruct (poll_loop_granted self device_code (clock w) x (S (length (inbox w1))) i w1)
      as (o & w' & evs & E & L & Hb).
    exists o, w', (Slept i :: evs). split; [exact E|].
    split. { rewrite L. change (log w1) with (log w ++ [Slept i]).
             rewrite <- app_assoc. reflexivity. }
    intros (e0 & [<- | Hin] & Hg); [destruct Hg|]. apply Hb. eauto. }
  destruct H as (o & w' & evs & E & L & Hb).
  unfold events_of, final. rewrite E. cbn [snd]. rewrite L, drop_app_length.
  intros Hin Hg. apply Hb. eauto.
Qed.

(** C10.  The header dictionary of a Trakt client is shared by reference.
    - When [oauth_headers] returns, what it returns is the reference kept
      in [self.headers], and the dictionary behind it holds an
      [Authorization] entry with a bearer token; for a user whose stored
      token is in date it does return.
    - After any call of one of the four token-sending operations the entry
      is there, unless the call failed before it asked for a page: then
      it returned [None] and sent no page request.  In particular it is
      there after every call that asked for a page, and after every call
      of a client that is ready.
    - A token request answered with a token writes it into the same
      dictionary through [temp_headers], before [users/me] is asked and
      whatever is answered there; so it is there when the request is
      reported as a success, and after a polling in which a poll was
      answered with a token.
    - Once there, a bearer token stays: after any sequence of calls of the
      client's methods the dictionary still holds one, and every request
      these calls made was sent with one.
    - In particular [get_anticipated_shows], which needs no token, sends
      at least one request, and sends all its requests with the
      [Authorization] entry it finds. *)
Theorem oauth_headers_shares_the_dictionary self :
  (forall user w h w1,
     Trakt.oauth_headers self user w = (Returned h, w1) ->
     h = Trakt.headers self /\ bearer (Trakt.headers self) w1) /\
  (forall user w,
     signed_in user (clock w) w ->
     result (Trakt.oauth_headers self user) w = Returned (Trakt.headers self) /\
     bearer (Trakt.headers self) (final (Trakt.oauth_headers self user) w)) /\
  (forall ep user list_id limit languages w,
     Trakt.authenticated ep = true ->
     bearer (Trakt.headers self)
       (final (Trakt.fetch self ep user list_id limit languages) w) \/
     (result (Trakt.fetch self ep user list_id limit languages) w = Returned None /\
      Forall no_page_request
        (events_of (Trakt.fetch self ep user list_id limit languages) w))) /\
  (forall ep user list_id limit languages w e,
     Trakt.authenticated ep = true ->
     In e (events_of (Trakt.fetch self ep user list_id limit languages) w) ->
     page_sent e ->
     bearer (Trakt.headers self)
       (final (Trakt.fetch self ep user list_id limit languages) w)) /\
  (forall ep user list_id limit languages w,
     Trakt.authenticated ep = true ->
     ready ep user list_id (clock w) w ->
     bearer (Trakt.headers self)
       (final (Trakt.fetch self ep user list_id limit languages) w)) /\
  (forall req w body token,
     status_code req = 200 -> decoded req = Some body ->
     py_getitem body "access_token" = inr (JStr token) ->
     deref (Trakt.headers self)
       (final (Trakt.__oauth_process_token_request self req) w) !! "Authorization"
     = Some ("Bearer " +:+ token)) /\
  (forall req w status w',
     Trakt.__oauth_process_token_request self req w = (Returned (true, status), w') ->
     bearer (Trakt.headers self) w') /\
  (forall device_code interval expire w e,
     In e (events_of (Trakt.__oauth_poll_for_access_token self device_code
                        interval expire) w) ->
     granted e ->
     bearer (Trakt.headers self)
       (final (Trakt.__oauth_poll_for_access_token self device_code interval expire) w)) /\
  (forall w cs,
     bearer (Trakt.headers self) w ->
     bearer (Trakt.headers self) (final (session self cs) w) /\
     Forall carries_bearer (events_of (session self cs) w)) /\
  (forall w v limit languages,
     deref (Trakt.headers self) w !! "Authorization" = Some v ->
     (exists t rq rp more,
        events_of (Trakt.get_anticipated_shows self limit languages) w
        = Sent t rq rp :: more) /\
     Forall (sent_authorization v)
       (events_of (Trakt.get_anticipated_shows self limit languages) w)).
Proof.
  split; [|split; [|split; [|split; [|split; [|split; [|split; [|split; [|split]]]]]]]].
  - intros user w h w1 H. split; [eapply oauth_headers_alias; exact H|].
    exact (oauth_headers_writes _ _ _ _ _ H).
  - intros user w Hs.
    destruct (oauth_headers_signed_in self user (clock w) w Hs (Z.le_refl _))
      as (w1 & E1 & _).
    unfold result, final. rewrite E1. split; [reflexivity|].
    exact (oauth_headers_writes _ _ _ _ _ E1).
  - intros ep user list_id limit languages w. apply fetch_token.
  - intros ep user list_id limit languages w e. apply fetch_bearer.
  - intros ep user list_id limit languages w. apply fetch_ready_bearer.
  - intros req w body token. apply process_token_request_bearer.
  - intros req w status w'. apply process_token_request_writes.
  - intros device_code interval expire w e. apply poll_granted.
  - intros w cs Hb. unfold events_of. apply extends_events; [apply keeps_session | exact Hb].
  - intros w v limit languages Hv. split.
    + apply public_fetch_sends. reflexivity.
    + unfold events_of. eapply same_headers_events; [|exact Hv].
      apply (public_fetch_same_headers self Trakt.anticipated_shows None "" limit
               languages eq_refl w).
Qed.

(** Alice's token, written by [oauth_headers] or by a token request that
    is answered with it, goes out with the public call that follows. *)
Lemma oauth_headers_shares_the_dictionary_witness :
  let w := Sample.world_with [Sample.page NoHeader [Sample.show "A"]] []
             [("api_key", JStr "id"); ("api_secret", JStr "secret");
              ("alice", JDict [("access_token", JStr "t0k3n"); ("refresh_token", JStr "r");
                               ("created_at", JInt 0); ("expires_in", JInt 7776000)])] in
  let w1 := final (Trakt.oauth_headers Sample.trakt None) w in
  let token_response := Response 200 NoHeader "" (Some Sample.access_token_response) in
  let w2 := final (Trakt.__oauth_process_token_request Sample.trakt token_response) w in
  (2%positive = Trakt.headers Sample.trakt /\ bearer (Trakt.headers Sample.trakt) w1) /\
  Forall (sent_authorization "Bearer t0k3n")
    (events_of (Trakt.get_anticipated_shows Sample.trakt 1000 None) w1) /\
  deref (Trakt.headers Sample.trakt) w2 !! "Authorization" = Some "Bearer t0k3n" /\
  Forall (sent_authorization "Bearer t0k3n")
    (events_of (Trakt.get_anticipated_shows Sample.trakt 1000 None) w2).
Proof.
  intros w w1 token_response w2.
  destruct (oauth_headers_shares_the_dictionary Sample.trakt)
    as (H1 & _ & _ & _ & _ & H3 & _ & _ & _ & H5).
  assert (Hw2 : deref (Trakt.headers Sample.trakt) w2 !! "Authorization"
                = Some "Bearer t0k3n").
  { apply (H3 token_response w Sample.access_token_response "t0k3n"); reflexivity. }
  split; [|split; [|split]].
  - apply (H1 None w 2%positive w1). vm_compute. reflexivity.
  - apply (H5 w1 "Bearer t0k3n" 1000 None). vm_compute. reflexivity.
  - exact Hw2.
  - apply (H5 w2 "Bearer t0k3n" 1000 None). exact Hw2.
Defined.
